(** * SysMonitor: the sampling and ranking engine of [sysmonitor.c]

    A shallow embedding of the C functions [is_numeric], [read_process_info],
    [compare_processes], [top_processes], [get_cpu_stats] and the percentage
    computation of [cpu_usage], together with the parts of the C library they
    call ([isdigit], [isspace], [atoi], [fgets], [fscanf], [qsort]).

    Conventions.
    - A C string is the [list ascii] of its characters, the terminating NUL
      left out; the contents of a file are a [list ascii] as well.
      [str "..."] writes a literal.
    - [unsigned long long] is a [Z] in [0, 2^64) and every arithmetic
      operation on it is reduced modulo 2^64 ([wrap64]).
    - [proc_count] and [capacity] are C [int]s counting array slots; they are
      bounded by the number of directory entries of /proc and are kept as
      unbounded numbers here.
    - The file system and the allocator are an explicit [world] value that
      the functions read: which files open, what they contain, which
      allocations succeed.
    - What a [void] function shows to the operator is the list of [event]s it
      emits.  Screen clearing, headings and the final prompt are left out;
      error lines, table rows, percentages and log entries are kept.
    - Where ISO C leaves the library undefined the model follows glibc:
      [strtoull] and [strtol] saturate, and [fscanf] returns [EOF] when the
      input ends before anything was stored.  The program treats [EOF] and a
      short count alike. *)

From Stdlib Require Import ZArith List Bool Ascii String Lia.
From Stdlib Require Import QArith Qfield.
From Stdlib Require Import Permutation Sorted.
Import ListNotations.

Open Scope Z_scope.

(** ** Characters and C strings *)

Definition cstring : Type := list ascii.

Definition str (s : string) : cstring := list_ascii_of_string s.

Definition code (c : ascii) : Z := Z.of_N (N_of_ascii c).

(** [isdigit] of <ctype.h>: the ten characters '0' .. '9'. *)
Definition isdigit (c : ascii) : bool := (48 <=? code c) && (code c <=? 57).

(** [isspace] of <ctype.h> in the C locale: space, \t, \n, \v, \f, \r. *)
Definition isspace (c : ascii) : bool :=
  (code c =? 32) || ((9 <=? code c) && (code c <=? 13)).

Definition isgraph (c : ascii) : bool := negb (isspace c).

Definition is_char (n : Z) (c : ascii) : bool := code c =? n.

Definition NUL : Z := 0.
Definition NEWLINE : Z := 10.
Definition PLUS : Z := 43.
Definition MINUS : Z := 45.

Fixpoint take_while (p : ascii -> bool) (s : cstring) : cstring :=
  match s with
  | c :: s' => if p c then c :: take_while p s' else []
  | [] => []
  end.

Fixpoint drop_while (p : ascii -> bool) (s : cstring) : cstring :=
  match s with
  | c :: s' => if p c then drop_while p s' else s
  | [] => []
  end.

(** ** Unsigned 64-bit arithmetic *)

Definition ULLONG_MAX : Z := 2 ^ 64 - 1.

Definition wrap64 (z : Z) : Z := z mod 2 ^ 64.

Definition in_u64 (z : Z) : Prop := 0 <= z <= ULLONG_MAX.

(** ** Decimal conversions of the C library *)

Definition digit_value (c : ascii) : Z := code c - 48.

Definition decimal (ds : cstring) : Z :=
  fold_left (fun acc c => acc * 10 + digit_value c) ds 0.

(** [strtoull] on an already isolated sign and digit sequence, as glibc
    does it: a magnitude above [ULLONG_MAX] saturates, a minus sign negates
    in unsigned arithmetic. *)
Definition strtoull (negative : bool) (ds : cstring) : Z :=
  let n := decimal ds in
  if n >? ULLONG_MAX then ULLONG_MAX
  else if negative then wrap64 (- n) else n.

Definition LONG_MAX : Z := 2 ^ 63 - 1.

(** Conversion of a [long] to [int]: the low 32 bits, two's complement. *)
Definition to_int (z : Z) : Z := (z + 2 ^ 31) mod 2 ^ 32 - 2 ^ 31.

(** [strtol (s, NULL, 10)]: leading blanks, an optional sign, the longest
    run of digits; the result saturates at [LONG_MIN] and [LONG_MAX]. *)
Definition strtol (s : cstring) : Z :=
  let s0 := drop_while isspace s in
  let negative := match s0 with c :: _ => is_char MINUS c | [] => false end in
  let s1 := match s0 with
            | c :: s' => if is_char MINUS c || is_char PLUS c then s' else s0
            | [] => s0
            end in
  let n := decimal (take_while isdigit s1) in
  if negative then Z.max (- n) (- LONG_MAX - 1) else Z.min n LONG_MAX.

(** [atoi (s)] is [(int) strtol (s, NULL, 10)]. *)
Definition atoi (s : cstring) : Z := to_int (strtol s).

(** ** Formatted input: the directives of [fscanf] used by the program *)

Inductive conv : Type :=
| conv_s   (* %s : a run of non-blank characters *)
| conv_c   (* %c : one character, blanks are not skipped *)
| conv_d   (* %d : optionally signed decimal integer *)
| conv_u.  (* %u, %llu : optionally signed decimal integer, unsigned result *)

Inductive directive : Type :=
| Blank                 (* white space in the format *)
| Skip (c : conv)       (* %*s %*c %*d %*u : converted, not stored *)
| Store_llu.            (* %llu : converted and stored *)

(** Reading the format string itself. *)
Fixpoint parse_format (fuel : nat) (f : cstring) : option (list directive) :=
  match fuel with
  | O => None
  | S fuel' =>
    match f with
    | [] => Some []
    | c :: f1 =>
      if isspace c then option_map (cons Blank) (parse_format fuel' f1)
      else if is_char 37 c then            (* '%' *)
        match f1 with
        | s :: k :: f2 =>
          if is_char 42 s then             (* '*' *)
            let d := if is_char 115 k then Some (Skip conv_s)
                     else if is_char 99 k then Some (Skip conv_c)
                     else if is_char 100 k then Some (Skip conv_d)
                     else if is_char 117 k then Some (Skip conv_u)
                     else None in
            match d with
            | Some d => option_map (cons d) (parse_format fuel' f2)
            | None => None
            end
          else
            match f2 with
            | l2 :: f3 =>
              if is_char 108 s && is_char 108 k && is_char 117 l2  (* "llu" *)
              then option_map (cons Store_llu) (parse_format fuel' f3)
              else None
            | [] => None
            end
        | _ => None
        end
      else None
    end
  end.

Definition format_of (f : string) : option (list directive) :=
  parse_format (S (String.length f)) (str f).

(** The outcome of reading one input item. *)
Inductive item : Type :=
| InputFailure                          (* end of input before any character *)
| MatchingFailure                       (* the input does not fit the directive *)
| Matched (v : Z) (rest : cstring).

Definition skip_space (s : cstring) : cstring := drop_while isspace s.

(** An optionally signed decimal number at the head of [s]. *)
Definition read_number (s : cstring) : item :=
  match s with
  | [] => InputFailure
  | c :: s' =>
    let negative := is_char MINUS c in
    let s1 := if is_char MINUS c || is_char PLUS c then s' else s in
    match take_while isdigit s1 with
    | [] => MatchingFailure
    | ds => Matched (strtoull negative ds) (drop_while isdigit s1)
    end
  end.

Definition read_item (c : conv) (s : cstring) : item :=
  match c with
  | conv_c =>
    match s with
    | [] => InputFailure
    | _ :: s' => Matched 0 s'
    end
  | conv_s =>
    match skip_space s with
    | [] => InputFailure
    | s1 => Matched 0 (drop_while isgraph s1)
    end
  | conv_d | conv_u => read_number (skip_space s)
  end.

Definition EOF : Z := -1.

Definition count (done : list Z) : Z := Z.of_nat (List.length done).

(** [vfscanf]: run the directives over the input.  [done] holds the values
    stored so far, in order.  The integer returned is the number of stored
    values, or [EOF] when the input ends before anything was stored. *)
Fixpoint vfscanf (fmt : list directive) (s : cstring) (done : list Z)
  : Z * list Z :=
  match fmt with
  | [] => (count done, done)
  | Blank :: fmt' => vfscanf fmt' (skip_space s) done
  | Skip c :: fmt' =>
    match read_item c s with
    | InputFailure => ((if count done =? 0 then EOF else count done), done)
    | MatchingFailure => (count done, done)
    | Matched _ rest => vfscanf fmt' rest done
    end
  | Store_llu :: fmt' =>
    match read_item conv_u s with
    | InputFailure => ((if count done =? 0 then EOF else count done), done)
    | MatchingFailure => (count done, done)
    | Matched v rest => vfscanf fmt' rest (done ++ [v])
    end
  end.

(** Storing the converted values through the pointer arguments of the
    call, in order. *)
Fixpoint assign {T : Type} (targets : list (Z -> T -> T)) (vals : list Z)
  (t : T) : T :=
  match targets, vals with
  | set :: targets', v :: vals' => assign targets' vals' (set v t)
  | _, _ => t
  end.

Definition fscanf {T : Type} (stream : cstring) (fmt : list directive)
  (targets : list (Z -> T -> T)) (t : T) : Z * T :=
  let '(n, vals) := vfscanf fmt stream [] in (n, assign targets vals t).

(** [fgets (buf, size, fp)]: at most [size - 1] characters, stopping after a
    newline; [None] (a null pointer, the buffer untouched) at end of file. *)
Fixpoint read_line (n : nat) (s : cstring) : cstring :=
  match n, s with
  | S n', c :: s' => if is_char NEWLINE c then [c] else c :: read_line n' s'
  | _, _ => []
  end.

Definition fgets (size : nat) (stream : cstring) : option cstring :=
  match stream with
  | [] => None
  | _ => Some (read_line (size - 1) stream)
  end.

(** The C string held by a buffer: the characters before the first NUL. *)
Definition c_str (buf : cstring) : cstring :=
  take_while (fun c => negb (is_char NUL c)) buf.

Definition strlen (buf : cstring) : nat := List.length (c_str buf).

(** ** The C library's [qsort]

    ISO C fixes only this much: the array is rearranged so that it is in
    ascending order of the comparison function, and the relative order of
    elements that compare equal is unspecified, provided the comparison
    function is consistent: the sign of [compar a b] is opposite to that of
    [compar b a], and the order is transitive.  [Qsort] is the function,
    [QsortLaws] the two properties an implementation has to have. *)

Definition consistent {A : Type} (compar : A -> A -> Z) : Prop :=
  (forall a b, compar a b <= 0 <-> 0 <= compar b a) /\
  (forall a b c, compar a b <= 0 -> compar b c <= 0 -> compar a c <= 0).

Definition ascending {A : Type} (compar : A -> A -> Z) : list A -> Prop :=
  StronglySorted (fun a b => compar a b <= 0).

Class Qsort : Type := {
  qsort : forall {A : Type}, list A -> (A -> A -> Z) -> list A
}.

Class QsortLaws (Q : Qsort) : Prop := {
  qsort_rearranges :
    forall (A : Type) (base : list A) compar,
      Permutation base (qsort base compar);
  qsort_ascending :
    forall (A : Type) (base : list A) compar,
      consistent compar -> ascending compar (qsort base compar)
}.

(** ** Data of the program *)

Record ProcessInfo : Type := {
  pid : Z;
  name : cstring;
  utime : Z;
  stime : Z;
  total_time : Z
}.

Definition set_name (v : cstring) (p : ProcessInfo) : ProcessInfo :=
  {| pid := pid p; name := v; utime := utime p; stime := stime p;
     total_time := total_time p |}.

Definition set_utime (v : Z) (p : ProcessInfo) : ProcessInfo :=
  {| pid := pid p; name := name p; utime := v; stime := stime p;
     total_time := total_time p |}.

Definition set_stime (v : Z) (p : ProcessInfo) : ProcessInfo :=
  {| pid := pid p; name := name p; utime := utime p; stime := v;
     total_time := total_time p |}.

Definition set_total_time (v : Z) (p : ProcessInfo) : ProcessInfo :=
  {| pid := pid p; name := name p; utime := utime p; stime := stime p;
     total_time := v |}.

Record CPUStats : Type := {
  user : Z; nice : Z; system : Z; idle : Z;
  iowait : Z; irq : Z; softirq : Z; steal : Z;
  total : Z; active : Z
}.

Definition set_user (v : Z) (s : CPUStats) : CPUStats :=
  {| user := v; nice := nice s; system := system s; idle := idle s;
     iowait := iowait s; irq := irq s; softirq := softirq s; steal := steal s;
     total := total s; active := active s |}.

Definition set_nice (v : Z) (s : CPUStats) : CPUStats :=
  {| user := user s; nice := v; system := system s; idle := idle s;
     iowait := iowait s; irq := irq s; softirq := softirq s; steal := steal s;
     total := total s; active := active s |}.

Definition set_system (v : Z) (s : CPUStats) : CPUStats :=
  {| user := user s; nice := nice s; system := v; idle := idle s;
     iowait := iowait s; irq := irq s; softirq := softirq s; steal := steal s;
     total := total s; active := active s |}.

Definition set_idle (v : Z) (s : CPUStats) : CPUStats :=
  {| user := user s; nice := nice s; system := system s; idle := v;
     iowait := iowait s; irq := irq s; softirq := softirq s; steal := steal s;
     total := total s; active := active s |}.

Definition set_iowait (v : Z) (s : CPUStats) : CPUStats :=
  {| user := user s; nice := nice s; system := system s; idle := idle s;
     iowait := v; irq := irq s; softirq := softirq s; steal := steal s;
     total := total s; active := active s |}.

Definition set_irq (v : Z) (s : CPUStats) : CPUStats :=
  {| user := user s; nice := nice s; system := system s; idle := idle s;
     iowait := iowait s; irq := v; softirq := softirq s; steal := steal s;
     total := total s; active := active s |}.

Definition set_softirq (v : Z) (s : CPUStats) : CPUStats :=
  {| user := user s; nice := nice s; system := system s; idle := idle s;
     iowait := iowait s; irq := irq s; softirq := v; steal := steal s;
     total := total s; active := active s |}.

Definition set_steal (v : Z) (s : CPUStats) : CPUStats :=
  {| user := user s; nice := nice s; system := system s; idle := idle s;
     iowait := iowait s; irq := irq s; softirq := softirq s; steal := v;
     total := total s; active := active s |}.

Definition set_active (v : Z) (s : CPUStats) : CPUStats :=
  {| user := user s; nice := nice s; system := system s; idle := idle s;
     iowait := iowait s; irq := irq s; softirq := softirq s; steal := steal s;
     total := total s; active := v |}.

Definition set_total (v : Z) (s : CPUStats) : CPUStats :=
  {| user := user s; nice := nice s; system := system s; idle := idle s;
     iowait := iowait s; irq := irq s; softirq := softirq s; steal := steal s;
     total := v; active := active s |}.

(** ** The host: /proc and the allocator *)

Record world : Type := {
  malloc_ok : bool;                      (* the initial [malloc] succeeds *)
  realloc_ok : Z -> bool;                (* [realloc] to that many slots succeeds *)
  proc_dir : option (list cstring);      (* [opendir ("/proc")], then the names
                                            [readdir] yields, in order *)
  pid_comm : Z -> option cstring;        (* /proc/<pid>/comm, [None]: no [fopen] *)
  pid_stat : Z -> option cstring;        (* /proc/<pid>/stat *)
  proc_stat : option cstring             (* /proc/stat *)
}.

(** What the operator and the log file get to see. *)
Inductive event : Type :=
| Perror (msg : string)                  (* [perror]: message on stderr *)
| Print (msg : string)                   (* a fixed line on stdout *)
| Row (p : ProcessInfo)                  (* one line of the process table *)
| Log (mode details : string)            (* [write_log] *)
| LogCount (mode details : string) (n : Z)
                                         (* [write_log] of a message with one %d *)
| Gauge (label : string) (percent : Q).  (* a labelled percentage on stdout *)

(** ** [is_numeric] *)

Fixpoint all_digits (s : cstring) : bool :=
  match s with
  | [] => true
  | c :: s' => if negb (isdigit c) then false else all_digits s'
  end.

Definition is_numeric (s : cstring) : bool :=
  match s with
  | [] => false
  | _ => all_digits s
  end.

(** ** [read_process_info] *)

Definition stat_format : list directive :=
  [Skip conv_d; Blank; Skip conv_s; Blank; Skip conv_c; Blank;
   Skip conv_d; Blank; Skip conv_d; Blank; Skip conv_d; Blank;
   Skip conv_d; Blank; Skip conv_d; Blank;
   Skip conv_u; Blank; Skip conv_u; Blank; Skip conv_u; Blank;
   Skip conv_u; Blank; Skip conv_u; Blank;
   Store_llu; Blank; Store_llu].

Definition zero_char : ascii := ascii_of_nat 0.

Definition read_process_info (w : world) (pid : Z) : Z * ProcessInfo :=
  let proc := {| pid := pid; name := str "unknown";
                 utime := 0; stime := 0; total_time := 0 |} in
  let proc :=
    match pid_comm w pid with
    | Some fp =>
      match fgets 256 fp with
      | Some buf =>
        let len := strlen buf in
        if (0 <? len)%nat && is_char NEWLINE (nth (len - 1) buf zero_char)
        then set_name (firstn (len - 1) buf) proc
        else set_name (c_str buf) proc
      | None => proc
      end
    | None => proc
    end in
  match pid_stat w pid with
  | None => (0, proc)
  | Some fp =>
    let '(fields_read, proc) :=
      fscanf fp stat_format [set_utime; set_stime] proc in
    if negb (fields_read =? 2) then (0, proc)
    else (1, set_total_time (wrap64 (utime proc + stime proc)) proc)
  end.

(** ** [compare_processes] *)

Definition compare_processes (proc_a proc_b : ProcessInfo) : Z :=
  if total_time proc_b >? total_time proc_a then 1
  else if total_time proc_b <? total_time proc_a then -1
  else 0.

(** ** [top_processes] *)

(** The [readdir] loop.  [processes] is the filled part of the array, so
    [proc_count] is its length.  The result says whether the loop was left
    by the [break] of a failed [realloc]. *)
Fixpoint readdir_loop (w : world) (entries : list cstring)
  (processes : list ProcessInfo) (capacity : Z) : list ProcessInfo * bool :=
  match entries with
  | [] => (processes, false)
  | d_name :: entries' =>
    if negb (is_numeric d_name) then readdir_loop w entries' processes capacity
    else
      let pid := atoi d_name in
      let proc_count := Z.of_nat (List.length processes) in
      let grow := proc_count >=? capacity in
      let capacity := if grow then capacity * 2 else capacity in
      if grow && negb (realloc_ok w capacity) then (processes, true)
      else
        match read_process_info w pid with
        | (0, _) => readdir_loop w entries' processes capacity
        | (_, proc) => readdir_loop w entries' (processes ++ [proc]) capacity
        end
  end.

Definition top_processes {Q : Qsort} (w : world) : list event :=
  let capacity := 100 in
  if negb (malloc_ok w) then
    [Perror "Error: Memory allocation failed";
     Log "ERROR" "Memory allocation failed for process array"]
  else
    match proc_dir w with
    | None =>
      [Perror "Error: Cannot open /proc directory";
       Log "ERROR" "Failed to open /proc directory"]
    | Some entries =>
      let '(processes, broke) := readdir_loop w entries [] capacity in
      let proc_count := Z.of_nat (List.length processes) in
      (if broke then [Print "Error: Memory reallocation failed"] else []) ++
      if proc_count =? 0 then [Print "No processes found"]
      else
        let processes := qsort processes compare_processes in
        let display_count := if proc_count <? 5 then proc_count else 5 in
        map Row (firstn (Z.to_nat display_count) processes) ++
        [LogCount "MENU" "Top 5 Processes viewed (%d processes found)"
           proc_count]
    end.

(** ** [get_cpu_stats] and the computation of [cpu_usage] *)

Definition cpu_format : list directive :=
  [Skip conv_s; Blank; Store_llu; Blank; Store_llu; Blank; Store_llu; Blank;
   Store_llu; Blank; Store_llu; Blank; Store_llu; Blank; Store_llu; Blank;
   Store_llu].

Definition get_cpu_stats (w : world) (stats : CPUStats) : Z * CPUStats :=
  match proc_stat w with
  | None => (-1, stats)
  | Some fp =>
    let '(fields, stats) :=
      fscanf fp cpu_format
        [set_user; set_nice; set_system; set_idle;
         set_iowait; set_irq; set_softirq; set_steal] stats in
    if fields <? 8 then (-1, stats)
    else
      let stats :=
        set_active (wrap64 (wrap64 (wrap64 (wrap64 (user stats + nice stats)
                      + system stats) + irq stats) + softirq stats)) stats in
      let stats :=
        set_total (wrap64 (wrap64 (wrap64 (active stats + idle stats)
                      + iowait stats) + steal stats)) stats in
      (0, stats)
  end.

(** The percentages are C [double]s in the source; they are exact rationals
    here, so rounding is left out. *)
Record CPUUsage : Type := {
  divisor : Z;               (* [total_delta] as it reaches the divisions *)
  usage_percent : Q;
  idle_percent : Q;
  iowait_percent : Q;
  steal_percent : Q
}.

Definition percent (delta total_delta : Z) : Q :=
  (inject_Z delta / inject_Z total_delta * 100)%Q.

Definition cpu_percentages (prev curr : CPUStats) : CPUUsage :=
  let total_delta := wrap64 (total curr - total prev) in
  let active_delta := wrap64 (active curr - active prev) in
  let idle_delta := wrap64 (idle curr - idle prev) in
  let iowait_delta := wrap64 (iowait curr - iowait prev) in
  let steal_delta := wrap64 (steal curr - steal prev) in
  let total_delta := if total_delta =? 0 then 1 else total_delta in
  {| divisor := total_delta;
     usage_percent := percent active_delta total_delta;
     idle_percent := percent idle_delta total_delta;
     iowait_percent := percent iowait_delta total_delta;
     steal_percent := percent steal_delta total_delta |}.

(** [cpu_usage]: [before] is the host at the first sample, [after] the host
    one second later; [prev] and [curr] are the two local structures as the
    stack holds them on entry. *)
Definition cpu_usage (before after : world) (prev curr : CPUStats)
  : list event :=
  match get_cpu_stats before prev with
  | (0, prev) =>
    match get_cpu_stats after curr with
    | (0, curr) =>
      let u := cpu_percentages prev curr in
      [Gauge "Active Usage" (usage_percent u);
       Gauge "Idle" (idle_percent u);
       Gauge "I/O Wait" (iowait_percent u)] ++
      (if Qle_bool (steal_percent u) (1 # 10) then []
       else [Gauge "Steal Time" (steal_percent u)])
    | _ => []
    end
  | _ => []
  end.

(** ** Two implementations of [qsort]

    Insertion sort, inserting from the right end.  With [before x y] true on
    ties the element met first stays first (a stable sort); with [before]
    false on ties equal elements come out in reverse order.  Both are
    instances of the interface. *)

Fixpoint insert_by {A : Type} (before : A -> A -> bool) (x : A) (l : list A)
  : list A :=
  match l with
  | [] => [x]
  | y :: l' => if before x y then x :: l else y :: insert_by before x l'
  end.

Definition insertion_sort {A : Type} (before : A -> A -> bool) (l : list A)
  : list A := fold_right (insert_by before) [] l.

Definition stable_sort {A : Type} (base : list A) (compar : A -> A -> Z)
  : list A := insertion_sort (fun x y => compar x y <=? 0) base.

Definition reversing_sort {A : Type} (base : list A) (compar : A -> A -> Z)
  : list A := insertion_sort (fun x y => compar x y <? 0) base.

(** A [qsort] that keeps ties in array order. *)
Definition stable_qsort : Qsort := {| qsort := @stable_sort |}.

(** A [qsort] that reverses ties. *)
Definition reversing_qsort : Qsort := {| qsort := @reversing_sort |}.

(** ** Views on the output and on the host *)

Definition rows (out : list event) : list ProcessInfo :=
  flat_map (fun e => match e with Row p => [p] | _ => [] end) out.

(** An event that tells of an operation given up: a [perror] line or a log
    entry of mode ERROR. *)
Definition is_failure_report (e : event) : bool :=
  match e with
  | Perror _ => true
  | Log mode _ => String.eqb mode "ERROR"
  | LogCount mode _ _ => String.eqb mode "ERROR"
  | _ => false
  end.

Definition hard_failure (out : list event) : bool :=
  existsb is_failure_report out.

Definition with_proc_dir (d : option (list cstring)) (w : world) : world :=
  {| malloc_ok := malloc_ok w; realloc_ok := realloc_ok w; proc_dir := d;
     pid_comm := pid_comm w; pid_stat := pid_stat w;
     proc_stat := proc_stat w |}.

Definition with_proc_stat (f : option cstring) (w : world) : world :=
  {| malloc_ok := malloc_ok w; realloc_ok := realloc_ok w;
     proc_dir := proc_dir w; pid_comm := pid_comm w; pid_stat := pid_stat w;
     proc_stat := f |}.

(** The samples the [readdir] loop has gathered when it is left. *)
Definition collected (w : world) (entries : list cstring) : list ProcessInfo :=
  fst (readdir_loop w entries [] 100).

(** The invariant of a snapshot in the data model: eight counters in range
    and the two derived fields equal to the plain sums. *)
Record snapshot (s : CPUStats) : Prop := {
  snap_user : in_u64 (user s);
  snap_nice : in_u64 (nice s);
  snap_system : in_u64 (system s);
  snap_idle : in_u64 (idle s);
  snap_iowait : in_u64 (iowait s);
  snap_irq : in_u64 (irq s);
  snap_softirq : in_u64 (softirq s);
  snap_steal : in_u64 (steal s);
  snap_active : active s = user s + nice s + system s + irq s + softirq s;
  snap_total : total s = active s + idle s + iowait s + steal s;
  snap_range : in_u64 (total s)
}.

(** No counter of [curr] is below the same counter of [prev]. *)
Record non_decreasing (prev curr : CPUStats) : Prop := {
  nd_user : user prev <= user curr;
  nd_nice : nice prev <= nice curr;
  nd_system : system prev <= system curr;
  nd_idle : idle prev <= idle curr;
  nd_iowait : iowait prev <= iowait curr;
  nd_irq : irq prev <= irq curr;
  nd_softirq : softirq prev <= softirq curr;
  nd_steal : steal prev <= steal curr
}.

(** ** Vocabulary of the properties *)

(** What one numeric entry adds to the array: its sample when
    [read_process_info] returns non-zero, nothing otherwise. *)
Definition attempt (w : world) (d_name : cstring) : list ProcessInfo :=
  match read_process_info w (atoi d_name) with
  | (0, _) => []
  | (_, proc) => [proc]
  end.

(** The samples of all entries of a listing, in order: those of the numeric
    entries whose read succeeds. *)
Definition successful_reads (w : world) (entries : list cstring)
  : list ProcessInfo :=
  flat_map (fun d => if is_numeric d then attempt w d else []) entries.

(** The accounting record of a process cannot be read: it does not open,
    or fewer than two tick counts are scanned from it. *)
Definition record_unreadable (w : world) (pid : Z) : Prop :=
  pid_stat w pid = None \/
  exists fp, pid_stat w pid = Some fp /\
             fst (vfscanf stat_format fp []) < 2.

(** The name [read_process_info] leaves in the structure. *)
Definition name_read (w : world) (pid : Z) : cstring :=
  name (snd (read_process_info w pid)).

(** Descending order of total ticks. *)
Definition descending : list ProcessInfo -> Prop :=
  StronglySorted (fun a b => total_time a >= total_time b).

(** The table: the first five of the sorted array. *)
Definition ranking {Q : Qsort} (ps : list ProcessInfo) : list ProcessInfo :=
  firstn 5 (qsort ps compare_processes).

(** The ten decimal digits, as characters. *)
Definition decimal_digits : cstring := str "0123456789".

(** [s] does not go on with a character that satisfies [p]. *)
Definition stops (p : ascii -> bool) (s : cstring) : Prop :=
  match s with
  | [] => True
  | c :: _ => p c = false
  end.

Definition all (p : ascii -> bool) (s : cstring) : Prop :=
  Forall (fun c => p c = true) s.

(** A field of the statistics line: blanks, then digits. *)
Record field (sep ds : cstring) : Prop := {
  field_sep : sep <> [] /\ all isspace sep;
  field_digits : ds <> [] /\ all isdigit ds
}.

Definition field_text (f : cstring * cstring) : cstring := fst f ++ snd f.

Definition field_value (f : cstring * cstring) : Z := strtoull false (snd f).

Definition fields_ok (fs : list (cstring * cstring)) : Prop :=
  Forall (fun f => field (fst f) (snd f)) fs.

(** [n] times " %llu". *)
Fixpoint llu_fields (n : nat) : list directive :=
  match n with
  | O => []
  | S n' => Blank :: Store_llu :: llu_fields n'
  end.

(** The label of the statistics line: a run of non-blank characters. *)
Definition label_ok (label : cstring) : Prop :=
  label <> [] /\ all isgraph label.

(** After the last field: blanks at most, and then no number. *)
Definition no_more_fields (tail : cstring) : Prop :=
  stops isgraph tail /\
  stops (fun c => isdigit c || is_char MINUS c || is_char PLUS c)
        (skip_space tail).

(** The number of %llu directives of a format. *)
Fixpoint stores (fmt : list directive) : Z :=
  match fmt with
  | [] => 0
  | Store_llu :: fmt' => 1 + stores fmt'
  | _ :: fmt' => stores fmt'
  end.

(** The eight counters of a structure, in the order of the statistics
    line. *)
Definition counters (s : CPUStats) : list Z :=
  [user s; nice s; system s; idle s; iowait s; irq s; softirq s; steal s].

(** The text of a statistics source: a label, fields, and what follows. *)
Definition stat_line (label : cstring) (fs : list (cstring * cstring))
  (tail : cstring) : cstring :=
  label ++ flat_map field_text fs ++ tail.

(** Text without a line break and without a NUL. *)
Definition plain (text : cstring) : Prop :=
  all (fun c => negb (is_char NEWLINE c) && negb (is_char NUL c)) text.

(** ** Sample hosts *)

Definition newline : ascii := ascii_of_nat 10.

Definition sample_stat (pid : Z) : option cstring :=
  if pid =? 1 then
    Some (str "1 (systemd) S 0 1 1 0 -1 4194560 100 200 3 4 30 20 0 0 20 0 1")
  else if pid =? 2 then
    Some (str "2 (kthreadd) S 0 0 0 0 -1 2129984 0 0 0 0 10 0 0 0 20 0 1")
  else if pid =? 3 then
    Some (str "3 (sshd) S 1 3 3 0 -1 4194560 5 0 0 0 20 10 0 0 20 0 1")
  else if pid =? 4 then
    Some (str "4 (cron) S 1 4 4 0 -1 4194560 9 0 0 0 5 0 0 0 20 0 1")
  else if pid =? 5 then
    Some (str "5 (Xorg) R 1 5 5 1025 5 4194560 77 0 1 0 60 30 0 0 20 0 1")
  else if pid =? 6 then
    Some (str "6 (sleep) S 5 6 5 1025 5 4194560 1 0 0 0 1 0 0 0 20 0 1")
  else if pid =? 8 then
    Some (str "8 (dying) Z")              (* cut short: no tick fields *)
  else None.                               (* pid 7 and all others: gone *)

Definition sample_comm (pid : Z) : option cstring :=
  if pid =? 1 then Some (str "systemd" ++ [newline])
  else if pid =? 2 then Some (str "kthreadd" ++ [newline])
  else if pid =? 3 then Some (str "sshd" ++ [newline])
  else if pid =? 4 then Some (str "cron" ++ [newline])
  else if pid =? 5 then Some (str "Xorg")
  else None.

Definition sample_entries : list cstring :=
  [str "1"; str "self"; str "2"; str "3"; str "7"; str "4"; str "1abc";
   str "5"; str "8"; str "6"].

Definition sample_host : world :=
  {| malloc_ok := true;
     realloc_ok := fun _ => true;
     proc_dir := Some sample_entries;
     pid_comm := sample_comm;
     pid_stat := sample_stat;
     proc_stat :=
       Some (str "cpu  4705 356 584 3699 23 23 10 0 0 0" ++ [newline]
             ++ str "cpu0 1393 180 292 1849 11 23 10 0 0 0" ++ [newline]) |}.

(** The first line of the sample /proc/stat, cut into label, fields and
    rest. *)
Definition sample_fields : list (cstring * cstring) :=
  [(str "  ", str "4705"); (str " ", str "356"); (str " ", str "584");
   (str " ", str "3699"); (str " ", str "23"); (str " ", str "23");
   (str " ", str "10"); (str " ", str "0")].

Definition sample_tail : cstring :=
  str " 0 0" ++ [newline]
  ++ str "cpu0 1393 180 292 1849 11 23 10 0 0 0" ++ [newline].

(** A statistics source with three counters only. *)
Definition short_line_host : world :=
  {| malloc_ok := true;
     realloc_ok := fun _ => true;
     proc_dir := None;
     pid_comm := fun _ => None;
     pid_stat := fun _ => None;
     proc_stat := Some (str "cpu 1 2 3" ++ [newline]) |}.

(** The same host when the initial [malloc] fails. *)
Definition starved_host : world :=
  {| malloc_ok := false;
     realloc_ok := realloc_ok sample_host;
     proc_dir := proc_dir sample_host;
     pid_comm := pid_comm sample_host;
     pid_stat := pid_stat sample_host;
     proc_stat := proc_stat sample_host |}.

(** Two processes with the same total: 4 + 6 and 10 + 0 ticks. *)
Definition tie_host : world :=
  {| malloc_ok := true;
     realloc_ok := fun _ => true;
     proc_dir := Some [str "1"; str "2"];
     pid_comm := fun _ => None;
     pid_stat := fun pid =>
       if pid =? 1 then
         Some (str "1 (a) S 0 1 1 0 -1 0 0 0 0 0 4 6 0 0 20 0 1")
       else if pid =? 2 then
         Some (str "2 (b) S 0 2 2 0 -1 0 0 0 0 0 10 0 0 0 20 0 1")
       else None;
     proc_stat := None |}.

(** Two hundred readable processes, named 100 to 299, and an allocator that
    refuses to grow the array. *)
Definition crowded_entries : list cstring :=
  let digits := str "0123456789" in
  flat_map (fun a => flat_map (fun b => map (fun c => [a; b; c]) digits)
                       digits) (str "12").

Definition crowded_host : world :=
  {| malloc_ok := true;
     realloc_ok := fun _ => false;
     proc_dir := Some crowded_entries;
     pid_comm := fun _ => Some (str "worker" ++ [newline]);
     pid_stat := fun _ =>
       Some (str "9 (worker) S 1 9 9 0 -1 0 0 0 0 0 7 3 0 0 20 0 1");
     proc_stat := None |}.

(** A statistics line whose counters exceed 64 bits when added up. *)
Definition saturated_host : world :=
  {| malloc_ok := true;
     realloc_ok := fun _ => true;
     proc_dir := None;
     pid_comm := fun _ => None;
     pid_stat := fun _ => None;
     proc_stat := Some (str "cpu 18446744073709551615 0 0 1 0 0 0 0") |}.

Definition blank_stats : CPUStats :=
  {| user := 0; nice := 0; system := 0; idle := 0; iowait := 0; irq := 0;
     softirq := 0; steal := 0; total := 0; active := 0 |}.

(** Two snapshots of a host, one hundred ticks apart. *)
Definition idle_host : CPUStats :=
  {| user := 4705; nice := 356; system := 584; idle := 3699; iowait := 23;
     irq := 23; softirq := 10; steal := 0; total := 9400; active := 5678 |}.

Definition busy_host : CPUStats :=
  {| user := 4765; nice := 356; system := 594; idle := 3719; iowait := 28;
     irq := 23; softirq := 10; steal := 5; total := 9500; active := 5748 |}.

(** ** The accounting record of a process, as the kernel writes it *)

Definition space : ascii := ascii_of_nat 32.

Definition minus_sign : ascii := ascii_of_nat 45.

(** The first fifteen fields of /proc/<pid>/stat and what follows them. *)
Record stat_record : Type := {
  sr_pid : cstring;
  sr_comm : cstring;            (* the name, parentheses included *)
  sr_state : ascii;
  sr_signed : list cstring;     (* ppid pgrp session tty_nr tpgid *)
  sr_unsigned : list cstring;   (* flags minflt cminflt majflt cmajflt *)
  sr_utime : cstring;
  sr_stime : cstring;
  sr_rest : cstring
}.

Definition spaced (fields : list cstring) : cstring :=
  flat_map (fun f => space :: f) fields.

Definition stat_text (r : stat_record) : cstring :=
  sr_pid r ++ space :: sr_comm r ++ space :: sr_state r
  :: spaced (sr_signed r) ++ spaced (sr_unsigned r)
  ++ space :: sr_utime r ++ space :: sr_stime r ++ sr_rest r.

Definition digits_ok (ds : cstring) : Prop := ds <> [] /\ all isdigit ds.

(** Digits, or a minus sign and digits. *)
Definition number_ok (t : cstring) : Prop :=
  digits_ok t \/ exists ds, t = minus_sign :: ds /\ digits_ok ds.

Record stat_record_ok (r : stat_record) : Prop := {
  ok_pid : digits_ok (sr_pid r);
  ok_comm : label_ok (sr_comm r);
  ok_state : isspace (sr_state r) = false;
  ok_signed : List.length (sr_signed r) = 5%nat /\ Forall number_ok (sr_signed r);
  ok_unsigned :
    List.length (sr_unsigned r) = 5%nat /\ Forall number_ok (sr_unsigned r);
  ok_utime : digits_ok (sr_utime r);
  ok_stime : digits_ok (sr_stime r);
  ok_rest : stops isdigit (sr_rest r)
}.

(** " %*d" or " %*u", once for each conversion of the list. *)
Definition skipped_numbers (convs : list conv) : list directive :=
  flat_map (fun c => [Blank; Skip c]) convs.

Definition numeric (c : conv) : Prop := c = conv_d \/ c = conv_u.

(** A record of the sample host, cut into its fields. *)
Definition sample_record : stat_record :=
  {| sr_pid := str "5";
     sr_comm := str "(Xorg)";
     sr_state := ascii_of_nat 82;
     sr_signed := [str "1"; str "5"; str "5"; str "1025"; str "5"];
     sr_unsigned := [str "4194560"; str "77"; str "0"; str "1"; str "0"];
     sr_utime := str "60";
     sr_stime := str "30";
     sr_rest := str " 0 0 20 0 1" |}.

(** A host with one process whose name holds a blank. *)
Definition tmux_host : world :=
  {| malloc_ok := true;
     realloc_ok := fun _ => true;
     proc_dir := Some [str "1234"];
     pid_comm := fun _ => Some (str "tmux: server" ++ [newline]);
     pid_stat := fun _ =>
       Some (str "1234 (tmux: server) S 1 1234 1234 0 -1 4194304 15 0 0 0 17 9");
     proc_stat := None |}.

(** A character that may stand in a name: no line break, no NUL. *)
Definition plain_char (c : ascii) : bool :=
  negb (is_char NEWLINE c) && negb (is_char NUL c).

(** What [read_process_info] makes of the buffer [fgets] filled. *)
Definition name_of_buffer (buf : cstring) : cstring :=
  if (0 <? strlen buf)%nat
     && is_char NEWLINE (nth (strlen buf - 1) buf zero_char)
  then firstn (strlen buf - 1) buf
  else c_str buf.

(** ** The log file: [init_log], [write_log], [close_log]

    A log entry is kept as the event of its [write_log] call; the time
    stamp [get_timestamp] puts in front of it is left out.  [syslog] is the
    content of syslog.txt, which is opened for appending. *)

Record logger : Type := {
  log_file : bool;             (* the global [log_file] is not NULL *)
  syslog : list event
}.

Definition is_log (e : event) : bool :=
  match e with
  | Log _ _ | LogCount _ _ _ => true
  | _ => false
  end.

Definition write_log (e : event) (l : logger) : logger :=
  if negb (log_file l) then l
  else {| log_file := log_file l; syslog := syslog l ++ [e] |}.

Definition close_log (l : logger) : logger :=
  if log_file l then
    {| log_file := false;
       syslog :=
         syslog (write_log
                   (Log "SYSTEM" "Session ended - Program terminated normally")
                   l) |}
  else l.

(** The [write_log] calls of a screen, carried out in order. *)
Definition replay (out : list event) (l : logger) : logger :=
  fold_left (fun l e => if is_log e then write_log e l else l) out l.

(** ** The console and the state of a run *)

Inductive action : Type :=
| Out (e : event)                (* what one of the screens shows *)
| Err (msg : string)             (* [fprintf (stderr, ...)] *)
| Menu                           (* [display_menu] *)
| Help                           (* [display_help] *)
| Sleep (seconds : Z).           (* [sleep] *)

Record session : Type := {
  console : list action;         (* what has been shown so far *)
  journal : logger;
  input : cstring;               (* what is left of standard input *)
  seen : nat                     (* how often the host has been looked at *)
}.

(** What a run finds around it: whether syslog.txt opens and what it holds,
    the host as each look at it finds it, what the stack holds where
    [cpu_usage] has its two structures, and the [qsort] of the library. *)
Record setting : Type := {
  log_opens : bool;
  old_log : list event;
  host : nat -> world;
  stack : CPUStats;
  libc_qsort : Qsort
}.

Definition show (a : list action) (st : session) : session :=
  {| console := console st ++ a; journal := journal st;
     input := input st; seen := seen st |}.

Definition log (e : event) (st : session) : session :=
  {| console := console st; journal := write_log e (journal st);
     input := input st; seen := seen st |}.

Definition set_input (s : cstring) (st : session) : session :=
  {| console := console st; journal := journal st;
     input := s; seen := seen st |}.

Definition look (n : nat) (st : session) : session :=
  {| console := console st; journal := journal st;
     input := input st; seen := (seen st + n)%nat |}.

(** [getchar ()] with the character thrown away; at end of input it
    returns at once. *)
Definition getchar (st : session) : session := set_input (tl (input st)) st.

Definition init_log (E : setting) : logger * list action :=
  if log_opens E then ({| log_file := true; syslog := old_log E |}, [])
  else ({| log_file := false; syslog := old_log E |},
        [Out (Perror "Warning: Could not open log file");
         Err "Logging will be disabled."]).

(** ** The screens *)

(** What a screen shows, its [write_log] calls apart. *)
Definition shown (out : list event) : list action :=
  map Out (filter (fun e => negb (is_log e)) out).

(** [cpu_usage], with the looks at the host, the second of pause between
    them and the key it waits for at the end. *)
Definition cpu_usage_screen (E : setting) (st : session) : session :=
  let before := host E (seen st) in
  let after := host E (S (seen st)) in
  match get_cpu_stats before (stack E) with
  | (0, _) =>
    let st := show [Sleep 1] (look 1 st) in
    match get_cpu_stats after (stack E) with
    | (0, _) =>
      getchar (show (shown (cpu_usage before after (stack E) (stack E)))
                    (look 1 st))
    | _ => look 1 st
    end
  | _ => look 1 st
  end.

Definition memory_usage (st : session) : session :=
  getchar (log (Log "MENU" "Memory Usage viewed")
             (show [Out (Print "[Function not yet implemented]")] st)).

Definition top_processes_screen (E : setting) (st : session) : session :=
  let out := @top_processes (libc_qsort E) (host E (seen st)) in
  getchar
    {| console := console st ++ shown out;
       journal := replay out (journal st);
       input := input st;
       seen := S (seen st) |}.

Definition continuous_monitoring (st : session) : session :=
  getchar
    (log (Log "MENU" "Continuous Monitoring viewed")
       (show [Out (Print "[Function not yet implemented]");
              Out (Print
                     "For command-line mode, use: ./sysmonitor -c <interval>")]
          st)).

(** One round of [continuous_monitoring_with_interval]. *)
Definition monitoring_round (interval : Z) (iteration : Z) (st : session)
  : session :=
  show [Sleep interval]
    (log (LogCount "MONITOR" "Continuous monitoring - iteration %d" iteration)
       (show [Out (Print "CPU Usage: [Not implemented]");
              Out (Print "Memory Usage: [Not implemented]")] st)).

(** The state after the first [k] rounds of the loop, which has no exit.
    The counter of the loop is an [int]: the model follows it as long as
    [k] is at most [INT_MAX]. *)
Fixpoint monitoring_rounds (interval : Z) (k : nat) (st : session) : session :=
  match k with
  | O => st
  | S k' =>
    monitoring_round interval (Z.of_nat k)
      (monitoring_rounds interval k' st)
  end.

(** ** [parse_arguments] and [main] *)

(** How a run ends, if it does. *)
Inductive ending : Type :=
| Exit (code : Z) (st : session)
| Forever (rounds : nat -> session)  (* a loop without exit: the state
                                        after each number of rounds *)
| Hangs (st : session).              (* the loop that throws input away
                                        up to a line break, at end of input *)

Definition strcmp_eq (a b : cstring) : bool :=
  if list_eq_dec ascii_dec a b then true else false.

Definition complain (msg details : string) (st : session) : session :=
  log (Log "ERROR" details) (show [Err msg] st).

Definition parse_arguments (E : setting) (argv : list cstring) (st : session)
  : ending :=
  match argv with
  | [] | [_] => Exit 1 st
  | _ :: arg1 :: rest =>
    if strcmp_eq arg1 (str "-h") || strcmp_eq arg1 (str "--help") then
      Exit 0 (log (Log "CLI" "Help displayed") (show [Help] st))
    else if strcmp_eq arg1 (str "-m") then
      match rest with
      | [] =>
        Exit 1 (complain "Error: missing parameter. Use -m [cpu/mem/proc]."
                         "Missing parameter for -m flag" st)
      | arg2 :: _ =>
        if strcmp_eq arg2 (str "cpu") then
          Exit 0 (cpu_usage_screen E
                    (log (Log "CLI" "CPU usage displayed via command-line")
                         st))
        else if strcmp_eq arg2 (str "mem") then
          Exit 0 (memory_usage
                    (log (Log "CLI" "Memory usage displayed via command-line")
                         st))
        else if strcmp_eq arg2 (str "proc") then
          Exit 0 (top_processes_screen E
                    (log (Log "CLI" "Top processes displayed via command-line")
                         st))
        else
          Exit 1 (complain "Invalid option. Use -h for help."
                           "Invalid mode parameter" st)
      end
    else if strcmp_eq arg1 (str "-c") then
      match rest with
      | [] =>
        Exit 1 (complain "Error: missing parameter. Use -c <interval>."
                         "Missing interval for -c flag" st)
      | arg2 :: _ =>
        let interval := atoi arg2 in
        if interval <=? 0 then
          Exit 1 (complain "Error: interval must be a positive number."
                    "Invalid interval value for continuous monitoring" st)
        else
          Forever
            (fun k =>
               monitoring_rounds interval k
                 (log (LogCount "CLI"
                         "Continuous monitoring started with %d second interval"
                         interval) st))
      end
    else if strcmp_eq arg1 (str "-x") then
      Exit 1 (complain "Invalid option. Use -h for help."
                       "Invalid option -x provided" st)
    else
      Exit 1 (complain "Invalid option. Use -h for help."
                       "Unknown command-line option" st)
  end.

(** [scanf ("%d", &choice)] on what is left of the input: the value
    returned, the number stored when it is 1, and the input left. *)
Definition scanf_d (s : cstring) : Z * Z * cstring :=
  match skip_space s with
  | [] => (EOF, 0, [])
  | c :: s' =>
    let s1 := if is_char MINUS c || is_char PLUS c then s' else c :: s' in
    match take_while isdigit s1 with
    | [] => (0, 0, s1)
    | _ => (1, atoi (c :: s'), drop_while isdigit s1)
    end
  end.

(** [while (getchar () != '\n');] : the input after the first line break,
    or [None] when there is none and the loop goes on for ever. *)
Fixpoint flush_line (s : cstring) : option cstring :=
  match s with
  | [] => None
  | c :: s' => if is_char NEWLINE c then Some s' else flush_line s'
  end.

(** One pass through the body of the menu loop. *)
Inductive pass : Type :=
| Again (st : session)           (* back to the menu *)
| Leave (st : session)           (* [running = 0] *)
| Stuck (st : session).          (* never out of the flushing loop *)

Definition menu_pass (E : setting) (st : session) : pass :=
  let st := show [Menu] st in
  let '(assigned, choice, rest) := scanf_d (input st) in
  let st := set_input rest st in
  match flush_line rest with
  | None => Stuck st
  | Some rest =>
    let st := set_input rest st in
    if negb (assigned =? 1) then
      Again (show [Out (Print "Invalid input. Please enter a number.");
                   Sleep 2] st)
    else if choice =? 1 then Again (cpu_usage_screen E st)
    else if choice =? 2 then Again (memory_usage st)
    else if choice =? 3 then Again (top_processes_screen E st)
    else if choice =? 4 then Again (continuous_monitoring st)
    else if choice =? 5 then
      Leave (log (Log "SYSTEM" "User exited normally")
               (show [Out (Print "Exiting System Monitor. Goodbye!")] st))
    else
      Again (show [Out (Print "Invalid choice. Please select 1-5."); Sleep 2]
               st)
  end.

(** The menu loop; [None] when [fuel] passes were not enough. *)
Fixpoint menu_loop (E : setting) (fuel : nat) (st : session) : option ending :=
  match fuel with
  | O => None
  | S fuel' =>
    match menu_pass E st with
    | Again st' => menu_loop E fuel' st'
    | Leave st' =>
      Some (Exit 0 {| console := console st';
                      journal := close_log (journal st');
                      input := input st'; seen := seen st' |})
    | Stuck st' => Some (Hangs st')
    end
  end.

Definition main (E : setting) (argv : list cstring) (stdin : cstring)
  : option ending :=
  let '(l, complaints) := init_log E in
  let st := {| console := complaints;
               journal := write_log (Log "SYSTEM" "System Monitor started") l;
               input := stdin; seen := O |} in
  if (1 <? List.length argv)%nat then
    match parse_arguments E argv st with
    | Exit result st' =>
      Some (Exit result {| console := console st';
                           journal := close_log (journal st');
                           input := input st'; seen := seen st' |})
    | other => Some other
    end
  else menu_loop E (S (List.length stdin)) st.

(** A setting for the examples: the sample host at every look. *)
Definition sample_setting : setting :=
  {| log_opens := true;
     old_log := [Log "SYSTEM" "Session ended - Program terminated normally"];
     host := fun _ => sample_host;
     stack := blank_stats;
     libc_qsort := stable_qsort |}.

(** The same with a host whose /proc and /proc/stat cannot be opened. *)
Definition blind_setting : setting :=
  {| log_opens := true;
     old_log := [];
     host := fun _ => with_proc_dir None (with_proc_stat None sample_host);
     stack := blank_stats;
     libc_qsort := stable_qsort |}.

Definition blank_session : session :=
  {| console := []; journal := {| log_file := true; syslog := [] |};
     input := []; seen := O |}.

(** The log has only grown: the same handle, the old content with entries
    after it, and none at all when the handle is NULL. *)
Definition grown (l l' : logger) : Prop :=
  log_file l' = log_file l /\
  exists added,
    syslog l' = syslog l ++ added /\
    (log_file l = false -> added = []).

Definition INT_MAX : Z := 2 ^ 31 - 1.

(** The states an ending speaks of: the last one, or the one after each
    number of rounds the counter of the loop can hold. *)
Definition reaches (e : ending) (st : session) : Prop :=
  match e with
  | Exit _ st' => st = st'
  | Hangs st' => st = st'
  | Forever rounds => exists k, Z.of_nat k <= INT_MAX /\ st = rounds k
  end.

Definition started : event := Log "SYSTEM" "System Monitor started".

Definition ended : event :=
  Log "SYSTEM" "Session ended - Program terminated normally".

(** The value [parse_arguments] returns, when it returns. *)
Definition code_of (e : ending) : option Z :=
  match e with
  | Exit code _ => Some code
  | _ => None
  end.

Definition goodbye : action := Out (Print "Exiting System Monitor. Goodbye!").

Definition no_line_break (s : cstring) : Prop :=
  all (fun c => negb (is_char NEWLINE c)) s.

Definition is_sign (c : ascii) : bool := is_char MINUS c || is_char PLUS c.

Definition monitor_entry (n : nat) : event :=
  LogCount "MONITOR" "Continuous monitoring - iteration %d" (Z.of_nat n).

(** What one round of the monitoring loop shows. *)
Definition monitor_screen (interval : Z) : list action :=
  [Out (Print "CPU Usage: [Not implemented]");
   Out (Print "Memory Usage: [Not implemented]");
   Sleep interval].

(** * Properties *)

(** ** The format strings of the source *)

Lemma cpu_format_string :
  format_of "%*s %llu %llu %llu %llu %llu %llu %llu %llu" = Some cpu_format.
Proof. reflexivity. Qed.

Lemma stat_format_string :
  format_of
    "%*d %*s %*c %*d %*d %*d %*d %*d %*u %*u %*u %*u %*u %llu %llu"
  = Some stat_format.
Proof. reflexivity. Qed.

(** ** Arithmetic *)

Lemma wrap64_small (z : Z) : in_u64 z -> wrap64 z = z.
Proof.
  unfold in_u64, wrap64, ULLONG_MAX. intros H. apply Z.mod_small. lia.
Qed.

Lemma wrap64_range (z : Z) : in_u64 (wrap64 z).
Proof.
  unfold in_u64, wrap64, ULLONG_MAX.
  pose proof (Z.mod_pos_bound z (2 ^ 64) ltac:(lia)). lia.
Qed.

Lemma percent_zero (t : Z) : (percent 0 t == 0)%Q.
Proof. unfold percent. change (inject_Z 0) with 0%Q. unfold Qdiv. ring. Qed.

Lemma percent_nonneg (d t : Z) : 0 <= d -> 0 < t -> (0 <= percent d t)%Q.
Proof.
  intros Hd Ht. unfold percent.
  apply Qmult_le_0_compat; [| discriminate].
  apply Qle_shift_div_l.
  - change 0%Q with (inject_Z 0). rewrite <- Zlt_Qlt. exact Ht.
  - rewrite Qmult_0_l. change 0%Q with (inject_Z 0). rewrite <- Zle_Qle.
    exact Hd.
Qed.

Lemma percent_sum (a i w s t : Z) :
  t <> 0 -> a + i + w + s = t ->
  (percent a t + percent i t + percent w t + percent s t == 100)%Q.
Proof.
  intros Ht Hsum. unfold percent. subst t.
  rewrite !inject_Z_plus. field.
  rewrite <- !inject_Z_plus. change 0%Q with (inject_Z 0).
  rewrite inject_Z_injective. exact Ht.
Qed.

Section Deltas.
Variables prev curr : CPUStats.
Hypothesis Hprev : snapshot prev.
Hypothesis Hcurr : snapshot curr.
Hypothesis Hmono : non_decreasing prev curr.

Lemma delta_small (f : CPUStats -> Z) :
  in_u64 (f prev) -> in_u64 (f curr) -> f prev <= f curr ->
  wrap64 (f curr - f prev) = f curr - f prev.
Proof.
  intros Hp Hc Hle. apply wrap64_small. unfold in_u64 in *. lia.
Qed.

Lemma active_le_total : forall s, snapshot s -> 0 <= active s <= total s.
Proof.
  intros s [Hu Hn Hs Hi Hw Hq Hsq Hst Ha Ht Hr].
  unfold in_u64 in *. lia.
Qed.

Lemma active_non_decreasing : active prev <= active curr.
Proof.
  destruct Hmono. rewrite (snap_active _ Hprev), (snap_active _ Hcurr). lia.
Qed.

Lemma active_delta_exact :
  wrap64 (active curr - active prev) = active curr - active prev.
Proof.
  apply wrap64_small.
  pose proof (active_le_total _ Hprev). pose proof (active_le_total _ Hcurr).
  pose proof active_non_decreasing.
  pose proof (snap_range _ Hcurr). unfold in_u64 in *. lia.
Qed.

Lemma total_non_decreasing : total prev <= total curr.
Proof.
  pose proof active_non_decreasing. destruct Hmono.
  rewrite (snap_total _ Hprev), (snap_total _ Hcurr). lia.
Qed.

Lemma total_delta_exact :
  wrap64 (total curr - total prev) = total curr - total prev.
Proof.
  apply wrap64_small. pose proof total_non_decreasing.
  pose proof (snap_range _ Hcurr). pose proof (snap_range _ Hprev).
  unfold in_u64 in *. lia.
Qed.

Lemma deltas_add_up :
  (active curr - active prev) + (idle curr - idle prev)
  + (iowait curr - iowait prev) + (steal curr - steal prev)
  = total curr - total prev.
Proof. rewrite (snap_total _ Hprev), (snap_total _ Hcurr). lia. Qed.
End Deltas.

(** ** Scanning *)

Lemma take_while_app p (s rest : cstring) :
  all p s -> stops p rest -> take_while p (s ++ rest) = s.
Proof.
  intros Hs Hr. induction Hs as [| c s Hc Hs IH]; cbn [app take_while].
  - destruct rest as [| c rest]; [reflexivity |]. cbn in *. rewrite Hr.
    reflexivity.
  - rewrite Hc, IH. reflexivity.
Qed.

Lemma drop_while_app p (s rest : cstring) :
  all p s -> stops p rest -> drop_while p (s ++ rest) = rest.
Proof.
  intros Hs Hr. induction Hs as [| c s Hc Hs IH]; cbn [app drop_while].
  - destruct rest as [| c rest]; [reflexivity |]. cbn in *. rewrite Hr.
    reflexivity.
  - rewrite Hc, IH. reflexivity.
Qed.

Lemma drop_while_stops p (s : cstring) : stops p s -> drop_while p s = s.
Proof. intros H. apply (drop_while_app p [] s); [constructor | exact H]. Qed.

Lemma isdigit_not_space c : isdigit c = true -> isspace c = false.
Proof.
  unfold isdigit, isspace. intros H. apply andb_true_iff in H.
  destruct H as [H1 H2]. apply Z.leb_le in H1. apply Z.leb_le in H2.
  apply orb_false_iff. split; [apply Z.eqb_neq; lia |].
  apply andb_false_iff. right. apply Z.leb_gt. lia.
Qed.

Lemma isdigit_not_sign c :
  isdigit c = true -> is_char MINUS c || is_char PLUS c = false.
Proof.
  unfold isdigit, is_char, MINUS, PLUS. intros H. apply andb_true_iff in H.
  destruct H as [H1 H2]. apply Z.leb_le in H1. apply Z.leb_le in H2.
  apply orb_false_iff. split; apply Z.eqb_neq; lia.
Qed.

Lemma read_number_digits (ds rest : cstring) :
  ds <> [] -> all isdigit ds -> stops isdigit rest ->
  read_number (ds ++ rest) = Matched (strtoull false ds) rest.
Proof.
  intros Hne Hds Hrest. destruct ds as [| c ds]; [congruence |].
  pose proof (Forall_inv Hds) as Hc. cbv beta in Hc.
  pose proof (isdigit_not_sign c Hc) as Hsign.
  cbn [app read_number]. rewrite Hsign.
  apply orb_false_iff in Hsign. destruct Hsign as [-> _].
  change (c :: ds ++ rest) with ((c :: ds) ++ rest).
  rewrite take_while_app, drop_while_app by assumption. reflexivity.
Qed.

Lemma scan_one_field (sep ds rest : cstring) fmt done :
  field sep ds -> stops isdigit rest ->
  vfscanf (Blank :: Store_llu :: fmt) (sep ++ ds ++ rest) done
  = vfscanf fmt rest (done ++ [strtoull false ds]).
Proof.
  intros [[_ Hsep] [Hne Hds]] Hrest.
  assert (Hstop : stops isspace (ds ++ rest)).
  { destruct ds as [| c ds]; [congruence |]. cbn.
    apply isdigit_not_space. exact (Forall_inv Hds). }
  cbn [vfscanf read_item]. unfold skip_space.
  rewrite drop_while_app by assumption.
  rewrite drop_while_stops by assumption.
  rewrite read_number_digits by assumption. reflexivity.
Qed.

Lemma fields_stop_digits (fs : list (cstring * cstring)) (tail : cstring) :
  fields_ok fs -> (fs = [] -> stops isdigit tail) ->
  stops isdigit (flat_map field_text fs ++ tail).
Proof.
  intros Hfs Htail. destruct fs as [| [sep ds] fs]; [apply Htail; reflexivity |].
  destruct (Forall_inv Hfs) as [[Hne Hsep] _]. cbn [fst snd] in *.
  destruct sep as [| c sep]; [congruence |].
  cbn. pose proof (Forall_inv Hsep) as Hc. cbv beta in Hc.
  unfold isdigit, isspace in *.
  destruct (code c =? 32) eqn:E.
  - apply Z.eqb_eq in E. rewrite E. reflexivity.
  - cbn [orb] in Hc. apply andb_true_iff in Hc. destruct Hc as [H1 H2].
    apply Z.leb_le in H1. apply Z.leb_le in H2.
    apply andb_false_iff. left. apply Z.leb_gt. lia.
Qed.

Lemma scan_fields (fs : list (cstring * cstring)) : forall n tail done,
  fields_ok fs -> stops isdigit tail ->
  vfscanf (llu_fields (List.length fs + n)) (flat_map field_text fs ++ tail)
    done
  = vfscanf (llu_fields n) tail (done ++ map field_value fs).
Proof.
  induction fs as [| [sep ds] fs IH]; intros n tail done Hfs Htail.
  - cbn. rewrite app_nil_r. reflexivity.
  - pose proof (Forall_inv Hfs) as Hf. pose proof (Forall_inv_tail Hfs) as Hfs'.
    cbn [fst snd] in Hf.
    cbn [List.length Nat.add llu_fields flat_map field_text fst snd map].
    unfold field_text at 1. cbn [fst snd]. rewrite <- !app_assoc.
    rewrite scan_one_field;
      [| exact Hf | apply fields_stop_digits; [exact Hfs' | intros _; exact Htail]].
    rewrite IH by assumption. rewrite <- app_assoc. reflexivity.
Qed.

Lemma scan_label (label rest : cstring) fmt done :
  label_ok label -> stops isgraph rest ->
  vfscanf (Skip conv_s :: fmt) (label ++ rest) done = vfscanf fmt rest done.
Proof.
  intros [Hne Hl] Hrest.
  assert (Hstop : stops isspace (label ++ rest)).
  { destruct label as [| c label]; [congruence |]. cbn.
    pose proof (Forall_inv Hl) as Hc. unfold isgraph in Hc.
    apply negb_true_iff. exact Hc. }
  cbn [vfscanf read_item]. unfold skip_space.
  rewrite drop_while_stops by assumption.
  destruct label as [| c label]; [congruence |].
  change ((c :: label) ++ rest) with (c :: label ++ rest).
  cbv iota. change (c :: label ++ rest) with ((c :: label) ++ rest).
  rewrite drop_while_app by assumption. reflexivity.
Qed.

Lemma skip_space_idempotent (s : cstring) :
  skip_space (skip_space s) = skip_space s.
Proof.
  unfold skip_space. induction s as [| c s IH]; [reflexivity |].
  cbn [drop_while]. destruct (isspace c) eqn:E; [exact IH |].
  cbn [drop_while]. rewrite E. reflexivity.
Qed.

Lemma scan_no_field (tail : cstring) fmt done :
  stops (fun c => isdigit c || is_char MINUS c || is_char PLUS c)
        (skip_space tail) ->
  fst (vfscanf (Blank :: Store_llu :: fmt) tail done) <= count done.
Proof.
  intros Hstop. cbn [vfscanf read_item]. rewrite skip_space_idempotent.
  destruct (skip_space tail) as [| c s] eqn:E; cbn [read_number fst].
  - destruct (count done =? 0) eqn:Z0; cbn [fst]; unfold EOF, count; lia.
  - cbn in Hstop. apply orb_false_iff in Hstop. destruct Hstop as [Hds Hplus].
    apply orb_false_iff in Hds. destruct Hds as [Hd Hminus].
    rewrite Hminus, Hplus. cbn [orb take_while]. rewrite Hd. cbn [fst]. lia.
Qed.

Lemma take_while_all p (s : cstring) : all p (take_while p s).
Proof.
  induction s as [| c s IH]; cbn [take_while]; [constructor |].
  destruct (p c) eqn:E; constructor; assumption.
Qed.

Lemma decimal_from_nonneg (ds : cstring) : forall acc,
  all isdigit ds -> 0 <= acc ->
  0 <= fold_left (fun a c => a * 10 + digit_value c) ds acc.
Proof.
  induction ds as [| c ds IH]; intros acc Hds Hacc; [exact Hacc |].
  cbn [fold_left]. apply IH; [exact (Forall_inv_tail Hds) |].
  pose proof (Forall_inv Hds) as Hc. unfold isdigit, digit_value in *.
  apply andb_true_iff in Hc. destruct Hc as [Hc _]. apply Z.leb_le in Hc.
  lia.
Qed.

Lemma strtoull_range negative ds :
  all isdigit ds -> in_u64 (strtoull negative ds).
Proof.
  intros Hds. unfold strtoull.
  destruct (Z.gtb_spec (decimal ds) ULLONG_MAX) as [G | G].
  - unfold in_u64, ULLONG_MAX. lia.
  - destruct negative; [apply wrap64_range |].
    split; [| exact G]. apply decimal_from_nonneg; [exact Hds | lia].
Qed.

Lemma read_number_range (s : cstring) v rest :
  read_number s = Matched v rest -> in_u64 v.
Proof.
  unfold read_number. destruct s as [| c s]; [discriminate |].
  set (s1 := if is_char MINUS c || is_char PLUS c then s else c :: s).
  pose proof (take_while_all isdigit s1) as Hall.
  destruct (take_while isdigit s1) as [| d ds]; [discriminate |].
  intros H. injection H as <- _. apply strtoull_range. exact Hall.
Qed.

Lemma stores_nonneg fmt : 0 <= stores fmt.
Proof. induction fmt as [| [| c |] fmt IH]; cbn [stores]; lia. Qed.

(** What [vfscanf] returns: the values stored are in range, no more of
    them than the format has %llu directives, and the integer returned is
    their number, or [EOF] when there is none. *)
Lemma vfscanf_returns fmt : forall s done,
  Forall in_u64 done ->
  let r := vfscanf fmt s done in
  Forall in_u64 (snd r) /\
  count (snd r) <= count done + stores fmt /\
  (fst r = count (snd r) \/ fst r = EOF /\ snd r = []).
Proof.
  assert (Hfail : forall done : list Z,
            Forall in_u64 done -> forall k, 0 <= k ->
            let r := ((if count done =? 0 then EOF else count done), done) in
            Forall in_u64 (snd r) /\ count (snd r) <= count done + k /\
            (fst r = count (snd r) \/ fst r = EOF /\ snd r = [])).
  { intros done Hd k Hk. cbn [fst snd]. repeat split; [exact Hd | lia |].
    destruct (Z.eqb_spec (count done) 0) as [E | E]; [right | left; reflexivity].
    split; [reflexivity |]. destruct done; [reflexivity |].
    unfold count in E. cbn [List.length] in E. lia. }
  induction fmt as [| d fmt IH]; intros s done Hd.
  - cbn. repeat split; [exact Hd | lia | left; reflexivity].
  - pose proof (stores_nonneg fmt) as Hs. destruct d as [| c |].
    + cbn [vfscanf stores]. apply IH. exact Hd.
    + cbn [vfscanf stores]. destruct (read_item c s) as [| | v rest].
      * apply Hfail; assumption.
      * cbn [fst snd]. repeat split; [exact Hd | lia | left; reflexivity].
      * apply IH. exact Hd.
    + cbn [vfscanf stores read_item].
      destruct (read_number (skip_space s)) as [| | v rest] eqn:E.
      * apply Hfail; [assumption | lia].
      * cbn [fst snd]. repeat split; [exact Hd | lia | left; reflexivity].
      * assert (Hd' : Forall in_u64 (done ++ [v])).
        { apply Forall_app. split; [exact Hd |]. constructor; [| constructor].
          eapply read_number_range. exact E. }
        destruct (IH rest (done ++ [v]) Hd') as (H1 & H2 & H3).
        repeat split; [exact H1 | | exact H3].
        unfold count in *. rewrite length_app in H2. cbn [List.length] in H2.
        lia.
Qed.

Lemma wrap64_add_l (a b : Z) : wrap64 (wrap64 a + b) = wrap64 (a + b).
Proof. unfold wrap64. apply Zplus_mod_idemp_l. Qed.

(** ** [get_cpu_stats] *)

Lemma get_cpu_stats_scanned w stats fp :
  proc_stat w = Some fp ->
  let r := vfscanf cpu_format fp [] in
  (fst r < 8 -> fst (get_cpu_stats w stats) = -1) /\
  (8 <= fst r ->
   exists s, get_cpu_stats w stats = (0, s) /\ counters s = snd r).
Proof.
  intros Hfp r. subst r. unfold get_cpu_stats, fscanf. rewrite Hfp.
  destruct (vfscanf_returns cpu_format fp [] (Forall_nil _)) as (_ & Hb & Hn).
  destruct (vfscanf cpu_format fp []) as [n vals]. cbn [fst snd] in *.
  split; intros Hlt.
  - destruct (Z.ltb_spec n 8); [reflexivity | lia].
  - destruct (Z.ltb_spec n 8); [lia |].
    destruct Hn as [Hn | [Hn _]]; [| unfold EOF in Hn; lia].
    subst n. unfold count in *. cbn [stores cpu_format List.length] in Hb.
    destruct vals as [| v1 [| v2 [| v3 [| v4 [| v5 [| v6 [| v7 [| v8
      [| v9 vals]]]]]]]]]; cbn [List.length] in *; try lia.
    eexists. split; reflexivity.
Qed.

Lemma get_cpu_stats_result w stats :
  fst (get_cpu_stats w stats) = 0 \/ fst (get_cpu_stats w stats) = -1.
Proof.
  unfold get_cpu_stats, fscanf. destruct (proc_stat w) as [fp |];
    [| right; reflexivity].
  destruct (vfscanf cpu_format fp []) as [n vals].
  destruct (n <? 8); [right | left]; reflexivity.
Qed.

Lemma get_cpu_stats_derived w stats s :
  get_cpu_stats w stats = (0, s) ->
  active s = wrap64 (user s + nice s + system s + irq s + softirq s) /\
  total s = wrap64 (active s + idle s + iowait s + steal s).
Proof.
  unfold get_cpu_stats, fscanf. destruct (proc_stat w) as [fp |];
    [| discriminate].
  destruct (vfscanf cpu_format fp []) as [n vals]. cbv beta iota zeta.
  match goal with
  | |- context [assign ?targets vals stats] =>
    generalize (assign targets vals stats)
  end.
  intros st. destruct (n <? 8); [discriminate |].
  intros H. injection H as <-.
  cbn [active total user nice system idle iowait irq softirq steal
       set_active set_total].
  split.
  - rewrite (wrap64_add_l (user st + nice st) (system st)).
    rewrite (wrap64_add_l (user st + nice st + system st) (irq st)).
    rewrite (wrap64_add_l (user st + nice st + system st + irq st)
               (softirq st)).
    reflexivity.
  - rewrite (wrap64_add_l (_ + idle st) (iowait st)).
    rewrite (wrap64_add_l (_ + idle st + iowait st) (steal st)).
    reflexivity.
Qed.

Lemma get_cpu_stats_range w stats s :
  get_cpu_stats w stats = (0, s) -> Forall in_u64 (counters s).
Proof.
  intros H. destruct (proc_stat w) as [fp |] eqn:Hfp;
    [| unfold get_cpu_stats in H; rewrite Hfp in H; discriminate].
  destruct (get_cpu_stats_scanned w stats fp Hfp) as [Hlt Hge].
  destruct (Z_lt_le_dec (fst (vfscanf cpu_format fp [])) 8) as [L | L].
  - rewrite H in Hlt. specialize (Hlt L). discriminate.
  - destruct (Hge L) as (s' & Hs & Hc). rewrite H in Hs. injection Hs as <-.
    rewrite Hc. apply (vfscanf_returns cpu_format fp [] (Forall_nil _)).
Qed.

Lemma blank_stops_graph (s : cstring) :
  s <> [] -> all isspace s -> forall rest, stops isgraph (s ++ rest).
Proof.
  intros Hne Hs rest. destruct s as [| c s]; [congruence |]. cbn.
  unfold isgraph. rewrite (Forall_inv Hs). reflexivity.
Qed.

Lemma fields_stop_graph (fs : list (cstring * cstring)) (tail : cstring) :
  fields_ok fs -> (fs = [] -> stops isgraph tail) ->
  stops isgraph (flat_map field_text fs ++ tail).
Proof.
  intros Hfs Htail. destruct fs as [| [sep ds] fs];
    [apply Htail; reflexivity |].
  destruct (Forall_inv Hfs) as [[Hne Hsep] _]. cbn [fst snd] in *.
  cbn [flat_map]. unfold field_text at 1. cbn [fst snd].
  rewrite <- !app_assoc. apply blank_stops_graph; assumption.
Qed.

Lemma graph_stop_digit (s : cstring) : stops isgraph s -> stops isdigit s.
Proof.
  destruct s as [| c s]; [trivial |]. cbn. unfold isgraph. intros H.
  apply negb_false_iff in H. destruct (isdigit c) eqn:D; [| reflexivity].
  apply isdigit_not_space in D. congruence.
Qed.

Lemma strtoull_plain (ds : cstring) :
  all isdigit ds -> strtoull false ds = Z.min (decimal ds) ULLONG_MAX.
Proof.
  intros _. unfold strtoull.
  destruct (Z.gtb_spec (decimal ds) ULLONG_MAX); lia.
Qed.

(** C6, as the code has it.  [get_cpu_stats] returns -1 when /proc/stat
    cannot be opened.  On a source that starts with a label followed by
    eight fields of digits, each after white space, it returns 0 and the
    eight counters are the numbers written (a number above 2^64 - 1 is
    read as 2^64 - 1).  On a source with fewer than eight such fields
    followed by no further number it returns -1.  Whenever it returns 0
    the counters are in range, [active] is user + nice + system + irq +
    softirq modulo 2^64 and [total] is active + idle + iowait + steal
    modulo 2^64; if the eight counters add up to at most 2^64 - 1 these
    are the plain sums, and total >= active. *)
Theorem get_cpu_stats_contract (w : world) (stats : CPUStats) :
  (proc_stat w = None -> fst (get_cpu_stats w stats) = -1) /\
  (forall label fs tail,
     proc_stat w = Some (stat_line label fs tail) ->
     label_ok label -> fields_ok fs -> List.length fs = 8%nat ->
     stops isdigit tail ->
     exists s, get_cpu_stats w stats = (0, s) /\
               counters s
               = map (fun f => Z.min (decimal (snd f)) ULLONG_MAX) fs) /\
  (forall label fs tail,
     proc_stat w = Some (stat_line label fs tail) ->
     label_ok label -> fields_ok fs -> (List.length fs < 8)%nat ->
     no_more_fields tail ->
     fst (get_cpu_stats w stats) = -1) /\
  (forall s,
     get_cpu_stats w stats = (0, s) ->
     Forall in_u64 (counters s) /\
     active s = wrap64 (user s + nice s + system s + irq s + softirq s) /\
     total s = wrap64 (active s + idle s + iowait s + steal s) /\
     (user s + nice s + system s + idle s + iowait s + irq s + softirq s
      + steal s <= ULLONG_MAX ->
      snapshot s /\ total s >= active s)).
Proof.
  split; [| split; [| split]].
  - intros Hfp. unfold get_cpu_stats. rewrite Hfp. reflexivity.
  - intros label fs tail Hfp Hl Hfs Hlen Htail.
    destruct (get_cpu_stats_scanned w stats _ Hfp) as [_ Hge].
    unfold stat_line in Hge. change cpu_format
      with (Skip conv_s :: llu_fields (8 + 0)) in Hge.
    rewrite scan_label in Hge;
      [| exact Hl | apply fields_stop_graph; [exact Hfs |]; intros ->;
                    discriminate Hlen].
    rewrite <- Hlen, scan_fields in Hge by assumption.
    cbn [llu_fields vfscanf app fst snd] in Hge.
    destruct Hge as (s & Hs & Hc).
    { unfold count. rewrite length_map, Hlen. cbn. lia. }
    exists s. split; [exact Hs |]. rewrite Hc. apply map_ext_in.
    intros [sep ds] Hin. unfold field_value. cbn [snd].
    apply strtoull_plain. unfold fields_ok in Hfs.
    rewrite Forall_forall in Hfs. apply (field_digits _ _ (Hfs _ Hin)).
  - intros label fs tail Hfp Hl Hfs Hlen [Htail Hnone].
    destruct (get_cpu_stats_scanned w stats _ Hfp) as [Hlt _]. apply Hlt.
    unfold stat_line.
    replace cpu_format
      with (Skip conv_s :: llu_fields (List.length fs + S (7 - List.length fs)))
      by (replace (List.length fs + S (7 - List.length fs))%nat with 8%nat
            by lia; reflexivity).
    rewrite scan_label;
      [| exact Hl | apply fields_stop_graph; [exact Hfs | intros _; exact Htail]].
    rewrite scan_fields; [| exact Hfs | apply graph_stop_digit; exact Htail].
    cbn [llu_fields app].
    pose proof (scan_no_field tail (llu_fields (7 - List.length fs))
                  (map field_value fs) Hnone) as Hle.
    unfold count in *. rewrite length_map in Hle. lia.
  - intros s Hs.
    pose proof (get_cpu_stats_range w stats s Hs) as Hr.
    destruct (get_cpu_stats_derived w stats s Hs) as [Ha Ht].
    split; [exact Hr | split; [exact Ha | split; [exact Ht |]]].
    intros Hsum. unfold counters in Hr.
    repeat (apply Forall_cons_iff in Hr; destruct Hr as [? Hr]).
    unfold in_u64 in *.
    assert (Ea : active s = user s + nice s + system s + irq s + softirq s)
      by (rewrite Ha; apply wrap64_small; unfold in_u64; lia).
    assert (Et : total s = active s + idle s + iowait s + steal s)
      by (rewrite Ht; apply wrap64_small; unfold in_u64; lia).
    split; [constructor; unfold in_u64; try assumption; lia | lia].
Qed.

Lemma get_cpu_stats_contract_witness :
  fst (get_cpu_stats tie_host blank_stats) = -1 /\
  fst (get_cpu_stats short_line_host blank_stats) = -1 /\
  exists s, get_cpu_stats sample_host blank_stats = (0, s) /\
            counters s = [4705; 356; 584; 3699; 23; 23; 10; 0] /\
            snapshot s.
Proof.
  assert (Hfield : forall sep ds,
            sep <> [] -> forallb isspace sep = true ->
            ds <> [] -> forallb isdigit ds = true -> field sep ds).
  { intros sep ds H1 H2 H3 H4. rewrite forallb_forall in H2, H4.
    split; (split; [assumption | apply Forall_forall; assumption]). }
  assert (Hlabel : label_ok (str "cpu"))
    by (split; [discriminate | repeat constructor]).
  split; [| split].
  - apply (get_cpu_stats_contract tie_host blank_stats). reflexivity.
  - apply (get_cpu_stats_contract short_line_host blank_stats)
      with (label := str "cpu")
           (fs := [(str " ", str "1"); (str " ", str "2"); (str " ", str "3")])
           (tail := [newline]).
    + reflexivity.
    + exact Hlabel.
    + repeat (apply Forall_cons;
                [apply Hfield; solve [discriminate | reflexivity] |]).
      apply Forall_nil.
    + cbn. lia.
    + split; reflexivity.
  - destruct (get_cpu_stats_contract sample_host blank_stats)
      as (_ & Hparse & _ & Hderived).
    destruct (Hparse (str "cpu") sample_fields sample_tail) as (s & Hs & Hc).
    + reflexivity.
    + exact Hlabel.
    + repeat (apply Forall_cons;
                [apply Hfield; solve [discriminate | reflexivity] |]).
      apply Forall_nil.
    + reflexivity.
    + reflexivity.
    + assert (Hc' : counters s = [4705; 356; 584; 3699; 23; 23; 10; 0])
        by (rewrite Hc; vm_compute; reflexivity).
      exists s. split; [exact Hs | split; [exact Hc' |]].
      destruct (Hderived s Hs) as (_ & _ & _ & Hsnap).
      apply Hsnap. unfold counters in Hc'.
      injection Hc' as -> -> -> -> -> -> -> ->. unfold ULLONG_MAX. lia.
Defined.

(** C6, as the claim has it, fails: counters that add up to 2^64 are read
    without an error, and the derived total, 0, is below the derived
    active time. *)
Lemma derived_fields_wrap_around :
  exists s, get_cpu_stats saturated_host blank_stats = (0, s) /\
            total s < active s /\
            total s <> active s + idle s + iowait s + steal s.
Proof.
  eexists. split; [reflexivity |]. vm_compute. split; [reflexivity | discriminate].
Qed.

(** White space between the fields may be a line break: eight numbers
    spread over two lines are read as one record. *)
Remark fields_may_span_lines :
  let w := with_proc_stat
             (Some (str "cpu 1 2 3" ++ [newline] ++ str "4 5 6 7 8"))
             sample_host in
  exists s, get_cpu_stats w blank_stats = (0, s) /\
            counters s = [1; 2; 3; 4; 5; 6; 7; 8].
Proof. eexists. split; reflexivity. Qed.

(** ** CPU utilization *)

Lemma divisor_nonzero (prev curr : CPUStats) :
  divisor (cpu_percentages prev curr) <> 0.
Proof.
  unfold cpu_percentages; simpl.
  destruct (wrap64 (total curr - total prev) =? 0) eqn:E; [lia |].
  apply Z.eqb_neq. exact E.
Qed.

(** C2.  Two snapshots with no counter decreasing and equal totals: the
    divisor that reaches the four divisions is 1, never 0, and the active,
    idle, iowait and steal percentages are all zero. *)
Theorem stalled_clock_all_zero (prev curr : CPUStats) :
  snapshot prev -> snapshot curr -> non_decreasing prev curr ->
  total curr = total prev ->
  let u := cpu_percentages prev curr in
  divisor u = 1 /\ divisor u <> 0 /\
  (usage_percent u == 0)%Q /\ (idle_percent u == 0)%Q /\
  (iowait_percent u == 0)%Q /\ (steal_percent u == 0)%Q.
Proof.
  intros Hp Hc Hm Heq u.
  pose proof (deltas_add_up prev curr Hp Hc) as Hsum.
  pose proof (active_non_decreasing prev curr Hp Hc Hm) as Ha.
  destruct Hm as [_ _ _ Hi Hw _ _ Hs].
  assert (active curr - active prev = 0) as Da by lia.
  assert (idle curr - idle prev = 0) as Di by lia.
  assert (iowait curr - iowait prev = 0) as Dw by lia.
  assert (steal curr - steal prev = 0) as Ds by lia.
  subst u. unfold cpu_percentages.
  rewrite Heq, Z.sub_diag, Da, Di, Dw, Ds. cbn [divisor usage_percent
    idle_percent iowait_percent steal_percent].
  change (wrap64 0) with 0. change (0 =? 0) with true. cbv iota.
  repeat split; try apply percent_zero. lia.
Qed.

Lemma idle_host_snapshot : snapshot idle_host.
Proof. constructor; unfold in_u64, ULLONG_MAX; simpl; lia. Qed.

Lemma busy_host_snapshot : snapshot busy_host.
Proof. constructor; unfold in_u64, ULLONG_MAX; simpl; lia. Qed.

Lemma stalled_clock_all_zero_witness :
  let u := cpu_percentages idle_host idle_host in
  divisor u = 1 /\ divisor u <> 0 /\
  (usage_percent u == 0)%Q /\ (idle_percent u == 0)%Q /\
  (iowait_percent u == 0)%Q /\ (steal_percent u == 0)%Q.
Proof.
  apply (stalled_clock_all_zero idle_host idle_host).
  - exact idle_host_snapshot.
  - exact idle_host_snapshot.
  - constructor; simpl; lia.
  - reflexivity.
Defined.

(** C3.  Two snapshots with no counter decreasing and a larger total: no
    percentage is negative and, as exact rationals, the four of them add up
    to 100. *)
Theorem percentages_sum_to_100 (prev curr : CPUStats) :
  snapshot prev -> snapshot curr -> non_decreasing prev curr ->
  total curr > total prev ->
  let u := cpu_percentages prev curr in
  (0 <= usage_percent u)%Q /\ (0 <= idle_percent u)%Q /\
  (0 <= iowait_percent u)%Q /\ (0 <= steal_percent u)%Q /\
  (usage_percent u + idle_percent u + iowait_percent u + steal_percent u
   == 100)%Q.
Proof.
  intros Hp Hc Hm Hgt u.
  pose proof (deltas_add_up prev curr Hp Hc) as Hsum.
  pose proof (active_non_decreasing prev curr Hp Hc Hm) as Ha.
  pose proof (active_delta_exact prev curr Hp Hc Hm) as Ea.
  pose proof (total_delta_exact prev curr Hp Hc Hm) as Et.
  pose proof (delta_small prev curr idle (snap_idle _ Hp) (snap_idle _ Hc)
                (nd_idle _ _ Hm)) as Ei.
  pose proof (delta_small prev curr iowait (snap_iowait _ Hp)
                (snap_iowait _ Hc) (nd_iowait _ _ Hm)) as Ew.
  pose proof (delta_small prev curr steal (snap_steal _ Hp) (snap_steal _ Hc)
                (nd_steal _ _ Hm)) as Es.
  destruct Hm as [_ _ _ Hi Hw _ _ Hs].
  subst u. unfold cpu_percentages.
  rewrite Ea, Et, Ei, Ew, Es.
  destruct (total curr - total prev =? 0) eqn:E;
    [apply Z.eqb_eq in E; lia |].
  cbn [divisor usage_percent idle_percent iowait_percent steal_percent].
  repeat split; try (apply percent_nonneg; lia).
  apply percent_sum; lia.
Qed.

Lemma percentages_sum_to_100_witness :
  let u := cpu_percentages idle_host busy_host in
  (0 <= usage_percent u)%Q /\ (0 <= idle_percent u)%Q /\
  (0 <= iowait_percent u)%Q /\ (0 <= steal_percent u)%Q /\
  (usage_percent u + idle_percent u + iowait_percent u + steal_percent u
   == 100)%Q.
Proof.
  apply (percentages_sum_to_100 idle_host busy_host).
  - exact idle_host_snapshot.
  - exact busy_host_snapshot.
  - constructor; simpl; lia.
  - simpl; lia.
Defined.

(** ** [read_process_info] *)

Lemma read_process_info_result w pid :
  fst (read_process_info w pid) =
  match pid_stat w pid with
  | None => 0
  | Some fp => if fst (vfscanf stat_format fp []) =? 2 then 1 else 0
  end.
Proof.
  unfold read_process_info, fscanf.
  destruct (pid_stat w pid) as [fp |]; [| reflexivity].
  destruct (vfscanf stat_format fp []) as [n vals]. cbn [fst].
  destruct (n =? 2); reflexivity.
Qed.

Lemma read_process_info_0_or_1 w pid :
  fst (read_process_info w pid) = 0 \/ fst (read_process_info w pid) = 1.
Proof.
  rewrite read_process_info_result.
  destruct (pid_stat w pid) as [fp |]; [| left; reflexivity].
  destruct (_ =? 2); [right | left]; reflexivity.
Qed.

Lemma assign_times_keeps (vals : list Z) (p : ProcessInfo) :
  let q := assign [set_utime; set_stime] vals p in
  pid q = pid p /\ name q = name p.
Proof.
  destruct vals as [| v1 [| v2 vals]]; simpl; split; reflexivity.
Qed.

Lemma read_process_info_pid w p : pid (snd (read_process_info w p)) = p.
Proof.
  unfold read_process_info, fscanf.
  set (proc0 := {| pid := p; name := str "unknown"; utime := 0; stime := 0;
                   total_time := 0 |}).
  set (proc1 := match pid_comm w p with Some _ => _ | None => _ end).
  assert (H1 : pid proc1 = p).
  { subst proc1. destruct (pid_comm w p) as [fp |]; [| reflexivity].
    destruct (fgets 256 fp) as [buf |]; [| reflexivity].
    destruct (_ && _); reflexivity. }
  destruct (pid_stat w p) as [fp |]; [| exact H1].
  destruct (vfscanf stat_format fp []) as [n vals].
  destruct (assign_times_keeps vals proc1) as [Hp _].
  destruct (negb (n =? 2)); cbn [snd]; [| cbn [set_total_time pid]];
    rewrite Hp; exact H1.
Qed.

(** ** The name of a process *)

Lemma plain_inv c text :
  plain (c :: text) ->
  is_char NEWLINE c = false /\ is_char NUL c = false /\ plain text.
Proof.
  intros H. pose proof (Forall_inv H) as Hc. cbv beta in Hc.
  apply andb_true_iff in Hc. destruct Hc as [H1 H2].
  apply negb_true_iff in H1. apply negb_true_iff in H2.
  repeat split; try assumption. exact (Forall_inv_tail H).
Qed.

Lemma read_line_to_newline (text rest : cstring) : forall n,
  plain text -> (List.length text < n)%nat ->
  read_line n (text ++ newline :: rest) = text ++ [newline].
Proof.
  induction text as [| c text IH]; intros n Hp Hn.
  - destruct n as [| n]; [lia | reflexivity].
  - destruct n as [| n]; [cbn in Hn; lia |].
    destruct (plain_inv _ _ Hp) as (Hnl & _ & Hp').
    cbn [app read_line]. rewrite Hnl, IH; [reflexivity | exact Hp' |].
    cbn in Hn. lia.
Qed.

Lemma read_line_whole (text : cstring) : forall n,
  plain text -> (List.length text <= n)%nat -> read_line n text = text.
Proof.
  induction text as [| c text IH]; intros n Hp Hn.
  - destruct n; reflexivity.
  - destruct n as [| n]; [cbn in Hn; lia |].
    destruct (plain_inv _ _ Hp) as (Hnl & _ & Hp').
    cbn [read_line]. rewrite Hnl, IH; [reflexivity | exact Hp' |].
    cbn in Hn. lia.
Qed.

Lemma plain_no_NUL (text : cstring) :
  plain text -> all (fun c => negb (is_char NUL c)) text.
Proof.
  intros Hp. eapply Forall_impl; [| exact Hp]. intros c Hc. cbv beta in *.
  apply andb_true_iff in Hc. apply Hc.
Qed.

Lemma c_str_whole (buf : cstring) :
  all (fun c => negb (is_char NUL c)) buf -> c_str buf = buf.
Proof.
  intros H. unfold c_str. rewrite <- (app_nil_r buf) at 1.
  apply take_while_app; [exact H | exact I].
Qed.

Lemma name_read_comm w pid :
  name_read w pid =
  match pid_comm w pid with
  | Some fp =>
    match fgets 256 fp with
    | Some buf =>
      if (0 <? strlen buf)%nat
         && is_char NEWLINE (nth (strlen buf - 1) buf zero_char)
      then firstn (strlen buf - 1) buf
      else c_str buf
    | None => str "unknown"
    end
  | None => str "unknown"
  end.
Proof.
  unfold name_read, read_process_info, fscanf.
  set (proc1 := match pid_comm w pid with Some _ => _ | None => _ end).
  assert (H1 : name proc1 =
    match pid_comm w pid with
    | Some fp =>
      match fgets 256 fp with
      | Some buf =>
        if (0 <? strlen buf)%nat
           && is_char NEWLINE (nth (strlen buf - 1) buf zero_char)
        then firstn (strlen buf - 1) buf
        else c_str buf
      | None => str "unknown"
      end
    | None => str "unknown"
    end).
  { subst proc1. destruct (pid_comm w pid) as [fp |]; [| reflexivity].
    destruct (fgets 256 fp) as [buf |]; [| reflexivity].
    destruct (_ && _); reflexivity. }
  rewrite <- H1. destruct (pid_stat w pid) as [fp |]; [| reflexivity].
  destruct (vfscanf stat_format fp []) as [n vals].
  destruct (assign_times_keeps vals proc1) as [_ Hn].
  destruct (negb (n =? 2)); cbn [snd]; [| cbn [set_total_time name]];
    exact Hn.
Qed.

Lemma stat_fields_at_most_2 (fp : cstring) :
  fst (vfscanf stat_format fp []) <= 2.
Proof.
  destruct (vfscanf_returns stat_format fp [] (Forall_nil _))
    as (_ & Hb & [Hn | [Hn _]]); rewrite Hn.
  - exact Hb.
  - unfold EOF. lia.
Qed.

Lemma read_fails_iff w pid :
  fst (read_process_info w pid) = 0 <-> record_unreadable w pid.
Proof.
  unfold record_unreadable. rewrite read_process_info_result.
  destruct (pid_stat w pid) as [fp |].
  - pose proof (stat_fields_at_most_2 fp) as Hle.
    destruct (Z.eqb_spec (fst (vfscanf stat_format fp [])) 2) as [E | E].
    + split; [discriminate |]. intros [Hn | (fp' & Hfp & E')];
        [discriminate |]. injection Hfp as <-. lia.
    + split; [| reflexivity]. intros _. right. exists fp.
      split; [reflexivity | lia].
  - split; [intros _; left |]; reflexivity.
Qed.

(** C7.  The name is the literal "unknown" when the name source cannot be
    opened, and the line read from it without its trailing newline when it
    can.  The value returned depends on the accounting record alone: it is
    1 exactly when the record opens and two tick counts are scanned from
    it, and 0 exactly when the record cannot be opened or fewer than two
    are scanned. *)
Theorem name_source_never_fails_the_read (w : world) (pid : Z) :
  (pid_comm w pid = None -> name_read w pid = str "unknown") /\
  (forall text rest,
     pid_comm w pid = Some (text ++ newline :: rest) ->
     plain text -> (List.length text < 255)%nat ->
     name_read w pid = text) /\
  (forall text,
     pid_comm w pid = Some text ->
     text <> [] -> plain text -> (List.length text <= 255)%nat ->
     name_read w pid = text) /\
  (fst (read_process_info w pid) = 1 <->
   exists fp, pid_stat w pid = Some fp /\
              fst (vfscanf stat_format fp []) = 2) /\
  (fst (read_process_info w pid) = 0 <-> record_unreadable w pid) /\
  (forall w', pid_stat w' pid = pid_stat w pid ->
              fst (read_process_info w' pid) = fst (read_process_info w pid)).
Proof.
  split; [| split; [| split; [| split; [| split]]]].
  - intros Hc. rewrite name_read_comm, Hc. reflexivity.
  - intros text rest Hc Hp Hlen. rewrite name_read_comm, Hc.
    assert (Hbuf : fgets 256 (text ++ newline :: rest)
                   = Some (text ++ [newline])).
    { unfold fgets. destruct (text ++ newline :: rest) eqn:E;
        [destruct text; discriminate |].
      rewrite <- E. f_equal. apply read_line_to_newline; [exact Hp |].
      cbn. lia. }
    rewrite Hbuf.
    assert (Hs : strlen (text ++ [newline]) = S (List.length text)).
    { assert (Hcs : c_str (text ++ [newline]) = text ++ [newline]).
      { apply c_str_whole, Forall_app.
        split; [apply plain_no_NUL; exact Hp | repeat constructor]. }
      unfold strlen. rewrite Hcs, length_app. cbn. lia. }
    rewrite Hs. cbn [Nat.sub]. rewrite Nat.sub_0_r.
    rewrite app_nth2, Nat.sub_diag by lia. cbn [nth].
    change (is_char NEWLINE newline) with true.
    replace (0 <? S (List.length text))%nat with true
      by (symmetry; apply Nat.ltb_lt; lia).
    cbn [andb]. rewrite firstn_app, Nat.sub_diag, firstn_all. cbn [firstn].
    apply app_nil_r.
  - intros text Hc Hne Hp Hlen. rewrite name_read_comm, Hc.
    assert (Hbuf : fgets 256 text = Some text).
    { unfold fgets. destruct text as [| c t]; [congruence |].
      f_equal. apply read_line_whole; [exact Hp | cbn in *; lia]. }
    rewrite Hbuf.
    assert (Hcs : c_str text = text)
      by (apply c_str_whole, plain_no_NUL; exact Hp).
    unfold strlen. rewrite Hcs.
    assert (Hlast : is_char NEWLINE
                      (nth (List.length text - 1) text zero_char) = false).
    { assert (Hin : In (nth (List.length text - 1) text zero_char) text).
      { apply nth_In. destruct text; [congruence | cbn; lia]. }
      unfold plain, all in Hp. rewrite Forall_forall in Hp.
      specialize (Hp _ Hin). apply andb_true_iff in Hp.
      destruct Hp as [Hp _]. apply negb_true_iff in Hp. exact Hp. }
    rewrite Hlast, andb_false_r. reflexivity.
  - rewrite read_process_info_result.
    destruct (pid_stat w pid) as [fp |].
    + destruct (Z.eqb_spec (fst (vfscanf stat_format fp [])) 2) as [E | E].
      * split; [intros _; exists fp; split; [reflexivity | exact E] |
                reflexivity].
      * split; [discriminate |]. intros (fp' & Hfp & E').
        injection Hfp as <-. contradiction.
    + split; [discriminate |]. intros (fp' & Hfp & _). discriminate.
  - apply read_fails_iff.
  - intros w' Hs. rewrite !read_process_info_result, Hs. reflexivity.
Qed.

Lemma name_source_never_fails_the_read_witness :
  name_read sample_host 6 = str "unknown" /\
  fst (read_process_info sample_host 6) = 1 /\
  name_read sample_host 1 = str "systemd" /\
  name_read sample_host 5 = str "Xorg".
Proof.
  destruct (name_source_never_fails_the_read sample_host 6)
    as (Hnone & _ & _ & Hok & _).
  destruct (name_source_never_fails_the_read sample_host 1)
    as (_ & Hline & _).
  destruct (name_source_never_fails_the_read sample_host 5)
    as (_ & _ & Hbare & _).
  assert (Hplain : forall text,
            forallb (fun c => negb (is_char NEWLINE c)
                              && negb (is_char NUL c)) text = true ->
            plain text).
  { intros text H. rewrite forallb_forall in H. apply Forall_forall.
    exact H. }
  split; [apply Hnone; reflexivity | split; [| split]].
  - apply Hok. eexists. split; reflexivity.
  - apply (Hline (str "systemd") []);
      [reflexivity | apply Hplain; reflexivity | cbn; lia].
  - apply (Hbare (str "Xorg"));
      [reflexivity | discriminate | apply Hplain; reflexivity | cbn; lia].
Defined.

(** ** Numeric directory names *)

Lemma all_digits_Forall (s : cstring) :
  all_digits s = true <-> Forall (fun c => isdigit c = true) s.
Proof.
  induction s as [| c s IH]; simpl.
  - split; auto.
  - destruct (isdigit c) eqn:E; simpl.
    + rewrite IH. split; intros H; [constructor; assumption |].
      inversion H; assumption.
    + split; [discriminate |]. intros H. inversion H; congruence.
Qed.

Lemma is_numeric_iff (s : cstring) :
  is_numeric s = true <-> s <> [] /\ Forall (fun c => isdigit c = true) s.
Proof.
  destruct s as [| c s].
  - simpl. split; [discriminate | intros [H _]; congruence].
  - unfold is_numeric. rewrite all_digits_Forall.
    split; [intros H; split; [discriminate | exact H] | intros [_ H]; exact H].
Qed.

(** ** The [readdir] loop, one entry at a time *)

Lemma readdir_loop_other w d entries ps cap :
  is_numeric d = false ->
  readdir_loop w (d :: entries) ps cap = readdir_loop w entries ps cap.
Proof. intros H. simpl. rewrite H. reflexivity. Qed.

Lemma readdir_loop_numeric w d entries ps cap :
  is_numeric d = true ->
  readdir_loop w (d :: entries) ps cap =
  let grow := Z.of_nat (List.length ps) >=? cap in
  let cap' := if grow then cap * 2 else cap in
  if grow && negb (realloc_ok w cap') then (ps, true)
  else readdir_loop w entries (ps ++ attempt w d) cap'.
Proof.
  intros H. simpl. rewrite H. simpl. unfold attempt.
  destruct (_ && _); [reflexivity |].
  destruct (read_process_info w (atoi d)) as [[| r | r] proc];
    rewrite ?app_nil_r; reflexivity.
Qed.

Lemma readdir_loop_filter w entries : forall ps cap,
  readdir_loop w entries ps cap
  = readdir_loop w (filter is_numeric entries) ps cap.
Proof.
  induction entries as [| d entries IH]; intros ps cap; [reflexivity |].
  cbn [filter]. destruct (is_numeric d) eqn:E.
  - rewrite !readdir_loop_numeric by exact E. cbv zeta.
    destruct (_ && _); [reflexivity | apply IH].
  - rewrite readdir_loop_other by exact E. apply IH.
Qed.

Lemma read_process_info_host w d pid :
  read_process_info (with_proc_dir d w) pid = read_process_info w pid.
Proof. reflexivity. Qed.

Lemma readdir_loop_host w d entries : forall ps cap,
  readdir_loop (with_proc_dir d w) entries ps cap
  = readdir_loop w entries ps cap.
Proof.
  induction entries as [| e entries IH]; intros ps cap; [reflexivity |].
  simpl. rewrite read_process_info_host.
  destruct (negb (is_numeric e)); [apply IH |].
  destruct (_ && _); [reflexivity |].
  destruct (read_process_info w (atoi e)) as [[| r | r] proc]; apply IH.
Qed.

(** The loop left without [break] has gathered every successful read. *)
Lemma readdir_loop_complete w entries : forall ps cap,
  snd (readdir_loop w entries ps cap) = false ->
  fst (readdir_loop w entries ps cap) = ps ++ successful_reads w entries.
Proof.
  induction entries as [| d entries IH]; intros ps cap Hb.
  - simpl. rewrite app_nil_r. reflexivity.
  - unfold successful_reads. cbn [flat_map]. fold (successful_reads w entries).
    destruct (is_numeric d) eqn:E.
    + rewrite readdir_loop_numeric in * by exact E. cbv zeta in *.
      destruct (_ && _); [discriminate |].
      rewrite IH by exact Hb. rewrite app_assoc. reflexivity.
    + rewrite readdir_loop_other in * by exact E. apply IH. exact Hb.
Qed.

(** The loop left by [break] stopped in front of a numeric entry, with a
    full array, after it went through the entries before that one without
    leaving. *)
Lemma readdir_loop_broken w entries : forall ps cap,
  0 < cap ->
  snd (readdir_loop w entries ps cap) = true ->
  exists pre d post,
    entries = pre ++ d :: post /\ is_numeric d = true /\
    fst (readdir_loop w entries ps cap) = ps ++ successful_reads w pre /\
    readdir_loop w pre ps cap = (ps ++ successful_reads w pre, false) /\
    cap <= Z.of_nat (List.length (ps ++ successful_reads w pre)) /\
    exists c, realloc_ok w c = false.
Proof.
  assert (Hcons : forall d pre, successful_reads w (d :: pre)
            = (if is_numeric d then attempt w d else [])
              ++ successful_reads w pre) by reflexivity.
  induction entries as [| d entries IH]; intros ps cap Hpos Hb;
    [discriminate |].
  destruct (is_numeric d) eqn:E.
  - rewrite readdir_loop_numeric in * by exact E. cbv zeta in *.
    destruct (Z.of_nat (List.length ps) >=? cap) eqn:G.
    + destruct (realloc_ok w (cap * 2)) eqn:R; cbn [andb negb] in *.
      * destruct (IH _ (cap * 2) ltac:(lia) Hb)
          as (pre & d' & post & -> & Hd & Hf & Hl & Hc & Hx).
        exists (d :: pre), d', post.
        rewrite readdir_loop_numeric by exact E. cbv zeta.
        rewrite G, R. cbn [andb negb]. rewrite Hcons, E, app_assoc.
        repeat split; auto. lia.
      * exists [], d, entries. cbn [successful_reads flat_map fst].
        rewrite app_nil_r. repeat split; auto.
        -- apply Z.geb_le in G. lia.
        -- exists (cap * 2). exact R.
    + cbn [andb] in *.
      destruct (IH _ _ Hpos Hb)
        as (pre & d' & post & -> & Hd & Hf & Hl & Hc & Hx).
      exists (d :: pre), d', post.
      rewrite readdir_loop_numeric by exact E. cbv zeta.
      rewrite G. cbn [andb]. rewrite Hcons, E, app_assoc.
      repeat split; auto.
  - rewrite readdir_loop_other in * by exact E.
    destruct (IH _ _ Hpos Hb)
      as (pre & d' & post & -> & Hd & Hf & Hl & Hc & Hx).
    exists (d :: pre), d', post.
    rewrite readdir_loop_other by exact E.
    rewrite Hcons, E. repeat split; auto.
Qed.

(** An allocator that never refuses: the loop is never left by [break]. *)
Lemma readdir_loop_unbroken w entries : forall ps cap,
  (forall c, realloc_ok w c = true) ->
  snd (readdir_loop w entries ps cap) = false.
Proof.
  induction entries as [| d entries IH]; intros ps cap Hr; [reflexivity |].
  destruct (is_numeric d) eqn:E.
  - rewrite readdir_loop_numeric by exact E. cbv zeta.
    rewrite Hr, andb_false_r. apply IH. exact Hr.
  - rewrite readdir_loop_other by exact E. apply IH. exact Hr.
Qed.

Lemma attempt_length w d : (List.length (attempt w d) <= 1)%nat.
Proof.
  unfold attempt.
  destruct (read_process_info w (atoi d)) as [[| r | r] proc]; simpl; lia.
Qed.

Lemma attempt_failed w d :
  fst (read_process_info w (atoi d)) = 0 -> attempt w d = [].
Proof.
  unfold attempt. destruct (read_process_info w (atoi d)) as [r proc].
  simpl. intros ->. reflexivity.
Qed.

(** A full array and a [realloc] that fails: nothing more is gathered. *)
Lemma readdir_loop_refused w entries : forall ps cap,
  Z.of_nat (List.length ps) >= cap -> realloc_ok w (cap * 2) = false ->
  fst (readdir_loop w entries ps cap) = ps.
Proof.
  induction entries as [| d entries IH]; intros ps cap Hfull Hr;
    [reflexivity |].
  destruct (is_numeric d) eqn:E.
  - rewrite readdir_loop_numeric by exact E. cbv zeta.
    destruct (Z.geb_spec (Z.of_nat (List.length ps)) cap) as [_ | G];
      [| lia].
    rewrite Hr. reflexivity.
  - rewrite readdir_loop_other by exact E. apply IH; assumption.
Qed.

(** A full array and a [realloc] that succeeds: growing now or at the next
    numeric entry makes no difference. *)
Lemma readdir_loop_grown w entries : forall ps cap,
  Z.of_nat (List.length ps) = cap -> 0 < cap ->
  realloc_ok w (cap * 2) = true ->
  readdir_loop w entries ps (cap * 2) = readdir_loop w entries ps cap.
Proof.
  induction entries as [| d entries IH]; intros ps cap Hfull Hpos Hr;
    [reflexivity |].
  destruct (is_numeric d) eqn:E.
  - rewrite !readdir_loop_numeric by exact E. cbv zeta.
    destruct (Z.geb_spec (Z.of_nat (List.length ps)) (cap * 2)) as [G | _];
      [lia |].
    destruct (Z.geb_spec (Z.of_nat (List.length ps)) cap) as [_ | G];
      [| lia].
    rewrite Hr. reflexivity.
  - rewrite !readdir_loop_other by exact E. apply IH; assumption.
Qed.

(** An entry whose read fails leaves the gathered samples as they are
    without it. *)
Lemma readdir_loop_skips_failed w e post : forall pre ps cap,
  Z.of_nat (List.length ps) <= cap -> 0 < cap ->
  is_numeric e = true -> attempt w e = [] ->
  fst (readdir_loop w (pre ++ e :: post) ps cap)
  = fst (readdir_loop w (pre ++ post) ps cap).
Proof.
  induction pre as [| d pre IH]; intros ps cap Hlen Hpos He Hfail.
  - cbn [app]. rewrite readdir_loop_numeric by exact He. cbv zeta.
    rewrite Hfail, app_nil_r.
    destruct (Z.geb_spec (Z.of_nat (List.length ps)) cap) as [G | G].
    + destruct (realloc_ok w (cap * 2)) eqn:R; cbn [andb negb].
      * rewrite readdir_loop_grown by (try assumption; lia). reflexivity.
      * rewrite readdir_loop_refused by (try assumption; lia). reflexivity.
    + reflexivity.
  - cbn [app]. destruct (is_numeric d) eqn:E.
    + rewrite !readdir_loop_numeric by exact E. cbv zeta.
      pose proof (attempt_length w d) as Ha.
      destruct (Z.geb_spec (Z.of_nat (List.length ps)) cap) as [G | G].
      * destruct (realloc_ok w (cap * 2)); cbn [andb negb];
          [| reflexivity].
        apply IH; try assumption; [rewrite length_app |]; lia.
      * cbn [andb]. apply IH; try assumption. rewrite length_app. lia.
    + rewrite !readdir_loop_other by exact E. apply IH; assumption.
Qed.

(** Whatever way the loop is left, it holds the successful reads of an
    initial segment of the listing. *)
Lemma readdir_loop_prefix w entries ps cap :
  0 < cap ->
  exists pre post,
    entries = pre ++ post /\
    fst (readdir_loop w entries ps cap) = ps ++ successful_reads w pre.
Proof.
  intros Hpos. destruct (snd (readdir_loop w entries ps cap)) eqn:B.
  - destruct (readdir_loop_broken w entries ps cap Hpos B)
      as (pre & d & post & He & _ & Hf & _ & _ & _).
    exists pre, (d :: post). split; assumption.
  - exists entries, []. rewrite app_nil_r. split; [reflexivity |].
    apply readdir_loop_complete. exact B.
Qed.

Lemma collected_prefix w entries :
  exists pre post,
    entries = pre ++ post /\ collected w entries = successful_reads w pre.
Proof.
  destruct (readdir_loop_prefix w entries [] 100 ltac:(lia))
    as (pre & post & He & Hf).
  exists pre, post. split; assumption.
Qed.

(** ** Where the gathered samples come from *)

Lemma attempt_In w d p :
  In p (attempt w d) -> read_process_info w (atoi d) = (1, p).
Proof.
  unfold attempt. pose proof (read_process_info_0_or_1 w (atoi d)) as H.
  destruct (read_process_info w (atoi d)) as [r proc]. cbn [fst] in H.
  destruct H as [-> | ->]; [intros [] |].
  intros [-> | []]. reflexivity.
Qed.

Lemma successful_reads_In w entries p :
  In p (successful_reads w entries) ->
  exists d, In d entries /\ is_numeric d = true /\
            read_process_info w (atoi d) = (1, p).
Proof.
  unfold successful_reads. rewrite in_flat_map. intros (d & Hd & Hp).
  destruct (is_numeric d) eqn:E; [| destruct Hp].
  exists d. repeat split; auto. apply attempt_In. exact Hp.
Qed.

Lemma successful_reads_app w l1 l2 :
  successful_reads w (l1 ++ l2)
  = successful_reads w l1 ++ successful_reads w l2.
Proof. apply flat_map_app. Qed.

Lemma collected_In w entries p :
  In p (collected w entries) ->
  exists d, In d entries /\ is_numeric d = true /\
            read_process_info w (atoi d) = (1, p).
Proof.
  destruct (collected_prefix w entries) as (pre & post & -> & ->).
  intros H. destruct (successful_reads_In _ _ _ H) as (d & Hd & Hn & Hr).
  exists d. repeat split; auto. apply in_or_app. left. exact Hd.
Qed.

(** ** Sorting *)

Lemma compare_processes_le a b :
  compare_processes a b <= 0 <-> total_time b <= total_time a.
Proof.
  unfold compare_processes.
  destruct (Z.gtb_spec (total_time b) (total_time a));
    destruct (Z.ltb_spec (total_time b) (total_time a)); lia.
Qed.

Lemma compare_processes_consistent : consistent compare_processes.
Proof.
  split.
  - intros a b. rewrite compare_processes_le. unfold compare_processes.
    destruct (Z.gtb_spec (total_time a) (total_time b));
      destruct (Z.ltb_spec (total_time a) (total_time b)); lia.
  - intros a b c. rewrite !compare_processes_le. lia.
Qed.

Lemma ascending_descending l : ascending compare_processes l -> descending l.
Proof.
  unfold ascending, descending. induction 1 as [| a l Hs IH Hall];
    constructor; [exact IH |].
  eapply Forall_impl; [| exact Hall].
  intros b Hb. cbv beta in Hb. apply compare_processes_le in Hb. lia.
Qed.

Lemma firstn_incl {A : Type} (n : nat) (l : list A) (x : A) :
  In x (firstn n l) -> In x l.
Proof.
  intros H. rewrite <- (firstn_skipn n l). apply in_or_app. left. exact H.
Qed.

Lemma StronglySorted_firstn {A : Type} (R : A -> A -> Prop) (n : nat) :
  forall l, StronglySorted R l -> StronglySorted R (firstn n l).
Proof.
  induction n as [| n IH]; intros l Hs; [constructor |].
  destruct l as [| a l]; [constructor |].
  apply StronglySorted_inv in Hs. destruct Hs as [Hs Hall].
  cbn [firstn]. constructor; [apply IH; exact Hs |].
  rewrite Forall_forall in *. intros b Hb. apply Hall.
  eapply firstn_incl; eassumption.
Qed.

Section InsertionSort.
Context {A : Type}.
Variable compar : A -> A -> Z.
Variable before : A -> A -> bool.

Lemma insert_by_permutes (x : A) (l : list A) :
  Permutation (x :: l) (insert_by before x l).
Proof.
  induction l as [| y l IH]; cbn [insert_by]; [reflexivity |].
  destruct (before x y); [reflexivity |].
  rewrite perm_swap. apply perm_skip. exact IH.
Qed.

Lemma insertion_sort_permutes (l : list A) :
  Permutation l (insertion_sort before l).
Proof.
  induction l as [| x l IH]; [reflexivity |].
  cbn [insertion_sort fold_right]. fold (insertion_sort before l).
  rewrite <- insert_by_permutes. apply perm_skip. exact IH.
Qed.

Hypothesis compar_consistent : consistent compar.
Hypothesis before_sound : forall x y, before x y = true -> compar x y <= 0.
Hypothesis before_complete :
  forall x y, before x y = false -> compar y x <= 0.

Lemma insert_by_ascending (x : A) (l : list A) :
  ascending compar l -> ascending compar (insert_by before x l).
Proof.
  unfold ascending. destruct compar_consistent as [_ Htrans].
  induction 1 as [| y l Hs IH Hall]; cbn [insert_by].
  - constructor; constructor.
  - destruct (before x y) eqn:B.
    + constructor; [constructor; assumption |].
      constructor; [apply before_sound; exact B |].
      eapply Forall_impl; [| exact Hall]. intros z Hz. cbv beta in *.
      eapply Htrans; [apply before_sound; exact B | exact Hz].
    + constructor; [exact IH |].
      eapply Permutation_Forall; [apply insert_by_permutes |].
      constructor; [apply before_complete; exact B | exact Hall].
Qed.

Lemma insertion_sort_ascending (l : list A) :
  ascending compar (insertion_sort before l).
Proof.
  induction l as [| x l IH]; [constructor |].
  cbn [insertion_sort fold_right]. apply insert_by_ascending. exact IH.
Qed.
End InsertionSort.

Lemma stable_sort_ascending {A : Type} (base : list A) compar :
  consistent compar -> ascending compar (stable_sort base compar).
Proof.
  intros Hc. apply insertion_sort_ascending; [exact Hc | |].
  - intros x y H. apply Z.leb_le. exact H.
  - intros x y H. apply Z.leb_gt in H. destruct Hc as [Hsign _].
    apply Hsign. lia.
Qed.

Lemma reversing_sort_ascending {A : Type} (base : list A) compar :
  consistent compar -> ascending compar (reversing_sort base compar).
Proof.
  intros Hc. apply insertion_sort_ascending; [exact Hc | |].
  - intros x y H. apply Z.ltb_lt in H. lia.
  - intros x y H. apply Z.ltb_ge in H. destruct Hc as [Hsign _].
    apply Hsign. exact H.
Qed.

#[export] Instance stable_qsort_laws : QsortLaws stable_qsort.
Proof.
  split.
  - intros A base compar. apply insertion_sort_permutes.
  - intros A base compar. apply stable_sort_ascending.
Qed.

#[export] Instance reversing_qsort_laws : QsortLaws reversing_qsort.
Proof.
  split.
  - intros A base compar. apply insertion_sort_permutes.
  - intros A base compar. apply reversing_sort_ascending.
Qed.

Section AnyQsort.
Context {Q : Qsort} {Laws : QsortLaws Q}.

Lemma qsort_length {A : Type} (base : list A) compar :
  List.length (qsort base compar) = List.length base.
Proof. symmetry. apply Permutation_length. apply qsort_rearranges. Qed.

Lemma qsort_In {A : Type} (base : list A) compar (x : A) :
  In x (qsort base compar) <-> In x base.
Proof.
  split; apply Permutation_in;
    [symmetry |]; apply qsort_rearranges.
Qed.

Lemma qsort_descending (ps : list ProcessInfo) :
  descending (qsort ps compare_processes).
Proof.
  apply ascending_descending, qsort_ascending.
  exact compare_processes_consistent.
Qed.

Lemma display_count_rows (ps : list ProcessInfo) :
  let proc_count := Z.of_nat (List.length ps) in
  let display_count := if proc_count <? 5 then proc_count else 5 in
  firstn (Z.to_nat display_count) (qsort ps compare_processes) = ranking ps.
Proof.
  cbv zeta. unfold ranking.
  destruct (Z.ltb_spec (Z.of_nat (List.length ps)) 5) as [L | L];
    [| reflexivity].
  rewrite Nat2Z.id, !firstn_all2; [reflexivity | |];
    rewrite qsort_length; lia.
Qed.

(** The output of [top_processes] once the array is allocated and /proc
    is open. *)
Lemma top_processes_listing (w : world) (entries : list cstring) :
  malloc_ok w = true -> proc_dir w = Some entries ->
  top_processes w =
  (if snd (readdir_loop w entries [] 100)
   then [Print "Error: Memory reallocation failed"] else []) ++
  match collected w entries with
  | [] => [Print "No processes found"]
  | ps => map Row (ranking ps) ++
          [LogCount "MENU" "Top 5 Processes viewed (%d processes found)"
             (Z.of_nat (List.length ps))]
  end.
Proof.
  intros Hm Hd. unfold top_processes, collected. rewrite Hm, Hd.
  cbn [negb]. destruct (readdir_loop w entries [] 100) as [ps broke].
  cbn [fst snd]. f_equal.
  destruct ps as [| p ps]; [reflexivity |].
  destruct (Z.eqb_spec (Z.of_nat (List.length (p :: ps))) 0) as [E | _];
    [cbn [List.length] in E; lia |].
  rewrite display_count_rows. reflexivity.
Qed.

Lemma rows_app (out1 out2 : list event) :
  rows (out1 ++ out2) = rows out1 ++ rows out2.
Proof. apply flat_map_app. Qed.

Lemma rows_listing (ps : list ProcessInfo) (mode details : string) (n : Z) :
  rows (map Row ps ++ [LogCount mode details n]) = ps.
Proof.
  unfold rows. rewrite flat_map_app. cbn [flat_map]. rewrite app_nil_r.
  induction ps as [| p ps IH]; [reflexivity |].
  cbn [map flat_map app]. rewrite IH. reflexivity.
Qed.

Lemma ranking_nil : ranking [] = [].
Proof.
  unfold ranking.
  rewrite (Permutation_nil (qsort_rearranges _ [] compare_processes)).
  reflexivity.
Qed.

Lemma rows_top_processes (w : world) (entries : list cstring) :
  malloc_ok w = true -> proc_dir w = Some entries ->
  rows (top_processes w) = ranking (collected w entries).
Proof.
  intros Hm Hd. rewrite (top_processes_listing w entries Hm Hd).
  rewrite rows_app.
  assert (forall b : bool,
    rows (if b then [Print "Error: Memory reallocation failed"] else [])
    = []) as -> by (intros []; reflexivity).
  cbn [app]. destruct (collected w entries) as [| p ps] eqn:E.
  - rewrite ranking_nil. reflexivity.
  - apply rows_listing.
Qed.

Lemma hard_failure_listing (w : world) (entries : list cstring) :
  malloc_ok w = true -> proc_dir w = Some entries ->
  hard_failure (top_processes w) = false.
Proof.
  intros Hm Hd. rewrite (top_processes_listing w entries Hm Hd).
  unfold hard_failure. rewrite existsb_app. apply orb_false_iff. split.
  - destruct (snd (readdir_loop w entries [] 100)); reflexivity.
  - destruct (collected w entries) as [| p ps]; [reflexivity |].
    rewrite existsb_app. apply orb_false_iff. split; [| reflexivity].
    induction (ranking (p :: ps)) as [| r rs IH]; [reflexivity | exact IH].
Qed.

Lemma ranking_In (ps : list ProcessInfo) (p : ProcessInfo) :
  In p (ranking ps) -> In p ps.
Proof.
  intros H. apply firstn_incl in H. apply qsort_In in H. exact H.
Qed.

Lemma ranking_length (ps : list ProcessInfo) :
  List.length (ranking ps) = Nat.min 5 (List.length ps).
Proof. unfold ranking. rewrite length_firstn, qsort_length. reflexivity. Qed.
End AnyQsort.

(** ** The process listing *)

Lemma collected_host w d entries :
  collected (with_proc_dir d w) entries = collected w entries.
Proof. unfold collected. rewrite readdir_loop_host. reflexivity. Qed.

(** C1.  A numeric entry whose accounting record cannot be opened, or
    yields fewer than two scanned fields, is passed over and nothing else
    changes: the loop gathers what it gathers when the entry is not in the
    listing, the table is the same, no failure is reported, and every row
    of the table is the sample of another entry, one whose read
    succeeded. *)
Theorem failed_read_skips_that_pid_only (Q : Qsort) (Laws : QsortLaws Q)
  (w : world) (pre : list cstring) (d : cstring) (post : list cstring) :
  malloc_ok w = true ->
  proc_dir w = Some (pre ++ d :: post) ->
  is_numeric d = true ->
  record_unreadable w (atoi d) ->
  collected w (pre ++ d :: post) = collected w (pre ++ post) /\
  rows (top_processes w)
  = rows (top_processes (with_proc_dir (Some (pre ++ post)) w)) /\
  hard_failure (top_processes w) = false /\
  forall p, In p (rows (top_processes w)) ->
    exists d', In d' (pre ++ post) /\ is_numeric d' = true /\
               read_process_info w (atoi d') = (1, p).
Proof.
  intros Hm Hd Hn Hfail.
  assert (Hc : collected w (pre ++ d :: post) = collected w (pre ++ post)).
  { unfold collected. apply readdir_loop_skips_failed;
      [cbn; lia | lia | exact Hn |].
    apply attempt_failed, read_fails_iff. exact Hfail. }
  assert (Hr : rows (top_processes w) = ranking (collected w (pre ++ post))).
  { rewrite (rows_top_processes w _ Hm Hd), Hc. reflexivity. }
  repeat split.
  - exact Hc.
  - rewrite Hr.
    rewrite (rows_top_processes (with_proc_dir (Some (pre ++ post)) w)
               (pre ++ post) Hm eq_refl).
    rewrite collected_host. reflexivity.
  - exact (hard_failure_listing w _ Hm Hd).
  - intros p Hp. rewrite Hr in Hp. apply ranking_In in Hp.
    apply collected_In. exact Hp.
Qed.

Lemma failed_read_skips_that_pid_only_witness :
  let pre := [str "1"; str "self"; str "2"; str "3"] in
  let post := [str "4"; str "1abc"; str "5"; str "8"; str "6"] in
  collected sample_host (pre ++ str "7" :: post)
  = collected sample_host (pre ++ post) /\
  rows (@top_processes stable_qsort sample_host)
  = rows (@top_processes stable_qsort
            (with_proc_dir (Some (pre ++ post)) sample_host)) /\
  hard_failure (@top_processes stable_qsort sample_host) = false /\
  forall p, In p (rows (@top_processes stable_qsort sample_host)) ->
    exists d', In d' (pre ++ post) /\ is_numeric d' = true /\
               read_process_info sample_host (atoi d') = (1, p).
Proof.
  intros pre post.
  apply (failed_read_skips_that_pid_only stable_qsort _ sample_host
           pre (str "7") post); try reflexivity.
  left. reflexivity.
Defined.

(** C5, as the code has it.  [top_processes] gives the operation up, with a
    [perror] line and an ERROR entry in the log, exactly when the initial
    [malloc] fails or /proc cannot be opened.  In every other run it reports
    no failure; when no read succeeds the whole output is the notice
    "No processes found". *)
Theorem hard_failure_exactly (Q : Qsort) (Laws : QsortLaws Q)
  (w : world) :
  (hard_failure (top_processes w) = true
   <-> malloc_ok w = false \/ proc_dir w = None) /\
  (malloc_ok w = false ->
   top_processes w =
   [Perror "Error: Memory allocation failed";
    Log "ERROR" "Memory allocation failed for process array"]) /\
  (malloc_ok w = true -> proc_dir w = None ->
   top_processes w =
   [Perror "Error: Cannot open /proc directory";
    Log "ERROR" "Failed to open /proc directory"]) /\
  (forall entries,
     malloc_ok w = true -> proc_dir w = Some entries ->
     successful_reads w entries = [] ->
     top_processes w = [Print "No processes found"]).
Proof.
  assert (H1 : malloc_ok w = false ->
    top_processes w =
    [Perror "Error: Memory allocation failed";
     Log "ERROR" "Memory allocation failed for process array"]).
  { intros Hm. unfold top_processes. rewrite Hm. reflexivity. }
  assert (H2 : malloc_ok w = true -> proc_dir w = None ->
    top_processes w =
    [Perror "Error: Cannot open /proc directory";
     Log "ERROR" "Failed to open /proc directory"]).
  { intros Hm Hd. unfold top_processes. rewrite Hm, Hd. reflexivity. }
  repeat split; try assumption.
  - intros Hf. destruct (malloc_ok w) eqn:Hm; [| left; reflexivity].
    destruct (proc_dir w) as [entries |] eqn:Hd; [| right; reflexivity].
    rewrite (hard_failure_listing w entries Hm Hd) in Hf. discriminate.
  - intros [Hm | Hd].
    + rewrite (H1 Hm). reflexivity.
    + destruct (malloc_ok w) eqn:Hm.
      * rewrite (H2 eq_refl Hd). reflexivity.
      * rewrite (H1 eq_refl). reflexivity.
  - intros entries Hm Hd Hnone.
    rewrite (top_processes_listing w entries Hm Hd).
    destruct (collected_prefix w entries) as (pre & post & He & Hc).
    rewrite He, successful_reads_app in Hnone.
    apply app_eq_nil in Hnone. destruct Hnone as [Hpre _].
    rewrite Hpre in Hc. rewrite Hc.
    destruct (snd (readdir_loop w entries [] 100)) eqn:B; [| reflexivity].
    destruct (readdir_loop_broken w entries [] 100 ltac:(lia) B)
      as (pre' & d & post' & _ & _ & Hf & _ & Hlen & _).
    fold (collected w entries) in Hf. rewrite Hc in Hf.
    rewrite <- Hf in Hlen. cbn in Hlen. lia.
Qed.

Lemma hard_failure_exactly_witness :
  @top_processes stable_qsort starved_host =
  [Perror "Error: Memory allocation failed";
   Log "ERROR" "Memory allocation failed for process array"].
Proof.
  apply (hard_failure_exactly stable_qsort _ starved_host). reflexivity.
Defined.

(** C5, as the claim has it, fails: on a host whose /proc can be opened but
    whose initial [malloc] fails, the operation is given up with an error. *)
Lemma allocation_failure_is_reported_too :
  proc_dir starved_host <> None /\
  hard_failure (@top_processes stable_qsort starved_host) = true.
Proof. split; [discriminate | reflexivity]. Qed.

Lemma isdigit_decimal_digits (c : ascii) :
  isdigit c = true <-> In c decimal_digits.
Proof.
  assert (E : isdigit c = existsb (Ascii.eqb c) decimal_digits)
    by (destruct c as [[] [] [] [] [] [] [] []]; reflexivity).
  rewrite E, existsb_exists. split.
  - intros (x & Hx & Heq). apply Ascii.eqb_eq in Heq. subst x. exact Hx.
  - intros Hc. exists c. split; [exact Hc | apply Ascii.eqb_refl].
Qed.

Lemma successful_reads_pids w entries :
  (forall d, In d entries -> is_numeric d = true ->
             fst (read_process_info w (atoi d)) = 1) ->
  map pid (successful_reads w entries) = map atoi (filter is_numeric entries).
Proof.
  induction entries as [| d entries IH]; intros Hok; [reflexivity |].
  change (successful_reads w (d :: entries))
    with ((if is_numeric d then attempt w d else [])
          ++ successful_reads w entries).
  cbn [filter]. rewrite map_app, IH by (intros; apply Hok; [right |]; auto).
  destruct (is_numeric d) eqn:E; [| reflexivity].
  cbn [map]. unfold attempt.
  pose proof (Hok d (or_introl eq_refl) E) as H1.
  pose proof (read_process_info_pid w (atoi d)) as Hp.
  destruct (read_process_info w (atoi d)) as [r proc].
  cbn [fst snd] in *. subst r. cbn [map app]. rewrite Hp. reflexivity.
Qed.

(** C8.  [is_numeric] accepts a name exactly when it is a non-empty string
    of decimal digits; it rejects "self" and "1abc" and accepts "12345".
    The listing behaves as if the names it rejects were not in /proc at
    all, and every name it accepts is handed to [read_process_info]: when
    all those reads succeed and the array can grow, the gathered process
    identifiers are the accepted names, in order. *)
Theorem candidates_are_the_numeric_names :
  (forall s, is_numeric s = true
             <-> s <> [] /\ Forall (fun c => In c decimal_digits) s) /\
  is_numeric (str "self") = false /\
  is_numeric (str "1abc") = false /\
  is_numeric (str "12345") = true /\
  (forall (Q : Qsort) w entries,
     proc_dir w = Some entries ->
     top_processes w
     = top_processes (with_proc_dir (Some (filter is_numeric entries)) w)) /\
  (forall w entries,
     (forall c, realloc_ok w c = true) ->
     (forall d, In d entries -> is_numeric d = true ->
                fst (read_process_info w (atoi d)) = 1) ->
     map pid (collected w entries) = map atoi (filter is_numeric entries)).
Proof.
  split; [| split; [| split; [| split; [| split]]]]; try reflexivity.
  - intros s. rewrite is_numeric_iff.
    split; intros [Hne Hall]; (split; [exact Hne |]);
      (eapply Forall_impl; [| exact Hall]); intros c Hc;
      apply isdigit_decimal_digits; exact Hc.
  - intros Q w entries Hd. unfold top_processes.
    change (malloc_ok (with_proc_dir _ w)) with (malloc_ok w).
    change (proc_dir (with_proc_dir (Some (filter is_numeric entries)) w))
      with (Some (filter is_numeric entries)).
    rewrite Hd, readdir_loop_host, <- readdir_loop_filter. reflexivity.
  - intros w entries Hr Hok. unfold collected.
    rewrite readdir_loop_complete by (apply readdir_loop_unbroken; exact Hr).
    cbn [app]. apply successful_reads_pids. exact Hok.
Qed.

Lemma candidates_are_the_numeric_names_witness :
  is_numeric (str "12345") = true /\
  @top_processes stable_qsort sample_host
  = @top_processes stable_qsort
      (with_proc_dir (Some (filter is_numeric sample_entries)) sample_host) /\
  map pid (collected tie_host [str "1"; str "self"; str "2"]) = [1; 2].
Proof.
  destruct candidates_are_the_numeric_names
    as (_ & _ & _ & H12345 & Hfilter & Hall).
  split; [exact H12345 | split].
  - apply (Hfilter stable_qsort sample_host sample_entries). reflexivity.
  - apply (Hall tie_host [str "1"; str "self"; str "2"]).
    + reflexivity.
    + intros d [<- | [<- | [<- | []]]] Hn;
        solve [reflexivity | discriminate Hn].
Defined.

(** C9.  With the array allocated and /proc open, the table has as many
    rows as processes were read when fewer than five were, and five rows
    when five or more were; every row is one of the samples read. *)
Theorem table_length_is_min_of_5_and_reads (Q : Qsort) (Laws : QsortLaws Q)
  (w : world)
  (entries : list cstring) :
  malloc_ok w = true -> proc_dir w = Some entries ->
  let reads := successful_reads w entries in
  let table := rows (top_processes w) in
  ((List.length reads < 5)%nat -> List.length table = List.length reads) /\
  ((5 <= List.length reads)%nat -> List.length table = 5%nat) /\
  (forall p, In p table -> In p reads).
Proof.
  intros Hm Hd reads table. subst reads table.
  rewrite (rows_top_processes w entries Hm Hd).
  assert (Hcase : collected w entries = successful_reads w entries \/
                  (100 <= List.length (collected w entries)
                   <= List.length (successful_reads w entries))%nat).
  { destruct (snd (readdir_loop w entries [] 100)) eqn:B.
    - right.
      destruct (readdir_loop_broken w entries [] 100 ltac:(lia) B)
        as (pre & d & post & -> & _ & Hf & _ & Hlen & _).
      fold (collected w (pre ++ d :: post)) in Hf. cbn [app] in Hf, Hlen.
      rewrite Hf, successful_reads_app, length_app. lia.
    - left. apply (readdir_loop_complete w entries [] 100 B). }
  assert (Hin : forall p, In p (collected w entries) ->
                          In p (successful_reads w entries)).
  { destruct (collected_prefix w entries) as (pre & post & -> & ->).
    intros p Hp. rewrite successful_reads_app. apply in_or_app. left.
    exact Hp. }
  repeat split.
  - intros Hlt. rewrite ranking_length. destruct Hcase as [-> | Hc]; lia.
  - intros Hge. rewrite ranking_length. destruct Hcase as [-> | Hc]; lia.
  - intros p Hp. apply Hin. apply ranking_In in Hp. exact Hp.
Qed.

Lemma table_length_is_min_of_5_and_reads_witness :
  let reads := successful_reads tie_host [str "1"; str "2"] in
  let table := rows (@top_processes stable_qsort tie_host) in
  ((List.length reads < 5)%nat -> List.length table = List.length reads) /\
  ((5 <= List.length reads)%nat -> List.length table = 5%nat) /\
  (forall p, In p table -> In p reads).
Proof.
  apply (table_length_is_min_of_5_and_reads stable_qsort _ tie_host
           [str "1"; str "2"]); reflexivity.
Defined.

(** C10.  When the loop is left by the [break] that follows a failed
    [realloc], it stood in front of a numeric entry with at least one
    hundred samples gathered from the entries before it, and some request
    to the allocator was refused.  The output is one
    diagnostic line on stdout followed by exactly what a complete run over
    those earlier entries alone prints: the five best rows of the sorted
    array and the usual log entry.  No failure is reported. *)
Theorem failed_realloc_lists_what_was_gathered (Q : Qsort) (Laws : QsortLaws Q)
  (w : world)
  (entries : list cstring) :
  malloc_ok w = true -> proc_dir w = Some entries ->
  snd (readdir_loop w entries [] 100) = true ->
  exists pre d post,
    entries = pre ++ d :: post /\ is_numeric d = true /\
    let gathered := successful_reads w pre in
    (100 <= List.length gathered)%nat /\
    (exists c, realloc_ok w c = false) /\
    collected w entries = gathered /\
    top_processes w =
    Print "Error: Memory reallocation failed" ::
    map Row (ranking gathered) ++
    [LogCount "MENU" "Top 5 Processes viewed (%d processes found)"
       (Z.of_nat (List.length gathered))] /\
    top_processes w =
    Print "Error: Memory reallocation failed" ::
    top_processes (with_proc_dir (Some pre) w) /\
    List.length (rows (top_processes w)) = 5%nat /\
    hard_failure (top_processes w) = false.
Proof.
  intros Hm Hd B.
  destruct (readdir_loop_broken w entries [] 100 ltac:(lia) B)
    as (pre & d & post & He & Hn & Hf & Hpre & Hlen & Hx).
  cbn [app] in Hf, Hpre, Hlen. fold (collected w entries) in Hf.
  exists pre, d, post. split; [exact He | split; [exact Hn |]].
  cbv zeta.
  assert (Hout : top_processes w =
    Print "Error: Memory reallocation failed" ::
    map Row (ranking (successful_reads w pre)) ++
    [LogCount "MENU" "Top 5 Processes viewed (%d processes found)"
       (Z.of_nat (List.length (successful_reads w pre)))]).
  { rewrite (top_processes_listing w entries Hm Hd), B, Hf.
    destruct (successful_reads w pre) as [| p ps]; [cbn in Hlen; lia |].
    reflexivity. }
  split; [lia | split; [exact Hx |]].
  repeat split.
  - exact Hf.
  - exact Hout.
  - rewrite Hout. f_equal.
    rewrite (top_processes_listing (with_proc_dir (Some pre) w) pre Hm
               eq_refl).
    rewrite collected_host, readdir_loop_host. unfold collected.
    rewrite Hpre. cbn [fst snd app].
    destruct (successful_reads w pre) as [| p ps]; [cbn in Hlen; lia |].
    reflexivity.
  - rewrite (rows_top_processes w entries Hm Hd), Hf, ranking_length. lia.
  - exact (hard_failure_listing w entries Hm Hd).
Qed.

Lemma failed_realloc_lists_what_was_gathered_witness :
  exists pre d post,
    crowded_entries = pre ++ d :: post /\ is_numeric d = true /\
    let gathered := successful_reads crowded_host pre in
    (100 <= List.length gathered)%nat /\
    (exists c, realloc_ok crowded_host c = false) /\
    collected crowded_host crowded_entries = gathered /\
    @top_processes stable_qsort crowded_host =
    Print "Error: Memory reallocation failed" ::
    map Row (@ranking stable_qsort gathered) ++
    [LogCount "MENU" "Top 5 Processes viewed (%d processes found)"
       (Z.of_nat (List.length gathered))] /\
    @top_processes stable_qsort crowded_host =
    Print "Error: Memory reallocation failed" ::
    @top_processes stable_qsort (with_proc_dir (Some pre) crowded_host) /\
    List.length (rows (@top_processes stable_qsort crowded_host)) = 5%nat /\
    hard_failure (@top_processes stable_qsort crowded_host) = false.
Proof.
  apply (failed_realloc_lists_what_was_gathered stable_qsort _ crowded_host
           crowded_entries); vm_compute; reflexivity.
Defined.

(** ** The order of the table *)

Lemma descending_ticks (l : list ProcessInfo) :
  descending l -> StronglySorted Z.ge (map total_time l).
Proof.
  induction 1 as [| a l Hs IH Hall]; cbn [map]; constructor; [exact IH |].
  rewrite Forall_map. exact Hall.
Qed.

(** A list of numbers has one descending arrangement only. *)
Lemma descending_arrangement_unique (l1 : list Z) : forall l2,
  StronglySorted Z.ge l1 -> StronglySorted Z.ge l2 -> Permutation l1 l2 ->
  l1 = l2.
Proof.
  induction l1 as [| a l1 IH]; intros l2 H1 H2 Hp.
  - apply Permutation_nil in Hp. symmetry. exact Hp.
  - destruct l2 as [| b l2];
      [apply Permutation_sym, Permutation_nil in Hp; discriminate |].
    apply StronglySorted_inv in H1. destruct H1 as [H1 Ha].
    apply StronglySorted_inv in H2. destruct H2 as [H2 Hb].
    rewrite Forall_forall in Ha, Hb.
    assert (a = b) as <-.
    { assert (In a (b :: l2)) as [Hab | Hab]
        by (eapply Permutation_in; [exact Hp | left; reflexivity]).
      - symmetry. exact Hab.
      - assert (In b (a :: l1)) as [Hba | Hba]
          by (eapply Permutation_in;
              [apply Permutation_sym; exact Hp | left; reflexivity]).
        + exact Hba.
        + pose proof (Ha _ Hba). pose proof (Hb _ Hab). lia. }
    f_equal. apply IH; try assumption.
    eapply Permutation_cons_inv. exact Hp.
Qed.

Lemma read_process_info_total w p proc :
  read_process_info w p = (1, proc) ->
  total_time proc = wrap64 (utime proc + stime proc).
Proof.
  unfold read_process_info, fscanf.
  destruct (pid_stat w p) as [fp |]; [| discriminate].
  destruct (vfscanf stat_format fp []) as [n vals].
  destruct (negb (n =? 2)); [discriminate |].
  intros H. injection H as <-. reflexivity.
Qed.

(** C4, as the code has it.  The table is in descending order of the
    [total_time] field, which is user plus kernel ticks modulo 2^64; it is
    the first five entries of a rearrangement of the gathered samples; and
    when the gathered samples have total ticks 50, 10, 30, 5, 90, 1 the
    table shows 90, 50, 30, 10, 5, whatever [qsort] the C library has.
    Nothing is promised about the order of equal totals. *)
Theorem table_is_in_descending_order (Q : Qsort) (Laws : QsortLaws Q)
  (w : world) :
  descending (rows (top_processes w)) /\
  (forall p, In p (rows (top_processes w)) ->
             total_time p = wrap64 (utime p + stime p)) /\
  (forall entries,
     malloc_ok w = true -> proc_dir w = Some entries ->
     exists sorted,
       Permutation (collected w entries) sorted /\ descending sorted /\
       rows (top_processes w) = firstn 5 sorted) /\
  (forall entries,
     malloc_ok w = true -> proc_dir w = Some entries ->
     map total_time (collected w entries) = [50; 10; 30; 5; 90; 1] ->
     map total_time (rows (top_processes w)) = [90; 50; 30; 10; 5]).
Proof.
  assert (Hrows : forall entries,
            malloc_ok w = true -> proc_dir w = Some entries ->
            rows (top_processes w) = ranking (collected w entries))
    by (intros; apply rows_top_processes; assumption).
  assert (Hnone : malloc_ok w = false \/ proc_dir w = None ->
                  rows (top_processes w) = []).
  { unfold top_processes. intros [Hm | Hd].
    - rewrite Hm. reflexivity.
    - rewrite Hd. destruct (malloc_ok w); reflexivity. }
  split; [| split; [| split]].
  - destruct (malloc_ok w) eqn:Hm; [| rewrite Hnone by auto; constructor].
    destruct (proc_dir w) as [entries |] eqn:Hd;
      [| rewrite Hnone by auto; constructor].
    rewrite (Hrows entries eq_refl eq_refl).
    apply StronglySorted_firstn, qsort_descending.
  - intros p Hp.
    destruct (malloc_ok w) eqn:Hm; [| rewrite Hnone in Hp by auto; easy].
    destruct (proc_dir w) as [entries |] eqn:Hd;
      [| rewrite Hnone in Hp by auto; easy].
    rewrite (Hrows entries eq_refl eq_refl) in Hp. apply ranking_In in Hp.
    destruct (collected_In w entries p Hp) as (d & _ & _ & Hr).
    eapply read_process_info_total. exact Hr.
  - intros entries Hm Hd.
    exists (qsort (collected w entries) compare_processes).
    split; [apply qsort_rearranges | split; [apply qsort_descending |]].
    apply Hrows; assumption.
  - intros entries Hm Hd Hticks. rewrite (Hrows entries Hm Hd).
    unfold ranking. rewrite <- firstn_map.
    assert (map total_time (qsort (collected w entries) compare_processes)
            = [90; 50; 30; 10; 5; 1]) as ->; [| reflexivity].
    apply descending_arrangement_unique.
    + apply descending_ticks, qsort_descending.
    + repeat (constructor; [| repeat constructor; lia]). constructor.
    + rewrite <- (Permutation_map total_time
                    (qsort_rearranges _ (collected w entries)
                       compare_processes)).
      rewrite Hticks.
      exact (insertion_sort_permutes (fun x y => y <=? x)
               [50; 10; 30; 5; 90; 1]).
Qed.

Lemma table_is_in_descending_order_witness :
  map total_time (collected sample_host sample_entries)
  = [50; 10; 30; 5; 90; 1] /\
  map total_time (rows (@top_processes stable_qsort sample_host))
  = [90; 50; 30; 10; 5].
Proof.
  split; [reflexivity |].
  apply (table_is_in_descending_order stable_qsort _ sample_host)
    with (entries := sample_entries); reflexivity.
Defined.

(** C4, as the claim has it, fails: with a [qsort] that reverses ties, two
    processes of equal total ticks, gathered as 1 then 2, are shown as 2
    then 1. *)
Lemma equal_totals_shown_out_of_order :
  QsortLaws reversing_qsort /\
  map pid (collected tie_host [str "1"; str "2"]) = [1; 2] /\
  map total_time (collected tie_host [str "1"; str "2"]) = [10; 10] /\
  map pid (rows (@top_processes reversing_qsort tie_host)) = [2; 1].
Proof. split; [exact reversing_qsort_laws | repeat split]. Qed.

(** * Further properties *)

(** ** Reading a whole accounting record *)

Lemma number_ok_head (t rest : cstring) :
  number_ok t -> stops isspace (t ++ rest).
Proof.
  intros [[Hne Hds] | (ds & -> & _)].
  - destruct t as [| c t]; [congruence |]. cbn.
    apply isdigit_not_space. exact (Forall_inv Hds).
  - reflexivity.
Qed.

Lemma read_number_token (t rest : cstring) :
  number_ok t -> stops isdigit rest ->
  exists v, read_number (t ++ rest) = Matched v rest.
Proof.
  intros [[Hne Hds] | (ds & -> & Hne & Hds)] Hrest.
  - eexists. apply read_number_digits; assumption.
  - eexists. cbn [app read_number].
    change (is_char MINUS minus_sign) with true. cbn [orb].
    rewrite take_while_app, drop_while_app by assumption.
    destruct ds as [| d ds]; [congruence | reflexivity].
Qed.

Lemma scan_skipped_number (c : conv) (t rest : cstring) fmt done :
  numeric c -> number_ok t -> stops isdigit rest ->
  vfscanf (Skip c :: fmt) (t ++ rest) done = vfscanf fmt rest done.
Proof.
  intros Hc Ht Hrest.
  destruct (read_number_token t rest Ht Hrest) as (v & Hv).
  assert (Hitem : read_item c (t ++ rest) = Matched v rest).
  { destruct Hc as [-> | ->]; cbn [read_item]; unfold skip_space;
      rewrite drop_while_stops by (apply number_ok_head; exact Ht);
      exact Hv. }
  cbn [vfscanf]. rewrite Hitem. reflexivity.
Qed.

Lemma space_stops_digit (s : cstring) : stops isdigit (space :: s).
Proof. reflexivity. Qed.

Lemma scan_blank (s : cstring) fmt done :
  stops isspace s ->
  vfscanf (Blank :: fmt) (space :: s) done = vfscanf fmt s done.
Proof.
  intros Hs. cbn [vfscanf]. unfold skip_space. cbn [drop_while].
  change (isspace space) with true. cbv iota.
  rewrite drop_while_stops by exact Hs. reflexivity.
Qed.

Lemma spaced_cons (t : cstring) (ts : list cstring) (rest : cstring) :
  spaced (t :: ts) ++ rest = space :: t ++ spaced ts ++ rest.
Proof. unfold spaced. cbn [flat_map app]. rewrite <- app_assoc. reflexivity. Qed.

Lemma spaced_stops_digit (ts : list cstring) (rest : cstring) :
  stops isdigit rest -> stops isdigit (spaced ts ++ rest).
Proof. intros H. destruct ts; [exact H | reflexivity]. Qed.

Lemma scan_skipped_numbers (convs : list conv) : forall ts rest fmt done,
  Forall numeric convs -> Forall number_ok ts ->
  List.length ts = List.length convs ->
  stops isdigit rest ->
  vfscanf (skipped_numbers convs ++ fmt) (spaced ts ++ rest) done
  = vfscanf fmt rest done.
Proof.
  induction convs as [| c convs IH]; intros ts rest fmt done Hc Ht Hlen Hrest.
  - destruct ts; [reflexivity | discriminate].
  - destruct ts as [| t ts]; [discriminate |].
    pose proof (Forall_inv Ht) as Ht1.
    rewrite spaced_cons. cbn [skipped_numbers flat_map app].
    rewrite scan_blank by (apply number_ok_head; exact Ht1).
    rewrite scan_skipped_number;
      [| exact (Forall_inv Hc) | exact Ht1
       | apply spaced_stops_digit; exact Hrest].
    apply IH; [exact (Forall_inv_tail Hc) | exact (Forall_inv_tail Ht) | |
               exact Hrest].
    cbn in Hlen. lia.
Qed.

Lemma scan_char (c : ascii) (s : cstring) fmt done :
  vfscanf (Skip conv_c :: fmt) (c :: s) done = vfscanf fmt s done.
Proof. reflexivity. Qed.

Lemma label_ok_head (label rest : cstring) :
  label_ok label -> stops isspace (label ++ rest).
Proof.
  intros [Hne Hall]. destruct label as [| c l]; [congruence |]. cbn.
  pose proof (Forall_inv Hall) as H. unfold isgraph in H.
  apply negb_true_iff. exact H.
Qed.

Lemma scan_stat_record (r : stat_record) :
  stat_record_ok r ->
  vfscanf stat_format (stat_text r) []
  = (2, [strtoull false (sr_utime r); strtoull false (sr_stime r)]).
Proof.
  intros [Hpid Hcomm Hstate [Hls Hs] [Hlu Hu] Hut Hst Hrest].
  assert (Hsp : forall ds, digits_ok ds -> field [space] ds).
  { intros ds Hd.
    split; [split; [discriminate | repeat constructor] | exact Hd]. }
  change stat_format
    with (Skip conv_d :: Blank :: Skip conv_s :: Blank :: Skip conv_c
          :: skipped_numbers [conv_d; conv_d; conv_d; conv_d; conv_d]
          ++ skipped_numbers [conv_u; conv_u; conv_u; conv_u; conv_u]
          ++ llu_fields 2).
  unfold stat_text.
  rewrite scan_skipped_number;
    [| left; reflexivity | left; exact Hpid | reflexivity].
  rewrite scan_blank by (apply label_ok_head; exact Hcomm).
  rewrite scan_label; [| exact Hcomm | reflexivity].
  rewrite scan_blank by (cbn; exact Hstate).
  rewrite scan_char.
  rewrite scan_skipped_numbers;
    [| repeat constructor; left; reflexivity | exact Hs | exact Hls
     | apply spaced_stops_digit; reflexivity].
  rewrite scan_skipped_numbers;
    [| repeat constructor; right; reflexivity | exact Hu | exact Hlu
     | reflexivity].
  cbn [llu_fields].
  change (space :: sr_utime r ++ space :: sr_stime r ++ sr_rest r)
    with ([space] ++ sr_utime r ++ [space] ++ sr_stime r ++ sr_rest r).
  rewrite scan_one_field; [| apply Hsp; exact Hut | reflexivity].
  rewrite scan_one_field; [| apply Hsp; exact Hst | exact Hrest].
  reflexivity.
Qed.

(** X1.  A record with its first fifteen fields in place (a name without
    white space among them) is read in full: [read_process_info] returns 1,
    the user and kernel ticks are the fourteenth and fifteenth fields, each
    cut off at 2^64 - 1, and the total is their sum modulo 2^64. *)
Theorem well_formed_record_is_read (w : world) (p : Z) (r : stat_record) :
  pid_stat w p = Some (stat_text r) -> stat_record_ok r ->
  let ticks ds := Z.min (decimal ds) ULLONG_MAX in
  read_process_info w p =
  (1, {| pid := p;
         name := name_read w p;
         utime := ticks (sr_utime r);
         stime := ticks (sr_stime r);
         total_time := wrap64 (ticks (sr_utime r) + ticks (sr_stime r)) |}).
Proof.
  intros Hstat Hok ticks. subst ticks.
  pose proof (read_process_info_pid w p) as Hpid.
  unfold name_read. revert Hpid.
  unfold read_process_info, fscanf.
  rewrite Hstat, (scan_stat_record r Hok).
  set (proc1 := match pid_comm w p with Some _ => _ | None => _ end).
  cbn [assign set_utime set_stime set_total_time utime stime name pid snd
       negb Z.eqb Pos.eqb].
  unfold set_total_time, set_stime, set_utime.
  cbn [utime stime name pid total_time].
  intros Hpid. rewrite Hpid.
  rewrite !strtoull_plain by (apply Hok). reflexivity.
Qed.

Lemma well_formed_record_is_read_witness :
  read_process_info sample_host 5 =
  (1, {| pid := 5; name := str "Xorg"; utime := 60; stime := 30;
         total_time := 90 |}).
Proof.
  assert (Hd : forall ds,
            ds <> [] -> forallb isdigit ds = true -> digits_ok ds).
  { intros ds H1 H2. split; [exact H1 |]. apply Forall_forall.
    apply forallb_forall. exact H2. }
  assert (Hn : forall ds,
            ds <> [] -> forallb isdigit ds = true -> number_ok ds)
    by (intros; left; apply Hd; assumption).
  apply (well_formed_record_is_read sample_host 5 sample_record).
  - reflexivity.
  - split.
    + apply Hd; [discriminate | reflexivity].
    + split; [discriminate | repeat constructor].
    + reflexivity.
    + split; [reflexivity |].
      repeat (apply Forall_cons; [apply Hn; [discriminate | reflexivity] |]).
      apply Forall_nil.
    + split; [reflexivity |].
      repeat (apply Forall_cons; [apply Hn; [discriminate | reflexivity] |]).
      apply Forall_nil.
    + apply Hd; [discriminate | reflexivity].
    + apply Hd; [discriminate | reflexivity].
    + reflexivity.
Defined.

(** ** A process name with a blank in it *)

Lemma read_number_none (s : cstring) :
  stops (fun c => isdigit c || is_char MINUS c || is_char PLUS c) s ->
  read_number s = InputFailure \/ read_number s = MatchingFailure.
Proof.
  destruct s as [| c s]; [left; reflexivity |]. cbn. intros H.
  apply orb_false_iff in H. destruct H as [H Hplus].
  apply orb_false_iff in H. destruct H as [Hd Hminus].
  right. rewrite Hminus, Hplus. cbn [orb take_while]. rewrite Hd.
  reflexivity.
Qed.

Lemma scan_no_number (c : conv) (s : cstring) fmt :
  numeric c ->
  stops (fun c => isdigit c || is_char MINUS c || is_char PLUS c)
        (skip_space s) ->
  fst (vfscanf (Blank :: Skip c :: fmt) s []) <= 0.
Proof.
  intros Hc Hs. cbn [vfscanf].
  assert (Hitem : read_item c (skip_space s) = InputFailure \/
                  read_item c (skip_space s) = MatchingFailure).
  { destruct Hc as [-> | ->]; cbn [read_item];
      rewrite skip_space_idempotent; apply read_number_none; exact Hs. }
  destruct Hitem as [-> | ->]; unfold EOF, count; cbn; lia.
Qed.

(** X2.  When the second field of the record is followed by one more
    character and then by something that is not a number, as it is when the
    name in parentheses contains a blank, the scan stops before any tick
    count is stored: [read_process_info] returns 0, so the process is left
    out of the table. *)
Theorem blank_in_name_fails_the_read (w : world) (p : Z)
  (pid_field word1 gap : cstring) (c : ascii) (rest : cstring) :
  pid_stat w p = Some (pid_field ++ space :: word1 ++ gap ++ c :: rest) ->
  digits_ok pid_field -> label_ok word1 ->
  gap <> [] -> all isspace gap -> isspace c = false ->
  stops (fun c => isdigit c || is_char MINUS c || is_char PLUS c)
        (skip_space rest) ->
  fst (read_process_info w p) = 0 /\
  forall d_name, atoi d_name = p -> attempt w d_name = [].
Proof.
  intros Hstat Hpid Hword Hne Hgap Hc Hrest.
  assert (H0 : fst (read_process_info w p) = 0).
  { rewrite read_process_info_result, Hstat.
    change stat_format
      with (Skip conv_d :: Blank :: Skip conv_s :: Blank :: Skip conv_c
            :: Blank :: Skip conv_d
            :: skipped_numbers [conv_d; conv_d; conv_d; conv_d]
            ++ skipped_numbers [conv_u; conv_u; conv_u; conv_u; conv_u]
            ++ llu_fields 2).
    rewrite scan_skipped_number;
      [| left; reflexivity | left; exact Hpid | reflexivity].
    rewrite scan_blank by (apply label_ok_head; exact Hword).
    rewrite scan_label;
      [| exact Hword | apply blank_stops_graph; assumption].
    assert (Hskip : forall fmt,
              vfscanf (Blank :: fmt) (gap ++ c :: rest) []
              = vfscanf fmt (c :: rest) []).
    { intros fmt. cbn [vfscanf]. unfold skip_space.
      rewrite drop_while_app; [reflexivity | exact Hgap | exact Hc]. }
    rewrite Hskip, scan_char.
    pose proof (scan_no_number conv_d rest
                  (skipped_numbers [conv_d; conv_d; conv_d; conv_d]
                   ++ skipped_numbers [conv_u; conv_u; conv_u; conv_u; conv_u]
                   ++ llu_fields 2) (or_introl eq_refl) Hrest) as Hle.
    destruct (Z.eqb_spec
                (fst (vfscanf
                        (Blank :: Skip conv_d
                         :: skipped_numbers [conv_d; conv_d; conv_d; conv_d]
                         ++ skipped_numbers
                              [conv_u; conv_u; conv_u; conv_u; conv_u]
                         ++ llu_fields 2) rest [])) 2) as [E | E];
      [lia | reflexivity]. }
  split; [exact H0 |].
  intros d_name <-. apply attempt_failed. exact H0.
Qed.

Lemma blank_in_name_fails_the_read_witness :
  fst (read_process_info tmux_host 1234) = 0 /\
  forall d_name, atoi d_name = 1234 -> attempt tmux_host d_name = [].
Proof.
  apply (blank_in_name_fails_the_read tmux_host 1234
           (str "1234") (str "(tmux:") [space] (ascii_of_nat 115)
           (str "erver) S 1 1234 1234 0 -1 4194304 15 0 0 0 17 9")).
  - reflexivity.
  - split; [discriminate | repeat constructor].
  - split; [discriminate | repeat constructor].
  - discriminate.
  - repeat constructor.
  - reflexivity.
  - reflexivity.
Defined.

(** ** The name, in closed form *)

Lemma name_of_buffer_cons (c : ascii) (buf : cstring) :
  is_char NEWLINE c = false -> is_char NUL c = false ->
  name_of_buffer (c :: buf) = c :: name_of_buffer buf.
Proof.
  intros Hnl Hnul. unfold name_of_buffer, strlen, c_str.
  cbn [take_while]. rewrite Hnul. cbn [negb List.length].
  destruct (List.length (take_while (fun c0 => negb (is_char NUL c0)) buf))
    as [| k'].
  - cbn [Nat.sub nth Nat.ltb Nat.leb andb]. rewrite Hnl. reflexivity.
  - replace (S (S k') - 1)%nat with (S k') by lia.
    replace (S k' - 1)%nat with k' by lia.
    cbn [nth firstn]. change (0 <? S (S k'))%nat with true.
    change (0 <? S k')%nat with true. cbn [andb].
    destruct (is_char NEWLINE (nth k' buf zero_char)); reflexivity.
Qed.

Lemma name_of_line (s : cstring) : forall n,
  name_of_buffer (read_line n s) = take_while plain_char (firstn n s).
Proof.
  induction s as [| c s IH]; intros n.
  - destruct n; reflexivity.
  - destruct n as [| n]; [reflexivity |].
    cbn [read_line firstn take_while]. unfold plain_char at 1.
    destruct (is_char NEWLINE c) eqn:Hnl.
    + cbn [negb andb]. unfold name_of_buffer, strlen, c_str.
      cbn [take_while].
      assert (Hnul : is_char NUL c = false).
      { unfold is_char, NEWLINE, NUL in *. apply Z.eqb_eq in Hnl.
        apply Z.eqb_neq. lia. }
      rewrite Hnul. cbn. rewrite Hnl. reflexivity.
    + cbn [negb andb]. destruct (is_char NUL c) eqn:Hnul.
      * cbn [negb]. unfold name_of_buffer, strlen, c_str.
        cbn [take_while]. rewrite Hnul. reflexivity.
      * cbn [negb]. rewrite name_of_buffer_cons by assumption.
        rewrite IH. reflexivity.
Qed.

Lemma take_while_length p (s : cstring) :
  (List.length (take_while p s) <= List.length s)%nat.
Proof.
  induction s as [| c s IH]; cbn [take_while]; [lia |].
  destruct (p c); cbn [List.length]; lia.
Qed.

(** X3.  The name put into a sample is the literal "unknown" when the name
    source cannot be opened or is empty, and otherwise the longest run of
    characters at the start of the source, among its first 255, that has
    neither a line break nor a NUL.  So a name is never longer than 255
    characters and never holds a line break. *)
Theorem name_in_closed_form (w : world) (p : Z) :
  name_read w p =
  match pid_comm w p with
  | Some (c :: fp) => take_while plain_char (firstn 255 (c :: fp))
  | _ => str "unknown"
  end /\
  (List.length (name_read w p) <= 255)%nat /\
  plain (name_read w p).
Proof.
  assert (Hform : name_read w p =
    match pid_comm w p with
    | Some (c :: fp) => take_while plain_char (firstn 255 (c :: fp))
    | _ => str "unknown"
    end).
  { rewrite name_read_comm. destruct (pid_comm w p) as [[| c fp] |];
      try reflexivity.
    change (fgets 256 (c :: fp)) with (Some (read_line 255 (c :: fp))).
    apply (name_of_line (c :: fp) 255). }
  split; [exact Hform |]. rewrite Hform.
  destruct (pid_comm w p) as [[| c fp] |].
  - split; [cbn; lia | repeat constructor].
  - split.
    + etransitivity; [apply take_while_length |].
      rewrite length_firstn. lia.
    + apply take_while_all.
  - split; [cbn; lia | repeat constructor].
Qed.

(** ** What [get_cpu_stats] and [cpu_usage] depend on *)

Lemma get_cpu_stats_same_source (w1 w2 : world) (s1 s2 : CPUStats) :
  proc_stat w1 = proc_stat w2 ->
  fst (get_cpu_stats w1 s1) = fst (get_cpu_stats w2 s2) /\
  (fst (get_cpu_stats w1 s1) = 0 ->
   snd (get_cpu_stats w1 s1) = snd (get_cpu_stats w2 s2)).
Proof.
  intros Hsame. destruct (proc_stat w1) as [fp |] eqn:H1.
  - symmetry in Hsame.
    destruct (get_cpu_stats_scanned w1 s1 fp H1) as [Hlt1 Hge1].
    destruct (get_cpu_stats_scanned w2 s2 fp Hsame) as [Hlt2 Hge2].
    destruct (Z_lt_le_dec (fst (vfscanf cpu_format fp [])) 8) as [L | L].
    + rewrite (Hlt1 L), (Hlt2 L). split; [reflexivity | discriminate].
    + destruct (Hge1 L) as (r1 & E1 & C1).
      destruct (Hge2 L) as (r2 & E2 & C2).
      destruct (get_cpu_stats_derived _ _ _ E1) as [A1 T1].
      destruct (get_cpu_stats_derived _ _ _ E2) as [A2 T2].
      rewrite E1, E2. split; [reflexivity |]. intros _. cbn [snd].
      rewrite <- C2 in C1. unfold counters in C1.
      injection C1 as Hu Hn Hs Hi Hw Hq Hsq Hst.
      rewrite Hu, Hn, Hs, Hq, Hsq in A1. rewrite <- A2 in A1.
      rewrite A1, Hi, Hw, Hst in T1. rewrite <- T2 in T1.
      destruct r1, r2. cbn in *. congruence.
  - unfold get_cpu_stats. rewrite H1, <- Hsame.
    split; [reflexivity | discriminate].
Qed.

(** X4.  The structure handed to [get_cpu_stats] is written, never read:
    the value returned is the same whatever the structure held, and when
    that value is 0 so is the structure that comes back. *)
Theorem get_cpu_stats_ignores_its_argument (w : world) (s1 s2 : CPUStats) :
  fst (get_cpu_stats w s1) = fst (get_cpu_stats w s2) /\
  (fst (get_cpu_stats w s1) = 0 ->
   get_cpu_stats w s1 = get_cpu_stats w s2).
Proof.
  destruct (get_cpu_stats_same_source w w s1 s2 eq_refl) as [Hf Hs].
  split; [exact Hf |]. intros H0. specialize (Hs H0).
  destruct (get_cpu_stats w s1), (get_cpu_stats w s2). cbn in *. congruence.
Qed.

Lemma get_cpu_stats_ignores_its_argument_witness :
  get_cpu_stats sample_host idle_host = get_cpu_stats sample_host busy_host.
Proof.
  apply (get_cpu_stats_ignores_its_argument sample_host idle_host busy_host).
  reflexivity.
Defined.

Lemma cpu_percentages_same (s : CPUStats) :
  cpu_percentages s s =
  {| divisor := 1; usage_percent := 0; idle_percent := 0;
     iowait_percent := 0; steal_percent := 0 |}.
Proof. unfold cpu_percentages. rewrite !Z.sub_diag. reflexivity. Qed.

(** X5.  When the statistics source reads the same at both samples and the
    read succeeds, [cpu_usage] shows 0 for active, idle and I/O wait and no
    steal line, whatever the counters are. *)
Theorem unchanged_counters_show_zero (before after : world)
  (prev curr : CPUStats) :
  proc_stat after = proc_stat before ->
  fst (get_cpu_stats before prev) = 0 ->
  cpu_usage before after prev curr =
  [Gauge "Active Usage" 0; Gauge "Idle" 0; Gauge "I/O Wait" 0].
Proof.
  intros Hsame Hok.
  destruct (get_cpu_stats_same_source before after prev curr
              (eq_sym Hsame)) as [Hf Hs].
  specialize (Hs Hok). rewrite Hok in Hf. unfold cpu_usage.
  destruct (get_cpu_stats before prev) as [r1 s1].
  destruct (get_cpu_stats after curr) as [r2 s2].
  cbn [fst snd] in *. subst r1 r2 s2.
  rewrite cpu_percentages_same. reflexivity.
Qed.

Lemma unchanged_counters_show_zero_witness :
  cpu_usage sample_host sample_host idle_host busy_host =
  [Gauge "Active Usage" 0; Gauge "Idle" 0; Gauge "I/O Wait" 0].
Proof.
  apply (unchanged_counters_show_zero sample_host sample_host);
    reflexivity.
Defined.

(** X6.  [cpu_usage] shows nothing at all when either sample cannot be
    taken, and three or four percentages otherwise; in no case does what
    it shows depend on what its two local structures held on entry. *)
Theorem cpu_usage_is_silent_on_failure (before after : world)
  (prev curr : CPUStats) :
  (fst (get_cpu_stats before prev) <> 0 \/
   fst (get_cpu_stats after curr) <> 0 ->
   cpu_usage before after prev curr = []) /\
  (fst (get_cpu_stats before prev) = 0 ->
   fst (get_cpu_stats after curr) = 0 ->
   (3 <= List.length (cpu_usage before after prev curr) <= 4)%nat) /\
  (forall prev' curr',
     cpu_usage before after prev' curr' = cpu_usage before after prev curr).
Proof.
  split; [| split].
  - unfold cpu_usage. intros [H | H].
    + destruct (get_cpu_stats before prev) as [[| r | r] s1];
        cbn in *; congruence.
    + destruct (get_cpu_stats before prev) as [[| r | r] s1];
        try reflexivity.
      destruct (get_cpu_stats after curr) as [[| r | r] s2];
        cbn in *; congruence.
  - unfold cpu_usage. intros H1 H2.
    destruct (get_cpu_stats before prev) as [r1 s1].
    destruct (get_cpu_stats after curr) as [r2 s2].
    cbn [fst] in *. subst r1 r2. rewrite length_app.
    destruct (Qle_bool _ _); cbn; lia.
  - intros prev' curr'.
    destruct (get_cpu_stats_same_source before before prev' prev eq_refl)
      as [Hf1 Hs1].
    destruct (get_cpu_stats_same_source after after curr' curr eq_refl)
      as [Hf2 Hs2].
    unfold cpu_usage.
    destruct (get_cpu_stats before prev') as [r1' s1'].
    destruct (get_cpu_stats before prev) as [r1 s1].
    destruct (get_cpu_stats after curr') as [r2' s2'].
    destruct (get_cpu_stats after curr) as [r2 s2].
    cbn [fst snd] in *. subst r1' r2'.
    destruct r1 as [| r1 | r1]; try reflexivity.
    rewrite (Hs1 eq_refl).
    destruct r2 as [| r2 | r2]; try reflexivity.
    rewrite (Hs2 eq_refl). reflexivity.
Qed.

Lemma cpu_usage_is_silent_on_failure_witness :
  cpu_usage sample_host tie_host idle_host busy_host = [].
Proof.
  apply (cpu_usage_is_silent_on_failure sample_host tie_host).
  right. discriminate.
Defined.

Lemma percent_at_most_100 (d t : Z) :
  0 <= d <= t -> 0 < t -> (percent d t <= 100)%Q.
Proof.
  intros Hd Ht. unfold percent.
  assert (Hq : (inject_Z d / inject_Z t <= 1)%Q).
  { apply Qle_shift_div_r.
    - change 0%Q with (inject_Z 0). rewrite <- Zlt_Qlt. exact Ht.
    - rewrite Qmult_1_l. rewrite <- Zle_Qle. lia. }
  setoid_replace 100%Q with (1 * 100)%Q by reflexivity.
  apply Qmult_le_compat_r; [exact Hq | discriminate].
Qed.

(** X7.  For two snapshots with no counter decreasing and a larger total,
    none of the four percentages exceeds 100. *)
Theorem percentages_are_at_most_100 (prev curr : CPUStats) :
  snapshot prev -> snapshot curr -> non_decreasing prev curr ->
  total curr > total prev ->
  let u := cpu_percentages prev curr in
  (usage_percent u <= 100)%Q /\ (idle_percent u <= 100)%Q /\
  (iowait_percent u <= 100)%Q /\ (steal_percent u <= 100)%Q.
Proof.
  intros Hp Hc Hm Hgt u.
  pose proof (deltas_add_up prev curr Hp Hc) as Hsum.
  pose proof (active_non_decreasing prev curr Hp Hc Hm) as Ha.
  pose proof (active_delta_exact prev curr Hp Hc Hm) as Ea.
  pose proof (total_delta_exact prev curr Hp Hc Hm) as Et.
  pose proof (delta_small prev curr idle (snap_idle _ Hp) (snap_idle _ Hc)
                (nd_idle _ _ Hm)) as Ei.
  pose proof (delta_small prev curr iowait (snap_iowait _ Hp)
                (snap_iowait _ Hc) (nd_iowait _ _ Hm)) as Ew.
  pose proof (delta_small prev curr steal (snap_steal _ Hp) (snap_steal _ Hc)
                (nd_steal _ _ Hm)) as Es.
  destruct Hm as [_ _ _ Hi Hw _ _ Hs].
  subst u. unfold cpu_percentages. rewrite Ea, Et, Ei, Ew, Es.
  destruct (total curr - total prev =? 0) eqn:E;
    [apply Z.eqb_eq in E; lia |].
  cbn [usage_percent idle_percent iowait_percent steal_percent].
  repeat split; apply percent_at_most_100; lia.
Qed.

Lemma percentages_are_at_most_100_witness :
  let u := cpu_percentages idle_host busy_host in
  (usage_percent u <= 100)%Q /\ (idle_percent u <= 100)%Q /\
  (iowait_percent u <= 100)%Q /\ (steal_percent u <= 100)%Q.
Proof.
  apply (percentages_are_at_most_100 idle_host busy_host).
  - constructor; unfold in_u64, ULLONG_MAX; simpl; lia.
  - constructor; unfold in_u64, ULLONG_MAX; simpl; lia.
  - constructor; simpl; lia.
  - simpl; lia.
Defined.

(** ** The comparison function *)

(** X8.  [compare_processes] is a comparison [qsort] may be given: it
    returns -1, 0 or 1, swapping its arguments negates the result, the
    order it induces is transitive, and it returns 0 exactly when the two
    totals are equal. *)
Theorem compare_processes_is_a_valid_comparison :
  (forall a b, compare_processes a b = -1 \/ compare_processes a b = 0 \/
               compare_processes a b = 1) /\
  (forall a b, compare_processes b a = - compare_processes a b) /\
  (forall a b c, compare_processes a b <= 0 -> compare_processes b c <= 0 ->
                 compare_processes a c <= 0) /\
  (forall a b, compare_processes a b = 0 <-> total_time a = total_time b) /\
  (forall a b, compare_processes a b < 0 <-> total_time a > total_time b).
Proof.
  unfold compare_processes.
  repeat split; intros;
    repeat match goal with
           | |- context [?x >? ?y] => destruct (Z.gtb_spec x y)
           | |- context [?x <? ?y] => destruct (Z.ltb_spec x y)
           | H : context [?x >? ?y] |- _ => destruct (Z.gtb_spec x y)
           | H : context [?x <? ?y] |- _ => destruct (Z.ltb_spec x y)
           end; lia.
Qed.

(** ** What the table leaves out *)

Lemma StronglySorted_app_inv {A : Type} (R : A -> A -> Prop) (l1 l2 : list A) :
  StronglySorted R (l1 ++ l2) ->
  forall a b, In a l1 -> In b l2 -> R a b.
Proof.
  induction l1 as [| x l1 IH]; intros Hs a b Ha Hb; [destruct Ha |].
  cbn [app] in Hs. apply StronglySorted_inv in Hs. destruct Hs as [Hs Hall].
  destruct Ha as [<- | Ha].
  - rewrite Forall_forall in Hall. apply Hall. apply in_or_app. right.
    exact Hb.
  - apply IH; assumption.
Qed.

(** X9.  The rows shown are the largest: the gathered samples are the rows
    together with the samples left out, and no sample left out has more
    total ticks than any row. *)
Theorem rows_are_the_largest (Q : Qsort) (Laws : QsortLaws Q)
  (w : world) (entries : list cstring) :
  malloc_ok w = true -> proc_dir w = Some entries ->
  exists left_out,
    Permutation (collected w entries) (rows (top_processes w) ++ left_out) /\
    forall p q, In p (rows (top_processes w)) -> In q left_out ->
                total_time q <= total_time p.
Proof.
  intros Hm Hd. rewrite (rows_top_processes w entries Hm Hd). unfold ranking.
  exists (skipn 5 (qsort (collected w entries) compare_processes)).
  rewrite firstn_skipn. split; [apply qsort_rearranges |].
  intros p q Hp Hq.
  pose proof (qsort_descending (collected w entries)) as Hs.
  unfold descending in Hs. rewrite <- (firstn_skipn 5) in Hs.
  pose proof (StronglySorted_app_inv _ _ _ Hs p q Hp Hq) as Hpq.
  cbv beta in Hpq. lia.
Qed.

Lemma rows_are_the_largest_witness :
  exists left_out,
    Permutation (collected sample_host sample_entries)
      (rows (@top_processes stable_qsort sample_host) ++ left_out) /\
    forall p q, In p (rows (@top_processes stable_qsort sample_host)) ->
                In q left_out -> total_time q <= total_time p.
Proof.
  apply (rows_are_the_largest stable_qsort _ sample_host sample_entries);
    reflexivity.
Defined.

(** ** The array and the allocator *)


(** X10.  With an allocator that never refuses, the array has no ceiling:
    however many entries /proc has, every successful read is gathered, and
    the output is the table of all of them with their number in the log,
    or the notice "No processes found" when there is none. *)
Theorem every_read_is_gathered (Q : Qsort) (Laws : QsortLaws Q)
  (w : world) (entries : list cstring) :
  malloc_ok w = true -> proc_dir w = Some entries ->
  (forall c, realloc_ok w c = true) ->
  collected w entries = successful_reads w entries /\
  top_processes w =
  match successful_reads w entries with
  | [] => [Print "No processes found"]
  | ps => map Row (ranking ps) ++
          [LogCount "MENU" "Top 5 Processes viewed (%d processes found)"
             (Z.of_nat (List.length ps))]
  end.
Proof.
  intros Hm Hd Hr.
  pose proof (readdir_loop_unbroken w entries [] 100 Hr) as Hb.
  pose proof (readdir_loop_complete w entries [] 100 Hb) as Hc.
  cbn [app] in Hc. fold (collected w entries) in Hc.
  split; [exact Hc |].
  rewrite (top_processes_listing w entries Hm Hd), Hb, Hc. reflexivity.
Qed.

Lemma every_read_is_gathered_witness :
  collected sample_host sample_entries
  = successful_reads sample_host sample_entries /\
  @top_processes stable_qsort sample_host =
  match successful_reads sample_host sample_entries with
  | [] => [Print "No processes found"]
  | ps => map Row (@ranking stable_qsort ps) ++
          [LogCount "MENU" "Top 5 Processes viewed (%d processes found)"
             (Z.of_nat (List.length ps))]
  end.
Proof.
  apply (every_read_is_gathered stable_qsort _ sample_host sample_entries);
    reflexivity.
Defined.



(** * The command line and the menu *)

(** ** The log only grows *)

Lemma grown_refl (l : logger) : grown l l.
Proof.
  split; [reflexivity |]. exists []. rewrite app_nil_r. split; reflexivity.
Qed.

Lemma grown_trans (l1 l2 l3 : logger) :
  grown l1 l2 -> grown l2 l3 -> grown l1 l3.
Proof.
  intros [H1 (a1 & E1 & N1)] [H2 (a2 & E2 & N2)].
  split; [congruence |]. exists (a1 ++ a2).
  split; [rewrite E2, E1, app_assoc; reflexivity |].
  intros Hc. rewrite N1 by exact Hc. rewrite N2 by congruence. reflexivity.
Qed.

Lemma grown_write_log (e : event) (l : logger) : grown l (write_log e l).
Proof.
  unfold write_log. destruct (log_file l) eqn:E; cbn [negb];
    [| apply grown_refl].
  split; [cbn [log_file]; congruence |]. exists [e].
  split; [reflexivity |]. congruence.
Qed.

Lemma grown_replay (out : list event) : forall l, grown l (replay out l).
Proof.
  unfold replay. induction out as [| e out IH]; intros l;
    [apply grown_refl |].
  cbn [fold_left]. eapply grown_trans; [| apply IH].
  destruct (is_log e); [apply grown_write_log | apply grown_refl].
Qed.

Lemma write_log_closed (e : event) (l : logger) :
  log_file l = false -> write_log e l = l.
Proof. unfold write_log. intros ->. reflexivity. Qed.

Lemma grown_cpu_usage_screen (E : setting) (st : session) :
  grown (journal st) (journal (cpu_usage_screen E st)).
Proof.
  unfold cpu_usage_screen.
  destruct (get_cpu_stats (host E (seen st)) (stack E)) as [[| r | r] s1];
    try apply grown_refl.
  destruct (get_cpu_stats (host E (S (seen st))) (stack E))
    as [[| r | r] s2]; apply grown_refl.
Qed.

Lemma grown_memory_usage (st : session) :
  grown (journal st) (journal (memory_usage st)).
Proof. apply grown_write_log. Qed.

Lemma grown_continuous_monitoring (st : session) :
  grown (journal st) (journal (continuous_monitoring st)).
Proof. apply grown_write_log. Qed.

Lemma grown_top_processes_screen (E : setting) (st : session) :
  grown (journal st) (journal (top_processes_screen E st)).
Proof. apply grown_replay. Qed.

Lemma grown_monitoring_rounds (interval : Z) (k : nat) (st : session) :
  grown (journal st) (journal (monitoring_rounds interval k st)).
Proof.
  induction k as [| k IH]; [apply grown_refl |].
  eapply grown_trans; [exact IH | apply grown_write_log].
Qed.

Ltac after_log :=
  match goal with
  | |- grown (journal ?st) (journal (?screen (log ?e ?st))) =>
    apply (grown_trans _ (journal (log e st))); [apply grown_write_log |]
  end.

Lemma grown_parse_arguments (E : setting) (argv : list cstring)
  (st : session) :
  match parse_arguments E argv st with
  | Exit _ st' => grown (journal st) (journal st')
  | Forever rounds => forall k, grown (journal st) (journal (rounds k))
  | Hangs _ => False
  end.
Proof.
  unfold parse_arguments, complain.
  destruct argv as [| prog [| arg1 rest]]; try apply grown_refl.
  destruct (_ || _); [apply grown_write_log |].
  destruct (strcmp_eq arg1 (str "-m")).
  { destruct rest as [| arg2 rest]; [apply grown_write_log |].
    destruct (strcmp_eq arg2 (str "cpu"));
      [after_log; apply grown_cpu_usage_screen |].
    destruct (strcmp_eq arg2 (str "mem"));
      [after_log; apply grown_memory_usage |].
    destruct (strcmp_eq arg2 (str "proc"));
      [after_log; apply grown_top_processes_screen |].
    apply grown_write_log. }
  destruct (strcmp_eq arg1 (str "-c")).
  { destruct rest as [| arg2 rest]; [apply grown_write_log |].
    cbv zeta. destruct (atoi arg2 <=? 0); [apply grown_write_log |].
    intros k. after_log. apply grown_monitoring_rounds. }
  destruct (strcmp_eq arg1 (str "-x")); apply grown_write_log.
Qed.

Lemma grown_menu_pass (E : setting) (st : session) :
  match menu_pass E st with
  | Again st' => grown (journal st) (journal st')
  | Leave st' =>
    journal st' = write_log (Log "SYSTEM" "User exited normally") (journal st)
  | Stuck st' => journal st' = journal st
  end.
Proof.
  unfold menu_pass.
  destruct (scanf_d (input (show [Menu] st))) as [[assigned choice] rest].
  cbv zeta. destruct (flush_line rest) as [rest' |]; [| reflexivity].
  set (st2 := set_input rest' (set_input rest (show [Menu] st))).
  change (journal st) with (journal st2).
  destruct (negb (assigned =? 1)); [apply grown_refl |].
  destruct (choice =? 1); [apply grown_cpu_usage_screen |].
  destruct (choice =? 2); [apply grown_memory_usage |].
  destruct (choice =? 3); [apply grown_top_processes_screen |].
  destruct (choice =? 4); [apply grown_continuous_monitoring |].
  destruct (choice =? 5); [reflexivity | apply grown_refl].
Qed.

Lemma grown_menu_loop (E : setting) (fuel : nat) : forall st,
  match menu_loop E fuel st with
  | Some (Exit code st') =>
    code = 0 /\
    exists l, grown (journal st) l /\
              journal st'
              = close_log (write_log (Log "SYSTEM" "User exited normally") l)
  | Some (Hangs st') => grown (journal st) (journal st')
  | Some (Forever _) => False
  | None => True
  end.
Proof.
  induction fuel as [| fuel IH]; intros st; [exact I |].
  cbn [menu_loop]. pose proof (grown_menu_pass E st) as Hp.
  destruct (menu_pass E st) as [st1 | st1 | st1].
  - specialize (IH st1).
    destruct (menu_loop E fuel st1) as [[code st' | rounds | st'] |];
      try exact IH.
    + destruct IH as [Hc (l & Hl & Hj)]. split; [exact Hc |].
      exists l. split; [eapply grown_trans; eassumption | exact Hj].
    + eapply grown_trans; eassumption.
  - split; [reflexivity |]. exists (journal st).
    split; [apply grown_refl |]. cbn [journal]. rewrite Hp. reflexivity.
  - rewrite Hp. apply grown_refl.
Qed.

Lemma scanf_d_rest (s : cstring) :
  (List.length (snd (scanf_d s)) <= List.length s)%nat.
Proof.
  assert (Hdrop : forall p (l : cstring),
            (List.length (drop_while p l) <= List.length l)%nat).
  { intros p l. induction l as [| c l IH]; cbn [drop_while]; [lia |].
    destruct (p c); cbn [List.length]; lia. }
  unfold scanf_d. pose proof (Hdrop isspace s) as H1. fold (skip_space s) in H1.
  destruct (skip_space s) as [| c s']; [cbn; lia |].
  set (s1 := if is_char MINUS c || is_char PLUS c then s' else c :: s').
  assert (H2 : (List.length s1 <= List.length (c :: s'))%nat)
    by (subst s1; destruct (_ || _); cbn; lia).
  pose proof (Hdrop isdigit s1) as H3.
  destruct (take_while isdigit s1); cbn [snd]; lia.
Qed.

Lemma flush_line_shorter (s rest : cstring) :
  flush_line s = Some rest -> (List.length rest < List.length s)%nat.
Proof.
  revert rest. induction s as [| c s IH]; intros rest; [discriminate |].
  cbn [flush_line]. destruct (is_char NEWLINE c).
  - intros H. injection H as <-. cbn. lia.
  - intros H. specialize (IH rest H). cbn. lia.
Qed.

Lemma input_getchar (st : session) :
  (List.length (input (getchar st)) <= List.length (input st))%nat.
Proof. cbn. destruct (input st); cbn; lia. Qed.

Lemma input_cpu_usage_screen (E : setting) (st : session) :
  (List.length (input (cpu_usage_screen E st)) <= List.length (input st))%nat.
Proof.
  unfold cpu_usage_screen.
  destruct (get_cpu_stats (host E (seen st)) (stack E)) as [[| r | r] s1];
    try (cbn; lia).
  destruct (get_cpu_stats (host E (S (seen st))) (stack E))
    as [[| r | r] s2]; try (cbn; lia).
  apply (input_getchar (show _ (look 1 (show [Sleep 1] (look 1 st))))).
Qed.

Lemma menu_pass_consumes (E : setting) (st : session) :
  match menu_pass E st with
  | Again st' => (List.length (input st') < List.length (input st))%nat
  | _ => True
  end.
Proof.
  unfold menu_pass. pose proof (scanf_d_rest (input st)) as Hs.
  change (input (show [Menu] st)) with (input st).
  destruct (scanf_d (input st)) as [[assigned choice] rest].
  cbn [snd] in Hs. cbv zeta.
  destruct (flush_line rest) as [rest' |] eqn:F; [| exact I].
  apply flush_line_shorter in F.
  set (st2 := set_input rest' (set_input rest (show [Menu] st))).
  assert (H2 : (List.length (input st2) < List.length (input st))%nat)
    by (cbn; lia).
  destruct (negb (assigned =? 1)); [exact H2 |].
  destruct (choice =? 1);
    [pose proof (input_cpu_usage_screen E st2); lia |].
  destruct (choice =? 2);
    [pose proof (input_getchar
                   (log (Log "MENU" "Memory Usage viewed")
                      (show [Out (Print "[Function not yet implemented]")]
                         st2))) as H; unfold memory_usage;
     cbn [input log show] in H |- *; lia |].
  destruct (choice =? 3);
    [unfold top_processes_screen, getchar; cbn [input set_input];
     destruct (input st2); cbn in *; lia |].
  destruct (choice =? 4);
    [unfold continuous_monitoring, getchar; cbn [input set_input log show];
     destruct (input st2); cbn in *; lia |].
  destruct (choice =? 5); [exact I | exact H2].
Qed.

(** Fuel beyond the length of the input is always enough. *)
Lemma menu_loop_ends (E : setting) (fuel : nat) : forall st,
  (List.length (input st) < fuel)%nat -> menu_loop E fuel st <> None.
Proof.
  induction fuel as [| fuel IH]; intros st Hlen; [lia |].
  cbn [menu_loop]. pose proof (menu_pass_consumes E st) as Hp.
  destruct (menu_pass E st) as [st1 | st1 | st1]; try discriminate.
  apply IH. lia.
Qed.

Lemma main_journal (E : setting) (argv : list cstring) (stdin : cstring) :
  exists e,
    main E argv stdin = Some e /\
    let opened := write_log started (fst (init_log E)) in
    match e with
    | Exit code st =>
      exists l, grown opened l /\ journal st = close_log l /\
                ((List.length argv <= 1)%nat ->
                 code = 0 /\
                 exists l', grown opened l' /\
                   l = write_log (Log "SYSTEM" "User exited normally") l')
    | Hangs st => grown opened (journal st)
    | Forever rounds => forall k, grown opened (journal (rounds k))
    end.
Proof.
  unfold main. destruct (init_log E) as [l0 complaints]. cbn [fst].
  fold started.
  set (st0 := {| console := complaints; journal := write_log started l0;
                 input := stdin; seen := 0%nat |}).
  destruct (Nat.ltb_spec 1 (List.length argv)) as [Hargs | Hargs].
  - pose proof (grown_parse_arguments E argv st0) as Hp.
    destruct (parse_arguments E argv st0) as [code st | rounds | st].
    + eexists. split; [reflexivity |]. exists (journal st).
      split; [exact Hp | split; [reflexivity | lia]].
    + eexists. split; [reflexivity | exact Hp].
    + destruct Hp.
  - pose proof (menu_loop_ends E (S (List.length stdin)) st0
                  ltac:(cbn; lia)) as Hsome.
    pose proof (grown_menu_loop E (S (List.length stdin)) st0) as Hl.
    destruct (menu_loop E (S (List.length stdin)) st0)
      as [[code st | rounds | st] |]; try contradiction.
    + eexists. split; [reflexivity |].
      destruct Hl as [Hc (l & Hg & Hj)].
      exists (write_log (Log "SYSTEM" "User exited normally") l).
      split; [eapply grown_trans; [exact Hg | apply grown_write_log] |].
      split; [exact Hj |]. intros _. split; [exact Hc |].
      exists l. split; [exact Hg | reflexivity].
    + eexists. split; [reflexivity | exact Hl].
Qed.

Lemma opened_log (E : setting) :
  let opened := write_log started (fst (init_log E)) in
  log_file opened = log_opens E /\
  syslog opened = old_log E ++ (if log_opens E then [started] else []).
Proof.
  unfold init_log, write_log. destruct (log_opens E); cbn.
  - split; reflexivity.
  - rewrite app_nil_r. split; reflexivity.
Qed.

Lemma closed_log (l : logger) :
  log_file (close_log l) = false /\
  syslog (close_log l) = syslog l ++ (if log_file l then [ended] else []).
Proof.
  unfold close_log, write_log. destruct (log_file l) eqn:E; cbn.
  - split; reflexivity.
  - rewrite app_nil_r. split; [exact E | reflexivity].
Qed.

(** ** What a run does to syslog.txt *)

(** X12.  A run that comes to its end leaves the log closed.  When
    syslog.txt could be opened, the run has added to what the file held a
    first entry "System Monitor started", a last entry "Session ended" and
    its other entries between them; when it could not, the file is as it
    was. *)
Theorem finished_run_brackets_its_log (E : setting) (argv : list cstring)
  (stdin : cstring) (code : Z) (st : session) :
  main E argv stdin = Some (Exit code st) ->
  log_file (journal st) = false /\
  (log_opens E = true ->
   exists between,
     syslog (journal st) = old_log E ++ started :: between ++ [ended]) /\
  (log_opens E = false -> syslog (journal st) = old_log E).
Proof.
  intros Hmain.
  destruct (main_journal E argv stdin) as (e & He & Hj).
  rewrite Hmain in He. injection He as <-. cbv zeta in Hj.
  destruct Hj as (l & [Hfile (added & Hadd & Hnone)] & Hclose & _).
  destruct (opened_log E) as [Ho1 Ho2]. cbv zeta in Ho1, Ho2.
  destruct (closed_log l) as [Hc1 Hc2].
  rewrite Hclose. split; [exact Hc1 | split]; intros Hopen;
    rewrite Hc2, Hadd, Ho2, Hfile, Ho1, Hopen.
  - exists added. rewrite <- !app_assoc. reflexivity.
  - rewrite Hnone by congruence. rewrite !app_nil_r. reflexivity.
Qed.

Lemma finished_run_brackets_its_log_witness :
  match main sample_setting [str "sysmonitor"; str "-h"] [] with
  | Some (Exit code st) =>
    log_file (journal st) = false /\
    (log_opens sample_setting = true ->
     exists between,
       syslog (journal st)
       = old_log sample_setting ++ started :: between ++ [ended]) /\
    (log_opens sample_setting = false ->
     syslog (journal st) = old_log sample_setting)
  | _ => False
  end.
Proof.
  destruct (main sample_setting [str "sysmonitor"; str "-h"] [])
    as [[code st | rounds | st] |] eqn:Hmain;
    try (vm_compute in Hmain; discriminate Hmain).
  exact (finished_run_brackets_its_log sample_setting _ _ code st Hmain).
Defined.

(** X13.  A run always has an ending, and in none is the old content of
    syslog.txt lost: at its end, when it hangs, and after each round of
    the loop without exit (as far as its counter goes), the log is what
    the file held with entries after it, and it is what the file held
    when the file could not be opened.  A run that hangs or loops has not
    closed the log. *)
Theorem syslog_is_only_appended_to (E : setting) (argv : list cstring)
  (stdin : cstring) :
  exists e,
    main E argv stdin = Some e /\
    forall st, reaches e st ->
      (exists added,
         syslog (journal st) = old_log E ++ added /\
         (log_opens E = false -> added = [])) /\
      (match e with
       | Exit _ _ => True
       | _ => log_file (journal st) = log_opens E
       end).
Proof.
  destruct (main_journal E argv stdin) as (e & He & Hj).
  exists e. split; [exact He |]. cbv zeta in Hj.
  destruct (opened_log E) as [Ho1 Ho2]. cbv zeta in Ho1, Ho2.
  assert (Hgrown : forall l,
            grown (write_log started (fst (init_log E))) l ->
            log_file l = log_opens E /\
            exists added,
              syslog l = old_log E ++ added /\
              (log_opens E = false -> added = [])).
  { intros l [Hfile (added & Hadd & Hnone)]. split; [congruence |].
    exists ((if log_opens E then [started] else []) ++ added).
    split; [rewrite Hadd, Ho2, app_assoc; reflexivity |].
    intros Hno. rewrite Hnone by congruence. rewrite Hno. reflexivity. }
  intros st Hst. destruct e as [code st' | rounds | st']; cbn in Hst.
  - subst st'. destruct Hj as (l & Hg & Hclose & _).
    destruct (Hgrown l Hg) as [Hfile (added & Hadd & Hnone)].
    destruct (closed_log l) as [_ Hc]. split; [| exact I].
    exists (added ++ (if log_file l then [ended] else [])).
    rewrite Hclose, Hc, Hadd, app_assoc. split; [reflexivity |].
    intros Hno. rewrite Hnone by exact Hno. rewrite Hfile, Hno. reflexivity.
  - destruct Hst as (k & _ & ->). destruct (Hgrown _ (Hj k)) as [Hfile Hadd].
    split; assumption.
  - subst st'. destruct (Hgrown _ Hj) as [Hfile Hadd]. split; assumption.
Qed.

Lemma syslog_is_only_appended_to_witness :
  exists e,
    main sample_setting [str "sysmonitor"] (str "7") = Some e /\
    forall st, reaches e st ->
      (exists added,
         syslog (journal st) = old_log sample_setting ++ added /\
         (log_opens sample_setting = false -> added = [])) /\
      (match e with
       | Exit _ _ => True
       | _ => log_file (journal st) = log_opens sample_setting
       end).
Proof.
  exact (syslog_is_only_appended_to sample_setting [str "sysmonitor"]
           (str "7")).
Defined.

(** ** The command line *)

(** X14.  Whether [parse_arguments] returns, and with which value, is
    settled by the first two arguments alone: not by the name of the
    program or further arguments, not by the host, the log or the input. *)
Theorem exit_code_is_settled_by_two_arguments (E E' : setting)
  (st st' : session) (prog prog' arg1 arg2 : cstring)
  (more more' : list cstring) :
  code_of (parse_arguments E (prog :: arg1 :: arg2 :: more) st)
  = code_of (parse_arguments E' (prog' :: arg1 :: arg2 :: more') st').
Proof.
  unfold parse_arguments.
  destruct (_ || _); [reflexivity |].
  destruct (strcmp_eq arg1 (str "-m")).
  { destruct (strcmp_eq arg2 (str "cpu")); [reflexivity |].
    destruct (strcmp_eq arg2 (str "mem")); [reflexivity |].
    destruct (strcmp_eq arg2 (str "proc")); reflexivity. }
  destruct (strcmp_eq arg1 (str "-c")).
  { cbv zeta. destruct (atoi arg2 <=? 0); reflexivity. }
  destruct (strcmp_eq arg1 (str "-x")); reflexivity.
Qed.

(** X15.  The value returned does not tell whether the reading asked for
    could be made.  "-m cpu" returns 0 having shown nothing when
    /proc/stat cannot be read, and "-m proc" returns 0 after the error
    message when /proc cannot be opened. *)
Theorem failed_readings_still_return_0 (E : setting) (st : session)
  (prog : cstring) :
  let now := host E (seen st) in
  (fst (get_cpu_stats now (stack E)) <> 0 ->
   exists st',
     parse_arguments E [prog; str "-m"; str "cpu"] st = Exit 0 st' /\
     console st' = console st) /\
  (malloc_ok now = true -> proc_dir now = None ->
   exists st',
     parse_arguments E [prog; str "-m"; str "proc"] st = Exit 0 st' /\
     console st'
     = console st ++ [Out (Perror "Error: Cannot open /proc directory")]).
Proof.
  cbv zeta. split.
  - intros Hfail. eexists. split; [reflexivity |].
    unfold cpu_usage_screen. cbn [seen log host].
    destruct (get_cpu_stats (host E (seen st)) (stack E))
      as [[| r | r] s1]; [cbn in Hfail; congruence | |]; reflexivity.
  - intros Hm Hd. eexists. split; [reflexivity |].
    unfold top_processes_screen, top_processes. cbn [seen log console getchar
      set_input]. rewrite Hm, Hd. reflexivity.
Qed.

Lemma failed_readings_still_return_0_witness :
  (exists st',
     parse_arguments blind_setting [str "sysmonitor"; str "-m"; str "cpu"]
       blank_session = Exit 0 st' /\
     console st' = console blank_session) /\
  (exists st',
     parse_arguments blind_setting [str "sysmonitor"; str "-m"; str "proc"]
       blank_session = Exit 0 st' /\
     console st'
     = console blank_session
       ++ [Out (Perror "Error: Cannot open /proc directory")]).
Proof.
  destruct (failed_readings_still_return_0 blind_setting blank_session
              (str "sysmonitor")) as [Hcpu Hproc].
  split; [apply Hcpu; discriminate | apply Hproc; reflexivity].
Defined.

(** X16.  A command line that is turned down, with at least one argument
    given, gets one line on stderr and one ERROR entry in the log and
    nothing else: the host is not looked at and no input is read. *)
Theorem rejected_command_line (E : setting) (st st' : session)
  (prog arg1 : cstring) (more : list cstring) :
  parse_arguments E (prog :: arg1 :: more) st = Exit 1 st' ->
  exists msg details,
    console st' = console st ++ [Err msg] /\
    journal st' = write_log (Log "ERROR" details) (journal st) /\
    input st' = input st /\ seen st' = seen st.
Proof.
  unfold parse_arguments, complain.
  destruct (_ || _); [discriminate |].
  assert (Hgo : forall msg details,
            Exit 1 (log (Log "ERROR" details) (show [Err msg] st))
            = Exit 1 st' ->
            exists msg details,
              console st' = console st ++ [Err msg] /\
              journal st' = write_log (Log "ERROR" details) (journal st) /\
              input st' = input st /\ seen st' = seen st).
  { intros msg details H. injection H as <-. exists msg, details.
    repeat split. }
  destruct (strcmp_eq arg1 (str "-m")).
  { destruct more as [| arg2 more]; [apply Hgo |].
    destruct (strcmp_eq arg2 (str "cpu")); [discriminate |].
    destruct (strcmp_eq arg2 (str "mem")); [discriminate |].
    destruct (strcmp_eq arg2 (str "proc")); [discriminate | apply Hgo]. }
  destruct (strcmp_eq arg1 (str "-c")).
  { destruct more as [| arg2 more]; [apply Hgo |].
    cbv zeta. destruct (atoi arg2 <=? 0); [apply Hgo | discriminate]. }
  destruct (strcmp_eq arg1 (str "-x")); apply Hgo.
Qed.

Lemma rejected_command_line_witness :
  exists msg details,
    console (complain "Error: interval must be a positive number."
               "Invalid interval value for continuous monitoring"
               blank_session)
    = console blank_session ++ [Err msg] /\
    journal (complain "Error: interval must be a positive number."
               "Invalid interval value for continuous monitoring"
               blank_session)
    = write_log (Log "ERROR" details) (journal blank_session) /\
    input (complain "Error: interval must be a positive number."
             "Invalid interval value for continuous monitoring"
             blank_session) = input blank_session /\
    seen (complain "Error: interval must be a positive number."
            "Invalid interval value for continuous monitoring"
            blank_session) = seen blank_session.
Proof.
  apply (rejected_command_line sample_setting blank_session _
           (str "sysmonitor") (str "-c") [str "abc"]).
  reflexivity.
Defined.

Lemma strtol_digits (ds tail : cstring) :
  ds <> [] -> all isdigit ds -> stops isdigit tail ->
  strtol (ds ++ tail) = Z.min (decimal ds) LONG_MAX.
Proof.
  intros Hne Hds Htail. destruct ds as [| c ds']; [congruence |].
  pose proof (Forall_inv Hds) as Hc. cbv beta in Hc.
  unfold strtol. cbn [app drop_while].
  rewrite (isdigit_not_space c Hc).
  pose proof (isdigit_not_sign c Hc) as Hsign.
  rewrite Hsign. apply orb_false_iff in Hsign as [-> _].
  change (c :: ds' ++ tail) with ((c :: ds') ++ tail).
  rewrite (take_while_app isdigit _ _ Hds Htail). reflexivity.
Qed.

Lemma to_int_small (n : Z) :
  0 <= n <= INT_MAX -> to_int (Z.min n LONG_MAX) = n.
Proof.
  unfold INT_MAX, LONG_MAX, to_int. intros Hn.
  rewrite Z.min_l by lia.
  replace (n + 2 ^ 31) with (n + 2 ^ 31 + 0 * 2 ^ 32) by lia.
  rewrite Z.mod_add by lia. rewrite Z.mod_small by lia. lia.
Qed.

(** X17.  The interval of "-c" is the number its argument begins with:
    what follows the digits is not looked at, so that "2x" and "2.5" ask
    for a round every 2 seconds. *)
Theorem interval_is_the_leading_number (E : setting) (st : session)
  (prog ds tail : cstring) (more : list cstring) :
  all isdigit ds -> stops isdigit tail -> 0 < decimal ds <= INT_MAX ->
  parse_arguments E (prog :: str "-c" :: (ds ++ tail) :: more) st
  = Forever
      (fun k =>
         monitoring_rounds (decimal ds) k
           (log (LogCount "CLI"
                   "Continuous monitoring started with %d second interval"
                   (decimal ds)) st)).
Proof.
  intros Hds Htail Hn.
  assert (Hne : ds <> []) by (intros ->; cbn in Hn; lia).
  unfold parse_arguments.
  change (strcmp_eq (str "-c") (str "-h") || strcmp_eq (str "-c") (str "--help"))
    with false.
  change (strcmp_eq (str "-c") (str "-m")) with false.
  change (strcmp_eq (str "-c") (str "-c")) with true.
  cbv iota zeta. unfold atoi.
  rewrite (strtol_digits ds tail Hne Hds Htail), to_int_small by lia.
  destruct (decimal ds <=? 0) eqn:Hle; [lia | reflexivity].
Qed.

Lemma interval_is_the_leading_number_witness :
  parse_arguments sample_setting
    [str "sysmonitor"; str "-c"; str "2" ++ str ".5"] blank_session
  = Forever
      (fun k =>
         monitoring_rounds (decimal (str "2")) k
           (log (LogCount "CLI"
                   "Continuous monitoring started with %d second interval"
                   (decimal (str "2"))) blank_session)).
Proof.
  apply (interval_is_the_leading_number sample_setting blank_session
           (str "sysmonitor") (str "2") (str ".5") []).
  - repeat (apply Forall_cons; [reflexivity |]). apply Forall_nil.
  - reflexivity.
  - unfold INT_MAX. cbn. lia.
Defined.

(** X18.  The monitoring loop, as long as its counter has not passed
    [INT_MAX]: after [k] rounds it has shown [k] times the two lines and
    slept [k] times the interval, the log has got the entries numbered 1
    to [k] when it is open and nothing when it is not, the host has not
    been looked at and no input has been read. *)
Theorem monitoring_after_k_rounds (interval : Z) (k : nat) (st : session) :
  Z.of_nat k <= INT_MAX ->
  let st' := monitoring_rounds interval k st in
  console st' = console st ++ List.concat (repeat (monitor_screen interval) k) /\
  syslog (journal st')
  = syslog (journal st)
    ++ (if log_file (journal st) then map monitor_entry (seq 1 k) else []) /\
  log_file (journal st') = log_file (journal st) /\
  input st' = input st /\ seen st' = seen st.
Proof.
  intros _. cbv zeta. induction k as [| k IH].
  - cbn. rewrite !app_nil_r. destruct (log_file (journal st)); cbn;
      rewrite ?app_nil_r; repeat split.
  - destruct IH as (Hc & Hs & Hf & Hi & Hn).
    change (monitoring_rounds interval (S k) st)
      with (monitoring_round interval (Z.of_nat (S k))
              (monitoring_rounds interval k st)).
    set (st1 := monitoring_rounds interval k st) in *.
    unfold monitoring_round. cbn [console journal input seen show log].
    repeat split; try assumption.
    + rewrite Hc, <- !app_assoc. f_equal.
      cbn [repeat]. rewrite repeat_cons, concat_app. cbn [List.concat].
      rewrite app_nil_r. reflexivity.
    + unfold write_log. rewrite Hf.
      destruct (log_file (journal st)) eqn:Hopen; cbn [negb syslog].
      * rewrite Hs, <- app_assoc. f_equal.
        rewrite seq_S, map_app. reflexivity.
      * exact Hs.
    + unfold write_log. rewrite Hf.
      destruct (log_file (journal st)); cbn [negb log_file]; congruence.
Qed.

Lemma monitoring_after_k_rounds_witness :
  let st' := monitoring_rounds 2 3 blank_session in
  console st'
  = console blank_session ++ List.concat (repeat (monitor_screen 2) 3) /\
  syslog (journal st')
  = syslog (journal blank_session)
    ++ (if log_file (journal blank_session)
        then map monitor_entry (seq 1 3) else []) /\
  log_file (journal st') = log_file (journal blank_session) /\
  input st' = input blank_session /\ seen st' = seen blank_session.
Proof.
  apply (monitoring_after_k_rounds 2 3 blank_session).
  unfold INT_MAX. cbn. lia.
Defined.

(** ** The menu *)

Lemma no_line_break_flush (s : cstring) :
  no_line_break s -> flush_line s = None.
Proof.
  induction 1 as [| c s Hc _ IH]; [reflexivity |].
  cbn. apply negb_true_iff in Hc. rewrite Hc. exact IH.
Qed.

Lemma flush_line_break (line rest : cstring) :
  no_line_break line -> flush_line (line ++ newline :: rest) = Some rest.
Proof.
  induction 1 as [| c s Hc _ IH]; [reflexivity |].
  cbn [app flush_line]. apply negb_true_iff in Hc. rewrite Hc. exact IH.
Qed.

Lemma no_line_break_drop_while p (s : cstring) :
  no_line_break s -> no_line_break (drop_while p s).
Proof.
  induction 1 as [| c s Hc Hs IH]; [apply Forall_nil |].
  cbn. destruct (p c); [exact IH | apply Forall_cons; assumption].
Qed.

Lemma no_line_break_scanf_d (s : cstring) :
  no_line_break s -> no_line_break (snd (scanf_d s)).
Proof.
  intros Hs. unfold scanf_d, skip_space.
  pose proof (no_line_break_drop_while isspace s Hs) as H0.
  destruct (drop_while isspace s) as [| c s']; [apply Forall_nil |].
  assert (H1 : no_line_break
                 (if is_char MINUS c || is_char PLUS c then s' else c :: s')).
  { destruct (_ || _); [exact (Forall_inv_tail H0) | exact H0]. }
  destruct (take_while isdigit _); cbn [snd];
    [exact H1 | apply no_line_break_drop_while; exact H1].
Qed.

Lemma menu_pass_shape (E : setting) (st : session) :
  match menu_pass E st with
  | Again _ => True
  | Leave st' => exists before, console st' = before ++ [goodbye]
  | Stuck st' =>
    console st' = console st ++ [Menu] /\ flush_line (input st') = None /\
    journal st' = journal st /\ seen st' = seen st
  end.
Proof.
  unfold menu_pass. cbn [input show].
  destruct (scanf_d (input st)) as [[assigned choice] rest].
  destruct (flush_line rest) as [rest' |] eqn:Hflush.
  - destruct (negb (assigned =? 1)); [exact I |].
    repeat (match goal with
            | |- context [if ?b then _ else _] => destruct b
            end; try exact I).
    eexists. cbn [console log show set_input]. reflexivity.
  - cbn [console journal input seen set_input]. repeat split. exact Hflush.
Qed.

Lemma menu_loop_shape (E : setting) (fuel : nat) : forall st e,
  menu_loop E fuel st = Some e ->
  match e with
  | Exit code st' => code = 0 /\ exists before, console st' = before ++ [goodbye]
  | Hangs st' =>
    (exists before, console st' = before ++ [Menu]) /\
    flush_line (input st') = None
  | Forever _ => False
  end.
Proof.
  induction fuel as [| fuel IH]; intros st e; [discriminate |].
  cbn [menu_loop]. pose proof (menu_pass_shape E st) as Hshape.
  destruct (menu_pass E st) as [st' | st' | st'].
  - apply IH.
  - intros [= <-]. split; [reflexivity |]. exact Hshape.
  - intros [= <-]. destruct Hshape as (Hc & Hf & _). split; [| exact Hf].
    eexists. exact Hc.
Qed.

(** X19.  A run without arguments, on any input, has one of two ends.  It
    returns 0, and then the last thing it has shown is the goodbye of
    choice 5; or it comes to the end of the input, and then it is for ever
    in a loop that waits for a line break, the menu being the last thing
    shown.  It returns no other value. *)
Theorem interactive_run_leaves_by_5_or_hangs (E : setting)
  (argv : list cstring) (stdin : cstring) :
  (List.length argv <= 1)%nat ->
  exists e,
    main E argv stdin = Some e /\
    match e with
    | Exit code st =>
      code = 0 /\ exists before, console st = before ++ [goodbye]
    | Hangs st =>
      (exists before, console st = before ++ [Menu]) /\
      flush_line (input st) = None
    | Forever _ => False
    end.
Proof.
  intros Hargc. unfold main. destruct (init_log E) as [l complaints].
  destruct (1 <? List.length argv)%nat eqn:Hlt;
    [apply Nat.ltb_lt in Hlt; lia |].
  set (st := {| console := complaints; journal := _; input := stdin;
                seen := O |}).
  destruct (menu_loop E (S (List.length stdin)) st) as [e |] eqn:Hloop.
  - exists e. split; [reflexivity |].
    exact (menu_loop_shape E _ st e Hloop).
  - exfalso. apply (menu_loop_ends E (S (List.length stdin)) st);
      [cbn; lia | exact Hloop].
Qed.

Lemma interactive_run_leaves_by_5_or_hangs_witness :
  exists e,
    main sample_setting [str "sysmonitor"] (str "9" ++ newline :: str "5")
    = Some e /\
    match e with
    | Exit code st =>
      code = 0 /\ exists before, console st = before ++ [goodbye]
    | Hangs st =>
      (exists before, console st = before ++ [Menu]) /\
      flush_line (input st) = None
    | Forever _ => False
    end.
Proof.
  apply (interactive_run_leaves_by_5_or_hangs sample_setting
           [str "sysmonitor"] (str "9" ++ newline :: str "5")).
  cbn. lia.
Defined.

(** X20.  Input that holds no line break is never enough: whatever it
    holds, also a 5, the run shows the menu once and then hangs, with the
    log open and nothing in it after the entry of the start. *)
Theorem input_without_line_break_hangs (E : setting) (argv : list cstring)
  (stdin : cstring) :
  (List.length argv <= 1)%nat -> no_line_break stdin ->
  exists st,
    main E argv stdin = Some (Hangs st) /\
    console st = snd (init_log E) ++ [Menu] /\
    journal st = write_log started (fst (init_log E)) /\
    seen st = O.
Proof.
  intros Hargc Hin. unfold main. destruct (init_log E) as [l complaints].
  destruct (1 <? List.length argv)%nat eqn:Hlt;
    [apply Nat.ltb_lt in Hlt; lia |].
  cbn [menu_loop]. unfold menu_pass. cbn [input show].
  pose proof (no_line_break_scanf_d stdin Hin) as Hrest.
  destruct (scanf_d stdin) as [[assigned choice] rest]. cbn [snd] in Hrest.
  rewrite (no_line_break_flush rest Hrest).
  eexists. split; [reflexivity |]. repeat split.
Qed.

Lemma input_without_line_break_hangs_witness :
  exists st,
    main sample_setting [str "sysmonitor"] (str "5") = Some (Hangs st) /\
    console st = snd (init_log sample_setting) ++ [Menu] /\
    journal st = write_log started (fst (init_log sample_setting)) /\
    seen st = O.
Proof.
  apply (input_without_line_break_hangs sample_setting [str "sysmonitor"]
           (str "5")).
  - cbn. lia.
  - repeat (apply Forall_cons; [reflexivity |]). apply Forall_nil.
Defined.

Lemma scanf_d_no_number (blanks line : cstring) (c : ascii) :
  all isspace blanks -> isspace c = false -> isdigit c = false ->
  (is_sign c = true -> stops isdigit line) ->
  exists line',
    scanf_d (blanks ++ c :: line) = (0, 0, line') /\
    (line' = line \/ line' = c :: line).
Proof.
  intros Hb Hsp Hd Hsign. unfold scanf_d, skip_space.
  rewrite (drop_while_app isspace blanks (c :: line) Hb Hsp).
  fold (is_sign c). destruct (is_sign c) eqn:Hs.
  - specialize (Hsign eq_refl). exists line. split; [| left; reflexivity].
    destruct line as [| d line]; [reflexivity |].
    cbn in Hsign. cbn [take_while]. rewrite Hsign. reflexivity.
  - exists (c :: line). split; [| right; reflexivity].
    cbn [take_while]. rewrite Hd. reflexivity.
Qed.

(** X21.  A line that does not begin with a number (after blanks and
    blank lines) is thrown away whole: the run says "Invalid input",
    sleeps 2 seconds and is back at the menu with the input that follows
    the line; it has neither looked at the host nor written to the log. *)
Theorem line_without_number_is_thrown_away (E : setting) (st : session)
  (blanks line rest : cstring) (c : ascii) :
  all isspace blanks -> isspace c = false -> isdigit c = false ->
  (is_sign c = true -> stops isdigit line) ->
  no_line_break line ->
  input st = blanks ++ c :: line ++ newline :: rest ->
  exists st',
    menu_pass E st = Again st' /\
    console st'
    = console st
      ++ [Menu; Out (Print "Invalid input. Please enter a number."); Sleep 2] /\
    input st' = rest /\ journal st' = journal st /\ seen st' = seen st.
Proof.
  intros Hb Hsp Hd Hsign Hline Hin.
  assert (Hc : negb (is_char NEWLINE c) = true).
  { apply negb_true_iff. unfold is_char, NEWLINE.
    unfold isspace in Hsp. apply orb_false_iff in Hsp as [_ Hsp].
    apply andb_false_iff in Hsp.
    destruct (code c =? 10) eqn:Heq; [| reflexivity].
    apply Z.eqb_eq in Heq. rewrite Heq in Hsp. cbn in Hsp.
    destruct Hsp; discriminate. }
  destruct (scanf_d_no_number blanks (line ++ newline :: rest) c Hb Hsp Hd)
    as (line' & Hscan & Hline').
  { intros Hs. specialize (Hsign Hs).
    destruct line; [reflexivity | exact Hsign]. }
  assert (Hflush : flush_line line' = Some rest).
  { destruct Hline' as [-> | ->].
    - apply flush_line_break. exact Hline.
    - change (c :: line ++ newline :: rest)
        with ((c :: line) ++ newline :: rest).
      apply flush_line_break. apply Forall_cons; assumption. }
  unfold menu_pass. cbn [input show]. rewrite Hin, Hscan. cbn [input set_input].
  rewrite Hflush. eexists. split; [reflexivity |].
  cbn [console journal input seen show set_input].
  rewrite <- app_assoc. repeat split.
Qed.

Lemma line_without_number_is_thrown_away_witness :
  exists st',
    menu_pass sample_setting
      (set_input (str " " ++ "q"%char :: str "uit" ++ newline :: str "5")
         blank_session) = Again st' /\
    console st'
    = console (set_input (str " " ++ "q"%char :: str "uit" ++ newline :: str "5")
                 blank_session)
      ++ [Menu; Out (Print "Invalid input. Please enter a number."); Sleep 2] /\
    input st' = str "5" /\
    journal st'
    = journal (set_input (str " " ++ "q"%char :: str "uit" ++ newline :: str "5")
                 blank_session) /\
    seen st'
    = seen (set_input (str " " ++ "q"%char :: str "uit" ++ newline :: str "5")
              blank_session).
Proof.
  apply (line_without_number_is_thrown_away sample_setting _ (str " ")
           (str "uit") (str "5") "q"%char).
  - repeat (apply Forall_cons; [reflexivity |]). apply Forall_nil.
  - reflexivity.
  - reflexivity.
  - discriminate.
  - repeat (apply Forall_cons; [reflexivity |]). apply Forall_nil.
  - reflexivity.
Defined.

Lemma scanf_d_number (blanks ds tail : cstring) :
  all isspace blanks -> ds <> [] -> all isdigit ds -> stops isdigit tail ->
  scanf_d (blanks ++ ds ++ tail)
  = (1, to_int (Z.min (decimal ds) LONG_MAX), tail).
Proof.
  intros Hb Hne Hds Htail. unfold scanf_d, skip_space.
  pose proof (strtol_digits ds tail Hne Hds Htail) as Hval.
  destruct ds as [| c ds']; [congruence |].
  pose proof (Forall_inv Hds) as Hc. cbv beta in Hc.
  rewrite (drop_while_app isspace blanks ((c :: ds') ++ tail) Hb
             (isdigit_not_space c Hc)).
  cbn [app]. rewrite (isdigit_not_sign c Hc).
  change (c :: ds' ++ tail) with ((c :: ds') ++ tail).
  rewrite (take_while_app isdigit _ _ Hds Htail).
  rewrite (drop_while_app isdigit _ _ Hds Htail).
  unfold atoi. rewrite Hval. reflexivity.
Qed.

(** X22.  Of the input, a choice is the first number alone.  Blanks and
    blank lines before it and whatever follows the digits on its line
    change nothing: the pass goes as on the digits and a line break. *)
Theorem choice_is_the_first_number (E : setting) (st : session)
  (blanks ds tail rest : cstring) :
  all isspace blanks -> ds <> [] -> all isdigit ds ->
  stops isdigit tail -> no_line_break tail ->
  menu_pass E (set_input (blanks ++ ds ++ tail ++ newline :: rest) st)
  = menu_pass E (set_input (ds ++ newline :: rest) st).
Proof.
  intros Hb Hne Hds Htail Hline.
  assert (Hstop : stops isdigit (tail ++ newline :: rest)).
  { destruct tail; [reflexivity | exact Htail]. }
  unfold menu_pass. cbn [input show set_input].
  rewrite (scanf_d_number blanks ds _ Hb Hne Hds Hstop).
  change (ds ++ newline :: rest) with ([] ++ ds ++ newline :: rest).
  rewrite (scanf_d_number [] ds (newline :: rest) (Forall_nil _) Hne Hds
             eq_refl).
  cbn [input set_input].
  rewrite (flush_line_break tail rest Hline).
  change (flush_line (newline :: rest)) with (Some rest).
  reflexivity.
Qed.

Lemma choice_is_the_first_number_witness :
  menu_pass sample_setting
    (set_input (str "  " ++ str "5" ++ str " please" ++ newline :: [])
       blank_session)
  = menu_pass sample_setting
      (set_input (str "5" ++ newline :: []) blank_session).
Proof.
  apply (choice_is_the_first_number sample_setting blank_session (str "  ")
           (str "5") (str " please") []).
  - repeat (apply Forall_cons; [reflexivity |]). apply Forall_nil.
  - discriminate.
  - repeat (apply Forall_cons; [reflexivity |]). apply Forall_nil.
  - reflexivity.
  - repeat (apply Forall_cons; [reflexivity |]). apply Forall_nil.
Defined.
